(** * BNTX to DDS converter: a shallow embedding of [src/main.cpp]

    The development follows the layout of the C++ file: utility readers,
    the Tegra block-linear address translation and [deswizzle], the DDS
    header generator, the BNTX parser and the export driver.

    Conventions.
    - [u32] values are integers in [Z] reduced modulo [2^32] after every
      arithmetic operation, exactly where the C++ expression wraps.
    - [std::vector<u8>] is [list byte].
    - Undefined behaviour of the C++ program (reading or writing outside a
      vector, dividing by zero, shifting an [int] by 32 or more) is made
      explicit as a [Fault] result, so that "never faults" is a statement
      one can prove or refute.
    - Multi-byte stores through [std::memcpy] use the little-endian byte
      order of the hosts the tool is built for. *)

From Stdlib Require Import ZArith List Lia Bool String Ascii.
From Stdlib Require Import Morphisms Setoid.
From Stdlib Require Import Strings.Byte.
Import ListNotations.
Open Scope Z_scope.

(* ====================================================================== *)
(** ** Faults and the error monad                                          *)
(* ====================================================================== *)

Inductive fault : Type :=
| DivByZero
| ShiftOutOfRange
| OobRead
| OobWrite.

Inductive result (A : Type) : Type :=
| Ok (a : A)
| Fault (e : fault).

Arguments Ok {A} a.
Arguments Fault {A} e.

Definition bind {A B : Type} (m : result A) (k : A -> result B) : result B :=
  match m with
  | Ok a => k a
  | Fault e => Fault e
  end.

Notation "x <- m ;; k" := (bind m (fun x => k))
  (at level 61, m at next level, right associativity).

(* ====================================================================== *)
(** ** 32-bit unsigned arithmetic                                          *)
(* ====================================================================== *)

Definition u32_mod : Z := 4294967296.

Definition wrap32 (z : Z) : Z := z mod u32_mod.

Definition add32 (a b : Z) : Z := wrap32 (a + b).
Definition sub32 (a b : Z) : Z := wrap32 (a - b).
Definition mul32 (a b : Z) : Z := wrap32 (a * b).

(** [a / b] and [a % b] on [u32]: undefined for a zero divisor. *)
Definition div32 (a b : Z) : result Z :=
  if b =? 0 then Fault DivByZero else Ok (a / b).

Definition rem32 (a b : Z) : result Z :=
  if b =? 0 then Fault DivByZero else Ok (a mod b).

(** [1 << s] with an [int] left operand, converted to [u32]. *)
Definition shl_one (s : Z) : result Z :=
  if s <? 32 then Ok (wrap32 (Z.shiftl 1 s)) else Fault ShiftOutOfRange.

Definition is_u32 (z : Z) : Prop := 0 <= z < u32_mod.

(* ====================================================================== *)
(** ** Byte vectors                                                        *)
(* ====================================================================== *)

Definition len {A : Type} (l : list A) : Z := Z.of_nat (List.length l).

Definition byte_val (b : byte) : Z := Z.of_N (Byte.to_N b).

Definition byte_of_Z (z : Z) : byte :=
  match Byte.of_N (Z.to_N (z mod 256)) with
  | Some b => b
  | None => x00
  end.

Definition slice (l : list byte) (off n : Z) : list byte :=
  firstn (Z.to_nat n) (skipn (Z.to_nat off) l).

(** [std::memcpy(&dst[doff], &src[soff], n)] on two vectors. *)
Definition memcpy (dst : list byte) (doff : Z) (src : list byte) (soff n : Z)
  : result (list byte) :=
  if soff + n <=? len src then
    if doff + n <=? len dst then
      Ok (firstn (Z.to_nat doff) dst ++ slice src soff n
            ++ skipn (Z.to_nat (doff + n)) dst)
    else Fault OobWrite
  else Fault OobRead.

(** [for (u32 i = start; i < start + n; i++) body], threading the state. *)
Fixpoint for_range {S : Type} (n : nat) (i : Z)
         (body : Z -> S -> result S) (s : S) : result S :=
  match n with
  | O => Ok s
  | Datatypes.S n' => s' <- body i s ;; for_range n' (i + 1) body s'
  end.

(* ====================================================================== *)
(** ** Tegra block linear swizzle                                          *)
(* ====================================================================== *)

Definition DIV_ROUND_UP (n d : Z) : result Z :=
  div32 (sub32 (add32 n d) 1) d.

Definition round_up (x y : Z) : Z :=
  add32 (Z.lor (sub32 x 1) (sub32 y 1)) 1.

Definition getAddrBlockLinear (x y image_width bytes_per_pixel
                               base_address block_height : Z) : result Z :=
  image_width_in_gobs <- DIV_ROUND_UP (mul32 image_width bytes_per_pixel) 64 ;;
  q <- div32 y (mul32 8 block_height) ;;
  r <- rem32 y (mul32 8 block_height) ;;
  let GOB_address :=
    add32 (add32 (add32 base_address
      (mul32 (mul32 (mul32 q 512) block_height) image_width_in_gobs))
      (mul32 (mul32 (mul32 x bytes_per_pixel / 64) 512) block_height))
      (mul32 (r / 8) 512) in
  let x := mul32 x bytes_per_pixel in
  let Address :=
    add32 (add32 (add32 (add32 (add32 GOB_address
      (mul32 ((x mod 64) / 32) 256))
      (mul32 ((y mod 8) / 2) 64))
      (mul32 ((x mod 32) / 16) 32))
      (mul32 (y mod 2) 16))
      (x mod 16) in
  Ok Address.

(** Lines 131-137: pitch and surface size. *)
Definition surface_layout (width height bpp tileMode alignment block_height : Z)
  : Z * Z :=
  if tileMode =? 0 then
    let pitch := round_up (mul32 width bpp) 32 in
    (pitch, round_up (mul32 pitch height) alignment)
  else
    let pitch := round_up (mul32 width bpp) 64 in
    (pitch,
     round_up (mul32 pitch (round_up height (mul32 block_height 8))) alignment).

(** Lines 145-149: the source offset [pos] of block [(x, y)]. *)
Definition source_pos (tileMode pitch width bpp block_height x y : Z)
  : result Z :=
  if tileMode =? 0 then Ok (add32 (mul32 y pitch) (mul32 x bpp))
  else getAddrBlockLinear x y width bpp 0 block_height.

(** Lines 143-155: the body of the inner loop. *)
Definition deswizzle_block (tileMode pitch surfSize width bpp block_height : Z)
           (data : list byte) (y x : Z) (res : list byte)
  : result (list byte) :=
  pos <- source_pos tileMode pitch width bpp block_height x y ;;
  let pos_ := mul32 (add32 (mul32 y width) x) bpp in
  if (add32 pos bpp <=? surfSize) && (add32 pos_ bpp <=? len data) then
    memcpy res pos_ data pos bpp
  else Ok res.

Definition deswizzle_row (tileMode pitch surfSize width bpp block_height : Z)
           (data : list byte) (y : Z) (res : list byte)
  : result (list byte) :=
  for_range (Z.to_nat width) 0
    (deswizzle_block tileMode pitch surfSize width bpp block_height data y) res.

(** The surface size [deswizzle] allocates, after the grid conversion. *)
Definition deswizzle_surfSize (width height blkWidth blkHeight bpp tileMode
                               alignment size_range : Z) : result Z :=
  block_height <- shl_one size_range ;;
  width <- DIV_ROUND_UP width blkWidth ;;
  height <- DIV_ROUND_UP height blkHeight ;;
  Ok (snd (surface_layout width height bpp tileMode alignment block_height)).

Definition deswizzle (width height blkWidth blkHeight bpp tileMode alignment
                      size_range : Z) (data : list byte)
  : result (list byte) :=
  block_height <- shl_one size_range ;;
  width <- DIV_ROUND_UP width blkWidth ;;
  height <- DIV_ROUND_UP height blkHeight ;;
  let '(pitch, surfSize) :=
    surface_layout width height bpp tileMode alignment block_height in
  let res := repeat x00 (Z.to_nat surfSize) in
  for_range (Z.to_nat height) 0
    (deswizzle_row tileMode pitch surfSize width bpp block_height data) res.

(* ====================================================================== *)
(** ** Utility functions: raw little-endian readers                        *)
(* ====================================================================== *)

(** [f[i]] for an index already converted to [size_t]: a negative [i64]
    becomes an index beyond any vector. *)
Definition byte_at (f : list byte) (i : Z) : result Z :=
  if (0 <=? i) && (i <? len f) then Ok (byte_val (nth (Z.to_nat i) f x00))
  else Fault OobRead.

(** The [n] bytes a [memcmp] or [memcpy] reads from [&f[off]]. *)
Definition read_bytes (f : list byte) (off n : Z) : result (list byte) :=
  if (0 <=? off) && (off + n <=? len f) then Ok (slice f off n)
  else Fault OobRead.

Definition Read16LE (f : list byte) (off : Z) : result Z :=
  b0 <- byte_at f off ;;
  b1 <- byte_at f (off + 1) ;;
  Ok (Z.lor b0 (Z.shiftl b1 8)).

Definition Read32LE (f : list byte) (off : Z) : result Z :=
  b0 <- byte_at f off ;;
  b1 <- byte_at f (off + 1) ;;
  b2 <- byte_at f (off + 2) ;;
  b3 <- byte_at f (off + 3) ;;
  Ok (wrap32 (Z.lor (Z.lor (Z.lor b0 (Z.shiftl b1 8)) (Z.shiftl b2 16))
                    (Z.shiftl b3 24))).

Definition Read64LE (f : list byte) (off : Z) : result Z :=
  for_range 8 0
    (fun i acc => b <- byte_at f (off + i) ;; Ok (Z.lor acc (Z.shiftl b (i * 8))))
    0.

Definition to_i64 (v : Z) : Z :=
  if v <? 9223372036854775808 then v else v - 18446744073709551616.

Definition Read64LE_Signed (f : list byte) (off : Z) : result Z :=
  v <- Read64LE f off ;; Ok (to_i64 v).

Fixpoint ReadString (f : list byte) (off : Z) (maxLen : nat) : result string :=
  match maxLen with
  | O => Ok EmptyString
  | S n =>
      b <- byte_at f off ;;
      if b =? 0 then Ok EmptyString
      else rest <- ReadString f (off + 1) n ;;
           Ok (String (ascii_of_byte (byte_of_Z b)) rest)
  end.

(* ====================================================================== *)
(** ** Data tables                                                         *)
(* ====================================================================== *)

Fixpoint lookup {V : Type} (k : Z) (m : list (Z * V)) : option V :=
  match m with
  | [] => None
  | (k', v) :: m' => if k =? k' then Some v else lookup k m'
  end.

Definition formats : list (Z * string) :=
  [ (0x0b, "R8_G8_B8_A8"); (0x07, "R5_G6_B5"); (0x02, "R8_UNORM");
    (0x09, "R8_G8");
    (0x1a, "BC1"); (0x1b, "BC2"); (0x1c, "BC3"); (0x1d, "BC4"); (0x1e, "BC5");
    (0x1f, "BC6H"); (0x20, "BC7");
    (0x2d, "ASTC4x4"); (0x2e, "ASTC5x4"); (0x2f, "ASTC5x5"); (0x30, "ASTC6x5");
    (0x31, "ASTC6x6"); (0x32, "ASTC8x5"); (0x33, "ASTC8x6"); (0x34, "ASTC8x8");
    (0x35, "ASTC10x5"); (0x36, "ASTC10x6"); (0x37, "ASTC10x8");
    (0x38, "ASTC10x10"); (0x39, "ASTC12x10"); (0x3a, "ASTC12x12") ]%string.

Definition bpps : list (Z * Z) :=
  [ (0x0b, 4); (0x07, 2); (0x02, 1); (0x09, 2); (0x1a, 8);
    (0x1b, 16); (0x1c, 16); (0x1d, 8); (0x1e, 16); (0x1f, 16);
    (0x20, 16); (0x2d, 16); (0x2e, 16); (0x2f, 16); (0x30, 16);
    (0x31, 16); (0x32, 16); (0x33, 16); (0x34, 16); (0x35, 16);
    (0x36, 16); (0x37, 16); (0x38, 16); (0x39, 16); (0x3a, 16) ].

Record BlockDim : Type := mkBlockDim { first : Z; second : Z }.

Definition blkDims : list (Z * BlockDim) :=
  [ (0x1a, mkBlockDim 4 4); (0x1b, mkBlockDim 4 4); (0x1c, mkBlockDim 4 4);
    (0x1d, mkBlockDim 4 4); (0x1e, mkBlockDim 4 4); (0x1f, mkBlockDim 4 4);
    (0x20, mkBlockDim 4 4); (0x2d, mkBlockDim 4 4); (0x2e, mkBlockDim 5 4);
    (0x2f, mkBlockDim 5 5); (0x30, mkBlockDim 6 5); (0x31, mkBlockDim 6 6);
    (0x32, mkBlockDim 8 5); (0x33, mkBlockDim 8 6); (0x34, mkBlockDim 8 8);
    (0x35, mkBlockDim 10 5); (0x36, mkBlockDim 10 6); (0x37, mkBlockDim 10 8);
    (0x38, mkBlockDim 10 10); (0x39, mkBlockDim 12 10);
    (0x3a, mkBlockDim 12 12) ].

(* ====================================================================== *)
(** ** DDS header generation                                               *)
(* ====================================================================== *)

(** Stores at constant offsets inside the 128-byte header. *)
Definition write_bytes (v : list byte) (off : Z) (bs : list byte) : list byte :=
  firstn (Z.to_nat off) v ++ bs ++ skipn (Z.to_nat off + List.length bs) v.

Definition le32 (x : Z) : list byte :=
  [ byte_of_Z x; byte_of_Z (x / 256); byte_of_Z (x / 65536);
    byte_of_Z (x / 16777216) ].

Definition store32 (v : list byte) (off x : Z) : list byte :=
  write_bytes v off (le32 x).

Definition fourcc_of (format : Z) : option (list byte) :=
  if format =? 0x1a then Some (list_byte_of_string "DXT1")
  else if format =? 0x1b then Some (list_byte_of_string "DXT3")
  else if format =? 0x1c then Some (list_byte_of_string "DXT5")
  else if format =? 0x1d then Some (list_byte_of_string "ATI1")
  else if format =? 0x1e then Some (list_byte_of_string "ATI2")
  else if format =? 0x1f then Some (list_byte_of_string "BC6H")
  else if format =? 0x20 then Some (list_byte_of_string "BC7 ")
  else None.

Definition generateDDSHeader (width height format size : Z) : list byte :=
  let header := repeat x00 128 in
  let header := write_bytes header 0 (list_byte_of_string "DDS ") in
  let headerSize := 124 in
  let header := store32 header 4 headerSize in
  let flags := Z.lor (Z.lor (Z.lor (Z.lor 0x1 0x2) 0x4) 0x1000) 0x80000 in
  let header := store32 header 8 flags in
  let header := store32 header 12 height in
  let header := store32 header 16 width in
  let header := store32 header 20 size in
  let mips := 1 in
  let header := store32 header 28 mips in
  let pfSize := 32 in
  let header := store32 header 76 pfSize in
  let pfFlags := 0x4 in
  let header := store32 header 80 pfFlags in
  let header :=
    match fourcc_of format with
    | Some fourcc => write_bytes header 84 fourcc
    | None => header
    end in
  let caps1 := 0x1000 in
  store32 header 108 caps1.

(** Reading the synthesized header back. *)
Definition header_u32 (h : list byte) (off : Z) : Z :=
  match Read32LE h off with Ok v => v | Fault _ => 0 end.

(* ====================================================================== *)
(** ** BNTX structures and parser                                          *)
(* ====================================================================== *)

Record BNTXTexture : Type := mkTexture {
  name : string;
  width : Z;
  height : Z;
  format : Z;
  tileMode : Z;
  sizeRange : Z;
  alignment : Z;
  imageSize : Z;
  data : list byte
}.

(** The lines [parseBNTX] writes to [std::cerr]. *)
Inductive diag : Type :=
| FileTooSmall
| NotBNTX
| BigEndian
| InvalidNX
| InvalidTexInfoAddr
| InvalidBRTI
| InvalidDataAddr.

Definition diag_text (d : diag) : string :=
  match d with
  | FileTooSmall => "File too small!"
  | NotBNTX => "Not a valid BNTX file!"
  | BigEndian => "Big endian not supported!"
  | InvalidNX => "Invalid NX header!"
  | InvalidTexInfoAddr => "Invalid texture info address!"
  | InvalidBRTI => "Invalid BRTI magic!"
  | InvalidDataAddr => "Invalid data address!"
  end.

Definition is_fatal (d : diag) : bool :=
  match d with
  | FileTooSmall | NotBNTX | BigEndian | InvalidNX => true
  | _ => false
  end.

Definition bytes_eqb (a b : list byte) : bool :=
  if list_eq_dec Byte.byte_eq_dec a b then true else false.

(** [std::memcmp(&f[off], magic, 4) != 0]. *)
Definition magic_differs (f : list byte) (off : Z) (magic : string)
  : result bool :=
  m <- read_bytes f off 4 ;;
  Ok (negb (bytes_eqb m (list_byte_of_string magic))).

(** One iteration of the per-texture loop (lines 284-349): [inl d] is a
    [continue] after printing [d], [inr tex] is a [push_back].  Of the
    lines printed to [std::cout] only [1 << sizeRange] (line 327) is kept,
    for the shift it evaluates.  The sums
    [infoPtrAddr + i * 8] and [dataAddr + imageSize] are [i64] sums; they
    are kept exact here, a wrapped sum being negative and so rejected the
    same way (as an index beyond the vector, or by the size comparison). *)
Definition parse_texture (f : list byte) (infoPtrAddr i : Z)
  : result (diag + BNTXTexture) :=
  let infoPtr := infoPtrAddr + mul32 i 8 in
  texInfoAddr <- Read64LE_Signed f infoPtr ;;
  if (texInfoAddr <? 0) || (texInfoAddr >=? len f) then
    Ok (inl InvalidTexInfoAddr)
  else
    let pos := wrap32 texInfoAddr in
    bad <- magic_differs f pos "BRTI" ;;
    if bad : bool then Ok (inl InvalidBRTI)
    else
      tileMode <- byte_at f (add32 pos 0x10) ;;
      flags <- Read16LE f (add32 pos 0x12) ;;
      swizzle <- Read16LE f (add32 pos 0x14) ;;
      numMips <- Read16LE f (add32 pos 0x16) ;;
      format <- Read32LE f (add32 pos 0x1C) ;;
      width <- Read32LE f (add32 pos 0x24) ;;
      height <- Read32LE f (add32 pos 0x28) ;;
      sizeRange <- Read32LE f (add32 pos 0x34) ;;
      imageSize <- Read32LE f (add32 pos 0x50) ;;
      alignment <- Read32LE f (add32 pos 0x54) ;;
      nameAddr <- Read64LE_Signed f (add32 pos 0x60) ;;
      ptrsAddr <- Read64LE_Signed f (add32 pos 0x70) ;;
      nameLen <- Read16LE f nameAddr ;;
      name <- ReadString f (nameAddr + 2) (Z.to_nat nameLen) ;;
      shownBlockHeight <- shl_one sizeRange ;;
      dataAddr <- Read64LE_Signed f ptrsAddr ;;
      if (dataAddr <? 0) || (dataAddr + imageSize >? len f) then
        Ok (inl InvalidDataAddr)
      else
        Ok (inr (mkTexture name width height format tileMode sizeRange
                           alignment imageSize (slice f dataAddr imageSize))).

(** The parser state: the diagnostics printed so far and [textures]. *)
Definition parse_state : Type := (list diag * list BNTXTexture)%type.

Definition parse_step (f : list byte) (infoPtrAddr i : Z) (st : parse_state)
  : result parse_state :=
  o <- parse_texture f infoPtrAddr i ;;
  match o with
  | inl d => Ok (fst st ++ [d], snd st)
  | inr tex => Ok (fst st, snd st ++ [tex])
  end.

Definition parse_loop (f : list byte) (infoPtrAddr texCount : Z)
  : result parse_state :=
  for_range (Z.to_nat texCount) 0 (parse_step f infoPtrAddr) ([], []).

Definition parseBNTX (f : list byte) : result parse_state :=
  if len f <? 0x100 then Ok ([FileTooSmall], [])
  else
    bad <- magic_differs f 0 "BNTX" ;;
    if bad : bool then Ok ([NotBNTX], [])
    else
      b0 <- byte_at f 0xc ;;
      b1 <- byte_at f 0xd ;;
      let littleEndian := (b0 =? 0xFF) && (b1 =? 0xFE) in
      if negb littleEndian then Ok ([BigEndian], [])
      else
        let pos := 0 in
        fileNameAddr <- Read32LE f (add32 pos 0x10) ;;
        fileSize <- Read32LE f (add32 pos 0x1C) ;;
        fileName <- ReadString f fileNameAddr 256 ;;
        let pos := add32 pos 0x20 in
        bad <- magic_differs f pos "NX  " ;;
        if bad : bool then Ok ([InvalidNX], [])
        else
          texCount <- Read32LE f (add32 pos 0x04) ;;
          infoPtrAddr <- Read64LE_Signed f (add32 pos 0x08) ;;
          dataBlkAddr <- Read64LE_Signed f (add32 pos 0x10) ;;
          parse_loop f infoPtrAddr texCount.

(** What [parseBNTX] hands back to its caller: the vector alone. *)
Definition returned_textures (st : parse_state) : list BNTXTexture := snd st.

(* ====================================================================== *)
(** ** Texture export and the driver                                       *)
(* ====================================================================== *)

(** Line 361: the key of the three format tables. *)
Definition formatType_of (tex : BNTXTexture) : Z := Z.shiftr (format tex) 8.

(** The three ways one iteration of [saveTextures] ends. *)
Inductive save_outcome : Type :=
| SkippedUnsupported                             (* lines 363-367, [continue] *)
| FailedToCreate (outName : string)              (* lines 400-403, [continue] *)
| Saved (outName : string) (bytes : list byte).  (* lines 405-409 *)

(** One iteration of [saveTextures].  [can_create outName] tells whether
    [std::ofstream out(outName, std::ios::binary)] opens; the bytes of a
    saved file are those handed to the two calls of [out.write], header
    first. *)
Definition save_texture (can_create : string -> bool) (outputDir : string)
           (tex : BNTXTexture) : result save_outcome :=
  let formatType := formatType_of tex in
  match lookup formatType formats with
  | None => Ok SkippedUnsupported
  | Some _ =>
      let blkWidth :=
        match lookup formatType blkDims with Some d => first d | None => 1 end in
      let blkHeight :=
        match lookup formatType blkDims with Some d => second d | None => 1 end in
      let bpp :=
        match lookup formatType bpps with Some b => b | None => 4 end in
      gw <- DIV_ROUND_UP (width tex) blkWidth ;;
      gh <- DIV_ROUND_UP (height tex) blkHeight ;;
      let size := mul32 (mul32 gw gh) bpp in
      res <- deswizzle (width tex) (height tex) blkWidth blkHeight bpp
                       (tileMode tex) (alignment tex) (sizeRange tex)
                       (data tex) ;;
      let res := if len res >? size then firstn (Z.to_nat size) res else res in
      let header := generateDDSHeader (width tex) (height tex) formatType size in
      let outName := (outputDir ++ "/" ++ name tex ++ ".dds")%string in
      if can_create outName then Ok (Saved outName (header ++ res))
      else Ok (FailedToCreate outName)
  end.

(** The loop of [saveTextures]: the files written, in order. *)
Fixpoint saveTextures (can_create : string -> bool)
         (textures : list BNTXTexture) (outputDir : string)
  : result (list (string * list byte)) :=
  match textures with
  | [] => Ok []
  | tex :: rest =>
      o <- save_texture can_create outputDir tex ;;
      files <- saveTextures can_create rest outputDir ;;
      Ok (match o with
          | Saved outName bytes => (outName, bytes) :: files
          | SkippedUnsupported | FailedToCreate _ => files
          end)
  end.

(** Lines 475-493 of [main]: what the driver does with the parser's vector. *)
Inductive exit_status : Type :=
| NoTexturesFound      (* "Error: No textures found in file!", return 1 *)
| Finished (n : nat).  (* "Finished! n Textures extracted", return 0 *)

Definition main_after_parse (textures : list BNTXTexture) : exit_status :=
  match textures with
  | [] => NoTexturesFound
  | _ => Finished (List.length textures)
  end.

(* ====================================================================== *)
(** ** The driver [main]                                                   *)
(* ====================================================================== *)

Definition double_quote : ascii := ascii_of_nat 34.
Definition single_quote : ascii := ascii_of_nat 39.

Definition is_quote (c : ascii) : bool :=
  Ascii.eqb c double_quote || Ascii.eqb c single_quote.

(** [path.back()] and [path.pop_back()] on a [std::string]. *)
Fixpoint back (s : string) : option ascii :=
  match s with
  | EmptyString => None
  | String c EmptyString => Some c
  | String _ r => back r
  end.

Fixpoint pop_back (s : string) : string :=
  match s with
  | EmptyString => EmptyString
  | String _ EmptyString => EmptyString
  | String c r => String c (pop_back r)
  end.

(** The lambda [cleanPath] of [main] (lines 430-437). *)
Definition cleanPath (path : string) : string :=
  let path :=
    match path with
    | String c r => if is_quote c then r else path
    | EmptyString => path
    end in
  match back path with
  | Some c => if is_quote c then pop_back path else path
  | None => path
  end.

Definition is_nil {A : Type} (l : list A) : bool :=
  match l with [] => true | _ :: _ => false end.

(** What opening and reading the input file gives (lines 457-473): the
    stream does not open; it opens but the vector for the size reported by
    [tellg] cannot be constructed (a size of -1, as for a directory, or one
    beyond the memory), and the constructor throws; the read fails; or the
    contents are read. *)
Inductive file_result : Type :=
| CannotOpen
| CannotAllocate
| CannotRead
| Contents (fileData : list byte).

(** The file system as [main] uses it after the shell command of line 453:
    reading the input and opening an output file for writing. *)
Record file_system : Type := mkFileSystem {
  open_read : string -> file_result;
  open_write : string -> bool
}.

(** Lines 448-452: the command handed to [system], for either branch of
    the [_WIN32] conditional. *)
Definition mkdirCmd (win32 : bool) (outputDir : string) : string :=
  if win32 then
    ("mkdir " ++ String double_quote outputDir
       ++ String double_quote " 2>nul")%string
  else
    ("mkdir -p " ++ String double_quote outputDir
       ++ String double_quote EmptyString)%string.

(** How [main] ends: with a return code, or in [std::terminate] when the
    exception of the vector constructor on line 468 reaches no handler;
    either way with the shell commands it has run and the files it has
    written. *)
Inductive main_result : Type :=
| Returns (code : Z) (commands : list string)
          (files : list (string * list byte))
| Terminates (commands : list string).

Definition is_empty (s : string) : bool :=
  match s with EmptyString => true | String _ _ => false end.

(** [main] as a function of the two lines read from the standard input and
    of the environment: the [_WIN32] build flag and what the file system
    is once [system] has run a command. *)
Definition main (win32 : bool) (system : string -> file_system)
           (inputLine outputLine : string) : result main_result :=
  let inputPath := cleanPath inputLine in
  let outputDir := cleanPath outputLine in
  if is_empty inputPath || is_empty outputDir then Ok (Returns 1 [] [])
  else
    let cmd := mkdirCmd win32 outputDir in
    let fs := system cmd in
    match open_read fs inputPath with
    | CannotOpen => Ok (Returns 1 [cmd] [])
    | CannotAllocate => Ok (Terminates [cmd])
    | CannotRead => Ok (Returns 1 [cmd] [])
    | Contents fileData =>
        st <- parseBNTX fileData ;;
        let textures := returned_textures st in
        if is_nil textures then Ok (Returns 1 [cmd] [])
        else
          files <- saveTextures (open_write fs) textures outputDir ;;
          Ok (Returns 0 [cmd] files)
    end.

(* ====================================================================== *)
(** ** Reference formulas                                                  *)
(* ====================================================================== *)

Definition ceil_div (n d : Z) : Z := (n + d - 1) / d.

(** The GOB address translation as a closed formula over the integers,
    reduced to 32 bits once at the end. *)
Definition gob_address_spec (x y gridW bytesPerBlock blockHeightLog2 : Z) : Z :=
  let blockHeightGobs := 2 ^ blockHeightLog2 in
  let xb := x * bytesPerBlock in
  wrap32
    ((y / (8 * blockHeightGobs)) * 512 * blockHeightGobs
       * ceil_div (gridW * bytesPerBlock) 64
     + (xb / 64) * 512 * blockHeightGobs
     + ((y mod (8 * blockHeightGobs)) / 8) * 512
     + (((xb mod 64) / 32) * 256 + ((y mod 8) / 2) * 64
        + ((xb mod 32) / 16) * 32 + (y mod 2) * 16 + xb mod 16)).

(** The rounding trick of [round_up] and the surface size of [deswizzle]
    over the integers, without any 32-bit wrap-around. *)
Definition round_up_exact (x y : Z) : Z := Z.lor (x - 1) (y - 1) + 1.

Definition surface_size_exact (gridW gridH bytesPerBlock tileMode alignment
                               blockHeightLog2 : Z) : Z :=
  if tileMode =? 0 then
    round_up_exact (round_up_exact (gridW * bytesPerBlock) 32 * gridH) alignment
  else
    round_up_exact
      (round_up_exact (gridW * bytesPerBlock) 64
       * round_up_exact gridH (2 ^ blockHeightLog2 * 8))
      alignment.

(** Deleting the padding of each row: [rows] rows of [rowBytes] bytes taken
    from a buffer whose rows are [pitch] bytes apart. *)
Fixpoint depad (rowBytes pitch : Z) (rows : nat) (buf : list byte)
  : list byte :=
  match rows with
  | O => []
  | S r => firstn (Z.to_nat rowBytes) buf
             ++ depad rowBytes pitch r (skipn (Z.to_nat pitch) buf)
  end.

(** Congruence modulo [2^32]. *)
Definition eq32 (a b : Z) : Prop := wrap32 a = wrap32 b.

(** Every byte of [res] from index [E] on is zero. *)
Definition zero_from (E : Z) (res : list byte) : Prop :=
  forall k : nat, E <= Z.of_nat k -> nth k res x00 = x00.

(** A parse that printed one of the four fatal diagnostics. *)
Definition aborted (st : parse_state) : Prop :=
  exists d, In d (fst st) /\ is_fatal d = true.

(** The most significant byte of a 32-bit field. *)
Definition top_byte (v : Z) : Z := Z.shiftr v 24.

(** The FourCC table of the DDS pixel-format block, as a finite map. *)
Definition fourcc_table : list (Z * string) :=
  [ (0x1a, "DXT1"); (0x1b, "DXT3"); (0x1c, "DXT5"); (0x1d, "ATI1");
    (0x1e, "ATI2"); (0x1f, "BC6H"); (0x20, "BC7 ") ]%string.

Definition fourcc_expected (format : Z) : list byte :=
  match lookup format fourcc_table with
  | Some s => list_byte_of_string s
  | None => [x00; x00; x00; x00]
  end.

(** *** The container layout in the words of the format description *)

(** The value of a little-endian byte string. *)
Fixpoint le_value (bs : list byte) : Z :=
  match bs with
  | [] => 0
  | b :: r => byte_val b + 256 * le_value r
  end.

Definition field_u8 (f : list byte) (off : Z) : Z := le_value (slice f off 1).
Definition field_u32 (f : list byte) (off : Z) : Z := le_value (slice f off 4).
Definition field_i64 (f : list byte) (off : Z) : Z :=
  to_i64 (le_value (slice f off 8)).

Definition magic_at (f : list byte) (off : Z) (magic : string) : Prop :=
  slice f off 4 = list_byte_of_string magic.

(** The four reasons to reject a whole file. *)
Definition fatal_condition (f : list byte) : Prop :=
  len f < 0x100
  \/ ~ magic_at f 0 "BNTX"
  \/ ~ (field_u8 f 0xC = 0xFF /\ field_u8 f 0xD = 0xFE)
  \/ ~ magic_at f 0x20 "NX  ".


(** What one index contributes to the result list. *)
Definition kept (o : result (diag + BNTXTexture)) : list BNTXTexture :=
  match o with
  | Ok (inr tex) => [tex]
  | _ => []
  end.

Definition logged (o : result (diag + BNTXTexture)) : list diag :=
  match o with
  | Ok (inl d) => [d]
  | _ => []
  end.

Definition indices (n : nat) : list Z := map Z.of_nat (seq 0 n).

(* ====================================================================== *)
(** ** Sample inputs                                                       *)
(* ====================================================================== *)

(** A 1x2 RGBA8 texture stored linearly whose payload holds only the
    eight texel bytes, without the row padding the layout expects. *)
Definition payload8 : list byte :=
  [x01; x02; x03; x04; x05; x06; x07; x08].

Definition tex_rgba_1x2 : BNTXTexture :=
  mkTexture "t" 1 2 0x0b01 0 0 512 8 payload8.

(** The first 48 bytes of the 512-byte block-linear surface of a 12x4 BC3
    texture (three 16-byte blocks in one row). *)
Definition payload48 : list byte := repeat x11 48.

(** A 4x4 BC1 texture: one 8-byte block. *)
Definition tex_bc1_4x4 : BNTXTexture :=
  mkTexture "b" 4 4 0x1a01 0 0 512 8 payload8.

(** A 1x2 RGBA8 linear surface with its full 32-byte row pitch. *)
Definition linear_1x2 : list byte :=
  [x01; x02; x03; x04] ++ repeat xaa 28 ++ [x05; x06; x07; x08] ++ repeat xbb 28.

(** *** BNTX containers *)

Fixpoint le_bytes (n : nat) (x : Z) : list byte :=
  match n with
  | O => []
  | S k => byte_of_Z x :: le_bytes k (x / 256)
  end.

Definition put (off : Z) (bs : list byte) (buf : list byte) : list byte :=
  write_bytes buf off bs.

(** A header for [texCount] textures whose info-pointer array is at 0x80. *)
Definition bntx_header (size texCount : Z) : list byte :=
  put 0x28 (le_bytes 8 0x80)
    (put 0x24 (le_bytes 4 texCount)
      (put 0x20 (list_byte_of_string "NX  ")
        (put 0x1C (le_bytes 4 size)
          (put 0x10 (le_bytes 4 0x40)
            (put 0x0C [xff; xfe]
              (put 0 (list_byte_of_string "BNTX")
                (repeat x00 (Z.to_nat size)))))))).

(** A BRTI record at [pos] for a linear RGBA8 texture named "t". *)
Definition put_brti (pos w h imgSize nameAddr ptrsAddr : Z) (buf : list byte)
  : list byte :=
  put (pos + 0x70) (le_bytes 8 ptrsAddr)
    (put (pos + 0x60) (le_bytes 8 nameAddr)
      (put (pos + 0x54) (le_bytes 4 64)
        (put (pos + 0x50) (le_bytes 4 imgSize)
          (put (pos + 0x28) (le_bytes 4 h)
            (put (pos + 0x24) (le_bytes 4 w)
              (put (pos + 0x1C) (le_bytes 4 0x0b01)
                (put pos (list_byte_of_string "BRTI") buf))))))).

(** A structurally valid container that declares no texture. *)
Definition bntx_no_textures : list byte := bntx_header 0x100 0.

(** Two declared textures: entry 0 points at bytes that are not a BRTI
    record, entry 1 at a 1x2 RGBA8 texture with a 64-byte payload. *)
Definition bntx_two_entries (w : Z) : list byte :=
  put 0x2c0 linear_1x2
    (put 0x2b0 (le_bytes 8 0x2c0)
      (put 0x2a0 (le_bytes 2 1 ++ list_byte_of_string "t")
        (put_brti 0x200 w 2 64 0x2a0 0x2b0
          (put 0x88 (le_bytes 8 0x200)
            (put 0x80 (le_bytes 8 0x100)
              (bntx_header 0x300 2)))))).

(* ====================================================================== *)
(** ** Further reference notions                                           *)
(* ====================================================================== *)

Definition field_u16 (f : list byte) (off : Z) : Z := le_value (slice f off 2).

(** A byte range that lies inside a buffer. *)
Definition in_bounds (f : list byte) (off n : Z) : Prop :=
  0 <= off /\ off + n <= len f.

(** The GOB address formula before its reduction to 32 bits. *)
Definition gob_sum (x y gridW bytesPerBlock blockHeightLog2 : Z) : Z :=
  let blockHeightGobs := 2 ^ blockHeightLog2 in
  let xb := x * bytesPerBlock in
  (y / (8 * blockHeightGobs)) * 512 * blockHeightGobs
    * ceil_div (gridW * bytesPerBlock) 64
  + (xb / 64) * 512 * blockHeightGobs
  + ((y mod (8 * blockHeightGobs)) / 8) * 512
  + (((xb mod 64) / 32) * 256 + ((y mod 8) / 2) * 64
     + ((xb mod 32) / 16) * 32 + (y mod 2) * 16 + xb mod 16).

(** The blocks of a [gw] x [gh] grid with row-major index below [n] hold,
    in [res], the payload bytes found at their source offsets. *)
Definition copied (gw gh bpp tMode pitch surf s : Z) (payload : list byte)
           (n : Z) (res : list byte) : Prop :=
  len res = surf
  /\ forall x y, 0 <= x < gw -> 0 <= y < gh -> y * gw + x < n ->
       exists pos,
         source_pos tMode pitch gw bpp (2 ^ s) x y = Ok pos
         /\ slice res ((y * gw + x) * bpp) bpp = slice payload pos bpp.

(** The block dimensions and the block size that [saveTextures] takes for
    a table key (lines 369-378). *)
Definition block_width (formatType : Z) : Z :=
  match lookup formatType blkDims with Some d => first d | None => 1 end.

Definition block_height (formatType : Z) : Z :=
  match lookup formatType blkDims with Some d => second d | None => 1 end.

Definition block_bytes (formatType : Z) : Z :=
  match lookup formatType bpps with Some b => b | None => 4 end.

(** The keys of a table. *)
Definition keys {V : Type} (m : list (Z * V)) : list Z := map fst m.

(** A texture whose format key is in no table. *)
Definition unsupported (tex : BNTXTexture) : Prop :=
  lookup (formatType_of tex) formats = None.

(** An 8x8 block-linear BC3 texture with its whole 512-byte surface. *)
Definition tex_bc3_8x8 : BNTXTexture :=
  mkTexture "c" 8 8 0x1c01 1 0 512 512 (repeat x11 512).

Definition supported (tex : BNTXTexture) : bool :=
  match lookup (formatType_of tex) formats with
  | Some _ => true
  | None => false
  end.

(** The name of the file written for a texture. *)
Definition dds_name (outputDir : string) (tex : BNTXTexture) : string :=
  (outputDir ++ "/" ++ name tex ++ ".dds")%string.

(** A texture of a format no table knows. *)
Definition tex_unknown_format : BNTXTexture :=
  mkTexture "u" 4 4 0x7701 0 0 512 8 payload8.

(** The container [bntx_two_entries 1] with the format field of its
    texture replaced by a code that no table knows. *)
Definition bntx_unknown_format : list byte :=
  put (0x200 + 0x1C) (le_bytes 4 0x7701) (bntx_two_entries 1).

(** A texture record with another format field. *)
Definition with_format (tex : BNTXTexture) (fmt : Z) : BNTXTexture :=
  mkTexture (name tex) (width tex) (height tex) fmt (tileMode tex)
            (sizeRange tex) (alignment tex) (imageSize tex) (data tex).

(** The exporter works with the table entries found at [key]: it skips the
    texture exactly when [key] is not in the format table; the bytes of a
    saved file are the header generated for [key] followed by the (cut)
    output of [deswizzle] run with the block dimensions and block size
    found at [key]; and the part of the format field outside [key], its
    low byte, has no influence. *)
Definition exports_by_key (can_create : string -> bool) (outputDir : string)
           (tex : BNTXTexture) (key : Z) : Prop :=
  (save_texture can_create outputDir tex = Ok SkippedUnsupported
   <-> lookup key formats = None)
  /\ (forall outName bytes,
        save_texture can_create outputDir tex = Ok (Saved outName bytes) ->
        exists gw gh out,
          DIV_ROUND_UP (width tex) (block_width key) = Ok gw
          /\ DIV_ROUND_UP (height tex) (block_height key) = Ok gh
          /\ deswizzle (width tex) (height tex) (block_width key)
                       (block_height key) (block_bytes key) (tileMode tex)
                       (alignment tex) (sizeRange tex) (data tex) = Ok out
          /\ bytes
             = generateDDSHeader (width tex) (height tex) key
                 (mul32 (mul32 gw gh) (block_bytes key))
               ++ (if len out >? mul32 (mul32 gw gh) (block_bytes key)
                   then firstn (Z.to_nat (mul32 (mul32 gw gh)
                                            (block_bytes key))) out
                   else out)
          /\ slice bytes 84 4 = fourcc_expected key)
  /\ (forall low, 0 <= low < 256 ->
        save_texture can_create outputDir (with_format tex (256 * key + low))
        = save_texture can_create outputDir tex).

(** The textures for which [saveTextures] writes a file: the format key
    is in the format table and the output file opens. *)
Definition exported (can_create : string -> bool) (outputDir : string)
           (tex : BNTXTexture) : bool :=
  supported tex && can_create (dds_name outputDir tex).

(* ====================================================================== *)
(** * Properties                                                           *)
(* ====================================================================== *)

(** ** Arithmetic modulo [2^32] *)

Lemma u32_mod_pos : 0 < u32_mod.
Proof. reflexivity. Qed.

Lemma wrap32_range z : is_u32 (wrap32 z).
Proof. unfold is_u32, wrap32. apply Z.mod_pos_bound. reflexivity. Qed.

Lemma wrap32_small z : is_u32 z -> wrap32 z = z.
Proof. unfold is_u32, wrap32. intros H. apply Z.mod_small. exact H. Qed.

Lemma wrap32_congr a b k : a = b + k * u32_mod -> wrap32 a = wrap32 b.
Proof.
  intros ->. unfold wrap32. apply Z.mod_add. discriminate.
Qed.

Lemma wrap32_idem z : wrap32 (wrap32 z) = wrap32 z.
Proof. unfold wrap32. apply Z.mod_mod. discriminate. Qed.

Lemma wrap32_decomp z : wrap32 z = z - u32_mod * (z / u32_mod).
Proof. unfold wrap32. rewrite Z.mod_eq by discriminate. reflexivity. Qed.

Lemma wrap32_add_l a b : wrap32 (wrap32 a + b) = wrap32 (a + b).
Proof. unfold wrap32. apply Z.add_mod_idemp_l. discriminate. Qed.

Lemma wrap32_add_r a b : wrap32 (a + wrap32 b) = wrap32 (a + b).
Proof. unfold wrap32. apply Z.add_mod_idemp_r. discriminate. Qed.

Lemma wrap32_mul_l a b : wrap32 (wrap32 a * b) = wrap32 (a * b).
Proof. unfold wrap32. apply Z.mul_mod_idemp_l. discriminate. Qed.

Lemma wrap32_mul_r a b : wrap32 (a * wrap32 b) = wrap32 (a * b).
Proof. unfold wrap32. apply Z.mul_mod_idemp_r. discriminate. Qed.

(** A wrapped value agrees with the exact one on its low six bits... *)
Lemma wrap32_mod_pow2 a d : (d | u32_mod) -> 0 < d -> wrap32 a mod d = a mod d.
Proof.
  intros Hd Hpos. unfold wrap32. apply Z.mod_mod_divide. exact Hd.
Qed.

(** ... and its quotient by 64 differs by a multiple of [2^26]. *)
Lemma wrap32_div64 a : wrap32 a / 64 = a / 64 - 67108864 * (a / u32_mod).
Proof.
  rewrite wrap32_decomp.
  replace (a - u32_mod * (a / u32_mod))
    with (a + (- (67108864 * (a / u32_mod))) * 64) by (unfold u32_mod; ring).
  rewrite Z.div_add by discriminate. ring.
Qed.

Lemma pow2_lt_u32 s : 0 <= s < 32 -> 0 < 2 ^ s < u32_mod.
Proof.
  intros H. split.
  - apply Z.pow_pos_nonneg; lia.
  - change u32_mod with (2 ^ 32). apply Z.pow_lt_mono_r; lia.
Qed.

Lemma shl_one_small s : 0 <= s < 32 -> shl_one s = Ok (2 ^ s).
Proof.
  intros H. unfold shl_one.
  destruct (Z.ltb_spec s 32) as [_ | Hge]; [| lia].
  rewrite Z.shiftl_1_l. rewrite wrap32_small; [reflexivity |].
  pose proof (pow2_lt_u32 s H). unfold is_u32. lia.
Qed.

Lemma mul8_pow2_small s : 0 <= s < 29 -> mul32 8 (2 ^ s) = 8 * 2 ^ s.
Proof.
  intros H. unfold mul32. apply wrap32_small. unfold is_u32.
  assert (0 < 2 ^ s) by (apply Z.pow_pos_nonneg; lia).
  assert (2 ^ s < 2 ^ 29) by (apply Z.pow_lt_mono_r; lia).
  change (2 ^ 29) with 536870912 in *. unfold u32_mod. lia.
Qed.

Lemma DIV_ROUND_UP_64 n :
  DIV_ROUND_UP (wrap32 n) 64 = Ok (wrap32 (n + 63) / 64).
Proof.
  unfold DIV_ROUND_UP, div32, sub32, add32. simpl.
  f_equal. f_equal.
  rewrite wrap32_add_l.
  replace (wrap32 (n + 64) - 1) with (-1 + wrap32 (n + 64)) by ring.
  rewrite wrap32_add_r. f_equal. ring.
Qed.

(** Congruence modulo [2^32] is a setoid compatible with [+] and [*]. *)
#[local] Instance eq32_equiv : Equivalence eq32.
Proof.
  unfold eq32. split.
  - intros a. reflexivity.
  - intros a b H. symmetry. exact H.
  - intros a b c H1 H2. rewrite H1. exact H2.
Qed.

#[local] Instance eq32_add : Proper (eq32 ==> eq32 ==> eq32) Z.add.
Proof.
  intros a a' Ha b b' Hb. unfold eq32 in *.
  rewrite <- wrap32_add_l, <- wrap32_add_r, Ha, Hb.
  rewrite wrap32_add_l, wrap32_add_r. reflexivity.
Qed.

#[local] Instance eq32_mul : Proper (eq32 ==> eq32 ==> eq32) Z.mul.
Proof.
  intros a a' Ha b b' Hb. unfold eq32 in *.
  rewrite <- wrap32_mul_l, <- wrap32_mul_r, Ha, Hb.
  rewrite wrap32_mul_l, wrap32_mul_r. reflexivity.
Qed.

Lemma wrap32_eq32 a : eq32 (wrap32 a) a.
Proof. unfold eq32. apply wrap32_idem. Qed.

(** ** The block-linear address translation *)

Lemma getAddrBlockLinear_exact x y gridW bpp s :
  0 <= s < 29 ->
  getAddrBlockLinear x y gridW bpp 0 (2 ^ s) =
  Ok (gob_address_spec x y gridW bpp s).
Proof.
  intros Hs. unfold getAddrBlockLinear.
  unfold mul32 at 1. rewrite DIV_ROUND_UP_64. cbn [bind].
  rewrite mul8_pow2_small by exact Hs.
  assert (Hbh : 0 < 2 ^ s) by (apply Z.pow_pos_nonneg; lia).
  unfold div32, rem32.
  destruct (Z.eqb_spec (8 * 2 ^ s) 0) as [E | _]; [lia |].
  cbn [bind]. f_equal. unfold gob_address_spec, ceil_div.
  assert (D64 : (64 | u32_mod)) by (exists 67108864; reflexivity).
  assert (D32 : (32 | u32_mod)) by (exists 134217728; reflexivity).
  assert (D16 : (16 | u32_mod)) by (exists 268435456; reflexivity).
  unfold add32, mul32.
  rewrite !wrap32_mod_pow2 by (assumption || reflexivity).
  rewrite !wrap32_div64.
  set (q := y / (8 * 2 ^ s)). set (r := y mod (8 * 2 ^ s)).
  replace (gridW * bpp + 64 - 1) with (gridW * bpp + 63) by ring.
  set (c1 := (gridW * bpp + 63) / u32_mod).
  set (c2 := (x * bpp) / u32_mod).
  set (w := (gridW * bpp + 63) / 64). set (xq := x * bpp / 64).
  set (t1 := (x * bpp) mod 64 / 32). set (t2 := y mod 8 / 2).
  set (t3 := (x * bpp) mod 32 / 16). set (t4 := y mod 2).
  set (t5 := (x * bpp) mod 16). set (r8 := r / 8).
  change (eq32
    (wrap32 (wrap32 (wrap32 (wrap32 (wrap32 (wrap32 (wrap32 (0 +
       wrap32 (wrap32 (wrap32 (q * 512) * 2 ^ s) * (w - 67108864 * c1))) +
       wrap32 (wrap32 ((xq - 67108864 * c2) * 512) * 2 ^ s)) +
       wrap32 (r8 * 512)) + wrap32 (t1 * 256)) + wrap32 (t2 * 64)) +
       wrap32 (t3 * 32)) + wrap32 (t4 * 16)) + t5)
    (q * 512 * 2 ^ s * w + xq * 512 * 2 ^ s + r8 * 512 +
       (t1 * 256 + t2 * 64 + t3 * 32 + t4 * 16 + t5))).
  rewrite !wrap32_eq32.
  unfold eq32.
  apply wrap32_congr with (k := - 8 * (q * 2 ^ s * c1 + 2 ^ s * c2)).
  unfold u32_mod. ring.
Qed.

(** C2: in tiled mode ([tileMode <> 0]) the source offset that [deswizzle]
    computes for a block [(x, y)] is the GOB address-translation formula
    evaluated with [blockHeightGobs = 2^blockHeightLog2], bit for bit: the
    32-bit wrap-around at every step of the code gives the same value as
    the exact formula reduced modulo [2^32] once.  The bound on the block
    height exponent is where the divisor [8 * blockHeightGobs] of the
    formula is a nonzero 32-bit value. *)
Theorem tiled_source_offset_is_gob_address
        (tileMode pitch gridW bpp size_range x y : Z) :
  tileMode <> 0 ->
  0 <= size_range < 29 ->
  (block_height <- shl_one size_range ;;
   source_pos tileMode pitch gridW bpp block_height x y)
  = Ok (gob_address_spec x y gridW bpp size_range).
Proof.
  intros Hmode Hs.
  rewrite shl_one_small by lia. cbn [bind].
  unfold source_pos.
  destruct (Z.eqb_spec tileMode 0) as [E | _]; [contradiction |].
  apply getAddrBlockLinear_exact. exact Hs.
Qed.

Lemma tiled_source_offset_is_gob_address_witness :
  (block_height <- shl_one 4 ;; source_pos 1 0 64 16 block_height 5 9)
  = Ok (gob_address_spec 5 9 64 16 4)
  /\ gob_address_spec 5 9 64 16 4 = 8752.
Proof.
  split.
  - apply tiled_source_offset_is_gob_address; lia.
  - reflexivity.
Defined.

(** Beyond that bound the divisor wraps to zero (or the shift itself is
    out of range) and the address computation is undefined. *)
Lemma getAddrBlockLinear_zero_divisor (x y w bpp base bh : Z) :
  mul32 8 bh = 0 ->
  getAddrBlockLinear x y w bpp base bh = Fault DivByZero.
Proof.
  intros E. unfold getAddrBlockLinear.
  unfold mul32 at 1. rewrite DIV_ROUND_UP_64. cbn [bind].
  rewrite E. reflexivity.
Qed.

Lemma tiled_source_offset_undefined (pitch gridW bpp size_range x y : Z) :
  29 <= size_range ->
  exists e,
    (block_height <- shl_one size_range ;;
     source_pos 1 pitch gridW bpp block_height x y) = Fault e.
Proof.
  intros Hs. unfold shl_one.
  destruct (Z.ltb_spec size_range 32) as [Hlt | Hge].
  - exists DivByZero.
    assert (Hc : size_range = 29 \/ size_range = 30 \/ size_range = 31) by lia.
    cbn [bind]. unfold source_pos. change (1 =? 0) with false. cbv iota.
    apply getAddrBlockLinear_zero_divisor.
    destruct Hc as [-> | [-> | ->]]; reflexivity.
  - exists ShiftOutOfRange. reflexivity.
Qed.

(** ** Deswizzling a short payload *)

(** C1: [deswizzle] guards the copy of a block by comparing the source
    offset with the size of the output and the destination offset with the
    size of the payload.  For a 1x2 RGBA8 linear texture whose payload
    holds just its eight texel bytes, block [(0, 1)] passes both tests
    ([32 + 4 <= 512] and [4 + 4 <= 8]) and the copy then reads payload
    bytes [32..36), outside the 8-byte vector.  The same happens in
    block-linear mode: for a 12x4 BC3 texture cut to 48 bytes, block
    [(2, 0)] passes ([256 + 16 <= 512] and [32 + 16 <= 48]) and the copy
    reads payload bytes [256..272). *)
Theorem deswizzle_short_payload_reads_out_of_bounds :
  deswizzle 1 2 1 1 4 0 512 0 payload8 = Fault OobRead
  /\ (forall can_create,
        save_texture can_create "out" tex_rgba_1x2 = Fault OobRead)
  /\ deswizzle 12 4 4 4 16 1 512 0 payload48 = Fault OobRead.
Proof. repeat split; intros; vm_compute; reflexivity. Qed.

(** ** The DDS header *)

Lemma generateDDSHeader_fourcc (width height format size : Z) :
  slice (generateDDSHeader width height format size) 84 4
  = fourcc_expected format.
Proof.
  unfold generateDDSHeader, fourcc_expected, fourcc_of, fourcc_table, lookup,
    store32, le32.
  generalize byte_of_Z. intros enc.
  repeat match goal with
         | |- context [format =? ?c] => destruct (format =? c)
         end; reflexivity.
Qed.

Lemma generateDDSHeader_length (width height format size : Z) :
  len (generateDDSHeader width height format size) = 128.
Proof.
  unfold generateDDSHeader, fourcc_of, store32, le32.
  generalize byte_of_Z. intros enc.
  repeat match goal with
         | |- context [format =? ?c] => destruct (format =? c)
         end; reflexivity.
Qed.

(** C9: for a 256x256 texture of format code [0x1c] and linear size 65536
    the synthesized header has 128 bytes, starts with "DDS ", holds 124 at
    offset 4, 256 at offsets 12 and 16, 65536 at offset 20 and "DXT5" at
    bytes [84,88); for every format code bytes [84,88) are the entry of
    the FourCC table, and zero when the table has no entry. *)
Theorem dds_header_roundtrip :
  (let h := generateDDSHeader 256 256 0x1c 65536 in
   len h = 128
   /\ slice h 0 4 = list_byte_of_string "DDS "
   /\ header_u32 h 4 = 124
   /\ header_u32 h 12 = 256
   /\ header_u32 h 16 = 256
   /\ header_u32 h 20 = 65536
   /\ slice h 84 4 = list_byte_of_string "DXT5")
  /\ (forall width height format size,
        len (generateDDSHeader width height format size) = 128
        /\ slice (generateDDSHeader width height format size) 84 4
           = fourcc_expected format).
Proof.
  split.
  - vm_compute. repeat split; reflexivity.
  - intros. split.
    + apply generateDDSHeader_length.
    + apply generateDDSHeader_fourcc.
Qed.

(** ** Loops and block copies *)

Lemma bind_Ok {A B : Type} (m : result A) (k : A -> result B) (b : B) :
  bind m k = Ok b -> exists a, m = Ok a /\ k a = Ok b.
Proof.
  destruct m as [a | e]; cbn; intros H.
  - exists a. split; [reflexivity | exact H].
  - discriminate.
Qed.

(** Invariants of a counted loop: [Q i] holds before iteration [i]. *)
Lemma for_range_invariant {S : Type} (Q : Z -> S -> Prop)
      (body : Z -> S -> result S) :
  forall (n : nat) (i : Z) (s s' : S),
    (forall j t t', i <= j < i + Z.of_nat n ->
                    Q j t -> body j t = Ok t' -> Q (j + 1) t') ->
    Q i s ->
    for_range n i body s = Ok s' ->
    Q (i + Z.of_nat n) s'.
Proof.
  induction n as [| n IH]; intros i s s' Hstep Hs Hrun.
  - cbn in Hrun. injection Hrun as <-.
    replace (i + Z.of_nat 0) with i by lia. exact Hs.
  - cbn [for_range] in Hrun.
    apply bind_Ok in Hrun. destruct Hrun as (t & Hbody & Hrest).
    replace (i + Z.of_nat (Datatypes.S n)) with (i + 1 + Z.of_nat n) by lia.
    apply (IH (i + 1) t s').
    + intros j u u' Hj. apply Hstep. lia.
    + apply (Hstep i s t); [lia | exact Hs | exact Hbody].
    + exact Hrest.
Qed.

Lemma for_range_preserves {S : Type} (P : S -> Prop)
      (body : Z -> S -> result S) (n : nat) (i : Z) (s s' : S) :
  (forall j t t', i <= j < i + Z.of_nat n ->
                  P t -> body j t = Ok t' -> P t') ->
  P s ->
  for_range n i body s = Ok s' ->
  P s'.
Proof.
  intros Hstep Hs Hrun.
  exact (for_range_invariant (fun _ => P) body n i s s' Hstep Hs Hrun).
Qed.

(** The same for a loop whose body is shown to succeed. *)
Lemma for_range_total {S : Type} (Q : Z -> S -> Prop)
      (body : Z -> S -> result S) :
  forall (n : nat) (i : Z) (s : S),
    (forall j t, i <= j < i + Z.of_nat n ->
                 Q j t -> exists t', body j t = Ok t' /\ Q (j + 1) t') ->
    Q i s ->
    exists s', for_range n i body s = Ok s' /\ Q (i + Z.of_nat n) s'.
Proof.
  induction n as [| n IH]; intros i s Hstep Hs.
  - exists s. split; [reflexivity |].
    replace (i + Z.of_nat 0) with i by lia. exact Hs.
  - destruct (Hstep i s) as (t & Hbody & Ht); [lia | exact Hs |].
    destruct (IH (i + 1) t) as (s' & Hrun & Hs').
    + intros j u Hj. apply Hstep. lia.
    + exact Ht.
    + exists s'. split.
      * cbn [for_range]. rewrite Hbody. cbn [bind]. exact Hrun.
      * replace (i + Z.of_nat (Datatypes.S n)) with (i + 1 + Z.of_nat n) by lia.
        exact Hs'.
Qed.

Lemma len_nonneg {A : Type} (l : list A) : 0 <= len l.
Proof. unfold len. lia. Qed.

Lemma len_repeat (b : byte) (n : Z) : 0 <= n -> len (repeat b (Z.to_nat n)) = n.
Proof. intros H. unfold len. rewrite repeat_length. lia. Qed.

Lemma slice_length (l : list byte) (off n : Z) :
  0 <= off -> 0 <= n -> off + n <= len l ->
  List.length (slice l off n) = Z.to_nat n.
Proof.
  intros Ho Hn Hb. unfold slice, len in *.
  rewrite length_firstn, length_skipn. lia.
Qed.

Lemma memcpy_Ok (dst : list byte) (doff : Z) (src : list byte) (soff n : Z)
      (res : list byte) :
  memcpy dst doff src soff n = Ok res ->
  soff + n <= len src /\ doff + n <= len dst
  /\ res = firstn (Z.to_nat doff) dst ++ slice src soff n
             ++ skipn (Z.to_nat (doff + n)) dst.
Proof.
  unfold memcpy.
  destruct (Z.leb_spec (soff + n) (len src)) as [Hs | Hs]; [| discriminate].
  destruct (Z.leb_spec (doff + n) (len dst)) as [Hd | Hd]; [| discriminate].
  intros E. injection E as <-. auto.
Qed.

Lemma memcpy_in_bounds (dst : list byte) (doff : Z) (src : list byte)
      (soff n : Z) :
  soff + n <= len src -> doff + n <= len dst ->
  memcpy dst doff src soff n
  = Ok (firstn (Z.to_nat doff) dst ++ slice src soff n
          ++ skipn (Z.to_nat (doff + n)) dst).
Proof.
  intros Hs Hd. unfold memcpy.
  destruct (Z.leb_spec (soff + n) (len src)) as [_ | Hs']; [| lia].
  destruct (Z.leb_spec (doff + n) (len dst)) as [_ | Hd']; [| lia].
  reflexivity.
Qed.

Lemma memcpy_length (dst : list byte) (doff : Z) (src : list byte)
      (soff n : Z) (res : list byte) :
  0 <= doff -> 0 <= soff -> 0 <= n ->
  memcpy dst doff src soff n = Ok res -> len res = len dst.
Proof.
  intros Hd Hs Hn H. apply memcpy_Ok in H. destruct H as (Hb1 & Hb2 & ->).
  unfold len in *. rewrite !length_app, length_firstn, length_skipn.
  rewrite slice_length by (unfold len; lia). lia.
Qed.

(** A copy leaves every byte beyond its destination range untouched. *)
Lemma memcpy_nth_above (dst : list byte) (doff : Z) (src : list byte)
      (soff n : Z) (res : list byte) (k : nat) :
  0 <= doff -> 0 <= soff -> 0 <= n ->
  memcpy dst doff src soff n = Ok res ->
  doff + n <= Z.of_nat k ->
  nth k res x00 = nth k dst x00.
Proof.
  intros Hd Hs Hn H Hk. apply memcpy_Ok in H. destruct H as (Hb1 & Hb2 & ->).
  unfold len in *.
  assert (L1 : List.length (firstn (Z.to_nat doff) dst) = Z.to_nat doff)
    by (rewrite length_firstn; lia).
  assert (L2 : List.length (slice src soff n) = Z.to_nat n)
    by (apply slice_length; unfold len; lia).
  rewrite app_nth2 by lia. rewrite app_nth2 by lia.
  rewrite nth_skipn. f_equal. lia.
Qed.

(** ** Only the compact prefix of the output is written *)

Lemma source_pos_nonneg (tileMode pitch gw bpp bh x y pos : Z) :
  source_pos tileMode pitch gw bpp bh x y = Ok pos -> 0 <= pos.
Proof.
  unfold source_pos. destruct (tileMode =? 0); intros Hpos.
  - injection Hpos as <-. apply wrap32_range.
  - unfold getAddrBlockLinear in Hpos.
    apply bind_Ok in Hpos. destruct Hpos as (? & _ & Hpos).
    apply bind_Ok in Hpos. destruct Hpos as (? & _ & Hpos).
    apply bind_Ok in Hpos. destruct Hpos as (? & _ & Hpos).
    injection Hpos as <-. apply wrap32_range.
Qed.

Section ZeroTail.

(** A block grid whose compact size fits in 32 bits. *)
Variables gw gh bpp : Z.
Hypothesis Hbpp : 0 <= bpp.
Hypothesis Hfit : gw * gh * bpp < u32_mod.

Variables tileMode pitch surfSize bh : Z.
Variable payload : list byte.

Lemma dest_offset_in_prefix (x y : Z) :
  0 <= x < gw -> 0 <= y < gh ->
  let pos_ := mul32 (add32 (mul32 y gw) x) bpp in
  0 <= pos_ /\ pos_ + bpp <= gw * gh * bpp.
Proof.
  intros Hx Hy pos_. subst pos_.
  destruct (Z.eq_dec bpp 0) as [E | Hnz].
  - unfold mul32. rewrite E, Z.mul_0_r. cbn. lia.
  - assert (Hcell : y * gw + x + 1 <= gw * gh) by nia.
    assert (Hcellb : (y * gw + x + 1) * bpp <= gw * gh * bpp) by nia.
    assert (Hyg : 0 <= y * gw) by nia.
    assert (Hle : y * gw + x < (y * gw + x + 1) * bpp) by nia.
    unfold mul32, add32.
    rewrite (wrap32_small (y * gw)) by (unfold is_u32; nia).
    rewrite (wrap32_small (y * gw + x)) by (unfold is_u32; lia).
    rewrite (wrap32_small ((y * gw + x) * bpp)) by (unfold is_u32; nia).
    nia.
Qed.

Lemma deswizzle_block_zero_from (y x : Z) (res res' : list byte) :
  0 <= x < gw -> 0 <= y < gh ->
  zero_from (gw * gh * bpp) res ->
  deswizzle_block tileMode pitch surfSize gw bpp bh payload y x res
  = Ok res' ->
  zero_from (gw * gh * bpp) res'.
Proof.
  intros Hx Hy Hz Hrun. unfold deswizzle_block in Hrun.
  apply bind_Ok in Hrun. destruct Hrun as (pos & Hpos & Hrun).
  destruct (_ && _) in Hrun.
  - destruct (dest_offset_in_prefix x y Hx Hy) as [H0 H1].
    pose proof (source_pos_nonneg _ _ _ _ _ _ _ _ Hpos) as Hsrc.
    intros k Hk.
    rewrite (memcpy_nth_above _ _ _ _ _ _ k H0 Hsrc Hbpp Hrun) by lia.
    apply Hz. exact Hk.
  - injection Hrun as <-. exact Hz.
Qed.

Lemma deswizzle_loops_zero_from (res res' : list byte) :
  zero_from (gw * gh * bpp) res ->
  for_range (Z.to_nat gh) 0
    (deswizzle_row tileMode pitch surfSize gw bpp bh payload) res
  = Ok res' ->
  zero_from (gw * gh * bpp) res'.
Proof.
  intros Hz Hrun.
  eapply for_range_preserves with (P := zero_from (gw * gh * bpp));
    [| exact Hz | exact Hrun].
  intros y t t' Hy Ht Hrow. unfold deswizzle_row in Hrow.
  eapply for_range_preserves with (P := zero_from (gw * gh * bpp));
    [| exact Ht | exact Hrow].
  intros x u u' Hx Hu Hblk.
  apply (deswizzle_block_zero_from y x u u'); try assumption; lia.
Qed.

End ZeroTail.

(** C10: when the expected size [gridW * gridH * bytesPerBlock] fits in 32
    bits, every byte of the [deswizzle] output at an index at or beyond
    that size is zero, so the caller's truncation to the expected size
    drops zero bytes only. *)
Theorem deswizzle_output_zero_beyond_expected_size
        (width height blkWidth blkHeight bpp tileMode alignment size_range : Z)
        (data out : list byte) (gridW gridH : Z) :
  0 <= bpp ->
  DIV_ROUND_UP width blkWidth = Ok gridW ->
  DIV_ROUND_UP height blkHeight = Ok gridH ->
  gridW * gridH * bpp < u32_mod ->
  deswizzle width height blkWidth blkHeight bpp tileMode alignment size_range
            data = Ok out ->
  (forall i : Z, gridW * gridH * bpp <= i -> nth (Z.to_nat i) out x00 = x00)
  /\ skipn (Z.to_nat (gridW * gridH * bpp)) out
     = repeat x00 (List.length out - Z.to_nat (gridW * gridH * bpp)).
Proof.
  intros Hbpp Hgw Hgh Hfit Hrun.
  unfold deswizzle in Hrun.
  apply bind_Ok in Hrun. destruct Hrun as (bh & _ & Hrun).
  rewrite Hgw, Hgh in Hrun. cbn [bind] in Hrun.
  destruct (surface_layout gridW gridH bpp tileMode alignment bh)
    as [pitch surfSize].
  assert (Hz : zero_from (gridW * gridH * bpp) out).
  { apply (deswizzle_loops_zero_from gridW gridH bpp Hbpp Hfit
             tileMode pitch surfSize bh data
             (repeat x00 (Z.to_nat surfSize)) out);
      [| exact Hrun].
    intros k _. apply nth_repeat. }
  split.
  - intros i Hi. apply Hz.
    destruct (Z.le_gt_cases 0 i); [lia |].
    assert (gridW * gridH * bpp <= 0) by lia. lia.
  - apply (nth_ext _ _ x00 x00).
    + rewrite length_skipn, repeat_length. reflexivity.
    + intros n Hn. rewrite nth_skipn, nth_repeat. apply Hz. lia.
Qed.

Lemma deswizzle_output_zero_beyond_expected_size_witness :
  exists out,
    deswizzle 1 2 1 1 4 0 64 0 linear_1x2 = Ok out
    /\ (forall i : Z, 1 * 2 * 4 <= i -> nth (Z.to_nat i) out x00 = x00)
    /\ skipn (Z.to_nat (1 * 2 * 4)) out
       = repeat x00 (List.length out - Z.to_nat (1 * 2 * 4)).
Proof.
  eexists. split; [vm_compute; reflexivity |].
  apply (deswizzle_output_zero_beyond_expected_size
           1 2 1 1 4 0 64 0 linear_1x2 _ 1 2).
  - lia.
  - reflexivity.
  - reflexivity.
  - vm_compute. reflexivity.
  - vm_compute. reflexivity.
Defined.

(** ** The surface size *)

Lemma land_le_r (a b : Z) : 0 <= a -> 0 <= b -> Z.land a b <= b.
Proof.
  intros Ha Hb.
  rewrite <- (Z2N.id a Ha), <- (Z2N.id b Hb) at 1.
  rewrite <- N2Z.inj_land.
  rewrite <- (Z2N.id b Hb) at 2.
  apply N2Z.inj_le. apply N.land_le_r.
Qed.

Lemma lor_ge_l (a b : Z) : 0 <= a -> 0 <= b -> a <= Z.lor a b.
Proof.
  intros Ha Hb. pose proof (Z.add_lor_land a b).
  pose proof (land_le_r a b Ha Hb). lia.
Qed.

Lemma lor_ge_r (a b : Z) : 0 <= a -> 0 <= b -> b <= Z.lor a b.
Proof. intros Ha Hb. rewrite Z.lor_comm. apply lor_ge_l; assumption. Qed.

Lemma round_up_exact_zero (y : Z) : round_up_exact 0 y = 0.
Proof. unfold round_up_exact. cbn [Z.sub Z.add Z.opp]. rewrite Z.lor_m1_l. reflexivity. Qed.

Lemma round_up_exact_ge (x y : Z) :
  0 <= x -> 1 <= y -> x <= round_up_exact x y.
Proof.
  intros Hx Hy. destruct (Z.eq_dec x 0) as [-> | Hnz].
  - rewrite round_up_exact_zero. lia.
  - unfold round_up_exact.
    pose proof (lor_ge_l (x - 1) (y - 1)). lia.
Qed.

Lemma round_up_exact_ge_r (x y : Z) :
  1 <= x -> 1 <= y -> y <= round_up_exact x y.
Proof.
  intros Hx Hy. unfold round_up_exact.
  pose proof (lor_ge_r (x - 1) (y - 1)). lia.
Qed.

Lemma lor_all_ones (b : Z) : is_u32 b -> Z.lor 4294967295 b = 4294967295.
Proof.
  intros [Hlo Hhi]. rewrite Z.lor_comm.
  change 4294967295 with (Z.ones 32).
  apply Z.lor_ones_low; [exact Hlo |].
  destruct (Z.eq_dec b 0) as [-> | Hnz]; [reflexivity |].
  apply Z.log2_lt_pow2; [lia | exact Hhi].
Qed.

Lemma round_up_zero (y : Z) : round_up 0 y = 0.
Proof.
  unfold round_up, sub32.
  change (wrap32 (0 - 1)) with 4294967295.
  rewrite lor_all_ones by apply wrap32_range. reflexivity.
Qed.

Lemma round_up_no_wrap (x y : Z) :
  1 <= x -> 1 <= y -> round_up_exact x y < u32_mod ->
  round_up x y = round_up_exact x y.
Proof.
  intros Hx Hy Hfit.
  pose proof (round_up_exact_ge x y ltac:(lia) Hy) as Gx.
  pose proof (round_up_exact_ge_r x y Hx Hy) as Gy.
  unfold round_up, sub32, add32.
  rewrite (wrap32_small (x - 1)) by (unfold is_u32; lia).
  rewrite (wrap32_small (y - 1)) by (unfold is_u32; lia).
  apply wrap32_small. unfold is_u32, round_up_exact in *. lia.
Qed.

Lemma mul32_small (a b : Z) : 0 <= a * b < u32_mod -> mul32 a b = a * b.
Proof. intros H. unfold mul32. apply wrap32_small. exact H. Qed.

Lemma mul32_zero_l (b : Z) : mul32 0 b = 0.
Proof. reflexivity. Qed.

Lemma mul32_zero_r (a : Z) : mul32 a 0 = 0.
Proof. unfold mul32. rewrite Z.mul_0_r. reflexivity. Qed.

(** When the exact surface size fits in 32 bits, no step of the 32-bit
    computation wraps, or the wrapped factor is multiplied by zero. *)
Lemma surface_size_no_wrap (gw gh bpp tileMode al s : Z) :
  0 <= gw -> 0 <= gh -> 0 <= bpp -> 1 <= al -> 0 <= s ->
  surface_size_exact gw gh bpp tileMode al s < u32_mod ->
  snd (surface_layout gw gh bpp tileMode al (2 ^ s))
  = surface_size_exact gw gh bpp tileMode al s
  /\ gw * gh * bpp <= surface_size_exact gw gh bpp tileMode al s.
Proof.
  intros Hgw Hgh Hbpp Hal Hs Hfit.
  assert (HP : 0 <= gw * bpp) by nia.
  assert (Hpow : 0 < 2 ^ s) by (apply Z.pow_pos_nonneg; lia).
  unfold surface_size_exact, surface_layout in *.
  destruct (tileMode =? 0); cbn [snd].
  - (* linear *)
    set (pitchE := round_up_exact (gw * bpp) 32) in *.
    assert (Gp : gw * bpp <= pitchE) by (apply round_up_exact_ge; lia).
    assert (Gs : pitchE * gh <= round_up_exact (pitchE * gh) al)
      by (apply round_up_exact_ge; nia).
    split; [| nia].
    destruct (Z.eq_dec (gw * bpp) 0) as [E0 | Hne].
    { unfold pitchE.
      replace (mul32 gw bpp) with 0 by (unfold mul32; rewrite E0; reflexivity).
      rewrite E0.
      rewrite (round_up_zero 32), (round_up_exact_zero 32).
      rewrite mul32_zero_l, Z.mul_0_l.
      rewrite round_up_zero, round_up_exact_zero. reflexivity. }
    destruct (Z.eq_dec gh 0) as [-> | Hgne].
    { rewrite mul32_zero_r, Z.mul_0_r, round_up_zero, round_up_exact_zero.
      reflexivity. }
    assert (pitchE < u32_mod) by nia.
    replace (mul32 gw bpp) with (gw * bpp)
      by (rewrite mul32_small; [reflexivity | lia]).
    rewrite (round_up_no_wrap (gw * bpp) 32) by (fold pitchE; lia).
    fold pitchE. unfold mul32.
    rewrite (wrap32_small (pitchE * gh)) by (unfold is_u32; nia).
    apply round_up_no_wrap; [nia | lia | exact Hfit].
  - (* block linear *)
    set (pitchE := round_up_exact (gw * bpp) 64) in *.
    set (ghE := round_up_exact gh (2 ^ s * 8)) in *.
    assert (Gp : gw * bpp <= pitchE) by (apply round_up_exact_ge; lia).
    assert (Gh : gh <= ghE) by (apply round_up_exact_ge; lia).
    assert (Gs : pitchE * ghE <= round_up_exact (pitchE * ghE) al)
      by (apply round_up_exact_ge; nia).
    split; [| nia].
    destruct (Z.eq_dec (gw * bpp) 0) as [E0 | Hne].
    { unfold pitchE.
      replace (mul32 gw bpp) with 0 by (unfold mul32; rewrite E0; reflexivity).
      rewrite E0.
      rewrite (round_up_zero 64), (round_up_exact_zero 64).
      rewrite mul32_zero_l, Z.mul_0_l.
      rewrite round_up_zero, round_up_exact_zero. reflexivity. }
    destruct (Z.eq_dec gh 0) as [E0 | Hgne].
    { unfold ghE. rewrite E0.
      rewrite (round_up_zero (mul32 (2 ^ s) 8)).
      rewrite (round_up_exact_zero (2 ^ s * 8)).
      rewrite mul32_zero_r, Z.mul_0_r, round_up_zero, round_up_exact_zero.
      reflexivity. }
    assert (G8 : 2 ^ s * 8 <= ghE)
      by (apply round_up_exact_ge_r; lia).
    assert (pitchE < u32_mod) by nia.
    assert (ghE < u32_mod) by nia.
    replace (mul32 gw bpp) with (gw * bpp)
      by (rewrite mul32_small; [reflexivity | lia]).
    rewrite (round_up_no_wrap (gw * bpp) 64) by (fold pitchE; lia).
    fold pitchE.
    replace (mul32 (2 ^ s) 8) with (2 ^ s * 8)
      by (rewrite mul32_small; [reflexivity | lia]).
    rewrite (round_up_no_wrap gh (2 ^ s * 8)) by (fold ghE; lia).
    fold ghE. unfold mul32.
    rewrite (wrap32_small (pitchE * ghE)) by (unfold is_u32; nia).
    apply round_up_no_wrap; [nia | lia | exact Hfit].
Qed.

Lemma DIV_ROUND_UP_range (n d q : Z) :
  0 <= d -> DIV_ROUND_UP n d = Ok q -> is_u32 q.
Proof.
  intros Hd. unfold DIV_ROUND_UP, div32.
  destruct (Z.eqb_spec d 0) as [| Hnz]; [discriminate |].
  intros H. injection H as <-.
  pose proof (wrap32_range (add32 n d - 1)) as [Hlo Hhi].
  unfold sub32. split.
  - apply Z.div_pos; lia.
  - apply Z.le_lt_trans with (m := wrap32 (add32 n d - 1)); [| exact Hhi].
    apply Z.div_le_upper_bound; [lia |]. nia.
Qed.

Lemma deswizzle_block_length
      (tileMode pitch surfSize gw bpp bh : Z) (data : list byte)
      (y x : Z) (res res' : list byte) :
  0 <= bpp ->
  deswizzle_block tileMode pitch surfSize gw bpp bh data y x res = Ok res' ->
  len res' = len res.
Proof.
  intros Hbpp Hrun. unfold deswizzle_block in Hrun.
  apply bind_Ok in Hrun. destruct Hrun as (pos & Hpos & Hrun).
  destruct (_ && _) in Hrun.
  - apply (memcpy_length _ _ _ _ _ _) in Hrun; try assumption.
    + apply wrap32_range.
    + apply (source_pos_nonneg _ _ _ _ _ _ _ _ Hpos).
  - injection Hrun as <-. reflexivity.
Qed.

Lemma round_up_nonneg (x y : Z) : 0 <= round_up x y.
Proof. unfold round_up. apply wrap32_range. Qed.

(** The vector [deswizzle] returns has the size it was allocated with. *)
Lemma deswizzle_length
      (width height blkWidth blkHeight bpp tileMode alignment size_range : Z)
      (data out : list byte) :
  0 <= bpp ->
  deswizzle width height blkWidth blkHeight bpp tileMode alignment size_range
            data = Ok out ->
  deswizzle_surfSize width height blkWidth blkHeight bpp tileMode alignment
                     size_range = Ok (len out).
Proof.
  intros Hbpp Hrun. unfold deswizzle in Hrun. unfold deswizzle_surfSize.
  apply bind_Ok in Hrun. destruct Hrun as (bh & -> & Hrun).
  apply bind_Ok in Hrun. destruct Hrun as (gw & -> & Hrun).
  apply bind_Ok in Hrun. destruct Hrun as (gh & -> & Hrun).
  cbn [bind]. f_equal.
  assert (Hsurf : 0 <= snd (surface_layout gw gh bpp tileMode alignment bh)).
  { unfold surface_layout. destruct (tileMode =? 0); apply round_up_nonneg. }
  destruct (surface_layout gw gh bpp tileMode alignment bh)
    as [pitch surfSize]. cbn [snd] in *.
  rewrite <- (len_repeat x00 surfSize Hsurf). symmetry.
  eapply for_range_preserves
    with (P := fun r => len r = len (repeat x00 (Z.to_nat surfSize)));
    [| reflexivity | exact Hrun].
  intros y t t' _ Ht Hrow. unfold deswizzle_row in Hrow.
  eapply for_range_preserves
    with (P := fun r => len r = len (repeat x00 (Z.to_nat surfSize)));
    [| exact Ht | exact Hrow].
  intros x u u' _ Hu Hblk.
  rewrite (deswizzle_block_length _ _ _ _ _ _ _ _ _ _ _ Hbpp Hblk). exact Hu.
Qed.

(** C8 (as the code has it): for a nonzero alignment, a block height
    exponent below 32 and a surface size that fits in 32 bits when computed
    without wrap-around, the surface [deswizzle] allocates is at least
    [gridW * gridH * bytesPerBlock] bytes, in either tile mode. *)
Theorem surface_size_covers_expected_size
        (width height blkWidth blkHeight bpp tileMode alignment size_range : Z)
        (gridW gridH : Z) :
  0 <= blkWidth -> 0 <= blkHeight -> 0 <= bpp ->
  0 <= size_range < 32 ->
  1 <= alignment ->
  DIV_ROUND_UP width blkWidth = Ok gridW ->
  DIV_ROUND_UP height blkHeight = Ok gridH ->
  surface_size_exact gridW gridH bpp tileMode alignment size_range < u32_mod ->
  exists surfSize,
    deswizzle_surfSize width height blkWidth blkHeight bpp tileMode alignment
                       size_range = Ok surfSize
    /\ gridW * gridH * bpp <= surfSize
    /\ (forall data out,
          deswizzle width height blkWidth blkHeight bpp tileMode alignment
                    size_range data = Ok out ->
          len out = surfSize).
Proof.
  intros Hbw Hbh Hbpp Hs Hal Hgw Hgh Hfit.
  destruct (DIV_ROUND_UP_range _ _ _ Hbw Hgw) as [Hgw0 _].
  destruct (DIV_ROUND_UP_range _ _ _ Hbh Hgh) as [Hgh0 _].
  destruct (surface_size_no_wrap gridW gridH bpp tileMode alignment size_range
              Hgw0 Hgh0 Hbpp Hal (proj1 Hs) Hfit) as [Heq Hge].
  assert (Hsz : deswizzle_surfSize width height blkWidth blkHeight bpp tileMode
                  alignment size_range
                = Ok (surface_size_exact gridW gridH bpp tileMode alignment
                        size_range)).
  { unfold deswizzle_surfSize. rewrite shl_one_small by exact Hs.
    cbn [bind]. rewrite Hgw, Hgh. cbn [bind]. rewrite Heq. reflexivity. }
  exists (surface_size_exact gridW gridH bpp tileMode alignment size_range).
  split; [exact Hsz |]. split; [exact Hge |].
  intros data out Hrun.
  apply deswizzle_length in Hrun; [| exact Hbpp].
  rewrite Hsz in Hrun. injection Hrun as ->. reflexivity.
Qed.

Lemma surface_size_covers_expected_size_witness :
  exists surfSize,
    deswizzle_surfSize 256 256 4 4 16 1 512 4 = Ok surfSize
    /\ 64 * 64 * 16 <= surfSize
    /\ (forall data out,
          deswizzle 256 256 4 4 16 1 512 4 data = Ok out ->
          len out = surfSize).
Proof.
  apply (surface_size_covers_expected_size 256 256 4 4 16 1 512 4 64 64);
    try lia; try reflexivity.
Defined.

(** C8 as stated fails.  For the alignment value 0 the rounding trick
    yields a surface of zero bytes for a 1x2 RGBA8 texture whose expected
    size is eight bytes.  For the usual alignment 512, a block-linear BC3
    texture of 4 x (2^28 + 32) pixels has a grid of 1 x (2^26 + 8) blocks:
    [64 * (2^26 + 8)] wraps to 512, far below the expected
    [16 * (2^26 + 8)] bytes. *)
Lemma surface_size_below_expected_size :
  (deswizzle_surfSize 1 2 1 1 4 0 0 0 = Ok 0
   /\ deswizzle 1 2 1 1 4 0 0 0 linear_1x2 = Ok []
   /\ DIV_ROUND_UP 1 1 = Ok 1 /\ DIV_ROUND_UP 2 1 = Ok 2
   /\ ~ (1 * 2 * 4 <= 0))
  /\ (deswizzle_surfSize 4 268435488 4 4 16 1 512 0 = Ok 512
      /\ DIV_ROUND_UP 4 4 = Ok 1 /\ DIV_ROUND_UP 268435488 4 = Ok 67108872
      /\ ~ (1 * 67108872 * 16 <= 512)).
Proof. repeat split; try (vm_compute; reflexivity); lia. Qed.

(** For a power-of-two granule the rounding trick is rounding up to a
    multiple: [round_up_exact x 32] is the row pitch [32 * ceil (x / 32)]. *)
Lemma round_up_exact_pow2 (x n : Z) :
  0 <= n ->
  round_up_exact x (2 ^ n) = 2 ^ n * ceil_div x (2 ^ n).
Proof.
  intros Hn. unfold round_up_exact, ceil_div.
  assert (Hp : 0 < 2 ^ n) by (apply Z.pow_pos_nonneg; lia).
  replace (2 ^ n - 1) with (Z.ones n) by (rewrite Z.ones_equiv; lia).
  pose proof (Z.add_lor_land (x - 1) (Z.ones n)) as H.
  rewrite Z.land_ones in H by exact Hn.
  rewrite Z.ones_equiv in H.
  replace (x + 2 ^ n - 1) with (x - 1 + 1 * 2 ^ n) by ring.
  rewrite Z.div_add by lia.
  pose proof (Z.div_mod (x - 1) (2 ^ n) ltac:(lia)) as D.
  rewrite Z.ones_equiv. lia.
Qed.

(** ** Linear mode: removing the row padding *)

Lemma slice_app_l (A B : list byte) (off n : Z) :
  0 <= off -> 0 <= n -> off + n <= len A ->
  slice (A ++ B) off n = slice A off n.
Proof.
  intros Ho Hn Hb. unfold slice, len in *.
  rewrite skipn_app.
  replace (Z.to_nat off - List.length A)%nat with 0%nat by lia.
  cbn [skipn]. rewrite firstn_app.
  replace (Z.to_nat n - List.length (skipn (Z.to_nat off) A))%nat with 0%nat
    by (rewrite length_skipn; lia).
  cbn [firstn]. apply app_nil_r.
Qed.

Lemma slice_app_r (A B : list byte) (off n : Z) :
  0 <= off ->
  slice (A ++ B) (len A + off) n = slice B off n.
Proof.
  intros Ho. unfold slice, len.
  rewrite skipn_app.
  rewrite skipn_all2 by lia. cbn [app].
  f_equal. f_equal. lia.
Qed.

Lemma slice_firstn (m : Z) (l : list byte) (off n : Z) :
  0 <= off -> 0 <= n -> off + n <= m ->
  slice (firstn (Z.to_nat m) l) off n = slice l off n.
Proof.
  intros Ho Hn Hb. unfold slice.
  rewrite skipn_firstn_comm, firstn_firstn. f_equal. lia.
Qed.

Lemma slice_skipn (p : Z) (l : list byte) (off n : Z) :
  0 <= p -> 0 <= off ->
  slice (skipn (Z.to_nat p) l) off n = slice l (p + off) n.
Proof.
  intros Hp Ho. unfold slice. rewrite skipn_skipn. f_equal. f_equal. lia.
Qed.

Lemma firstn_add_slice (l : list byte) (k n : Z) :
  0 <= k -> 0 <= n ->
  firstn (Z.to_nat (k + n)) l = firstn (Z.to_nat k) l ++ slice l k n.
Proof.
  intros Hk Hn. unfold slice.
  rewrite Z2Nat.inj_add by assumption.
  generalize (Z.to_nat k) as a. generalize (Z.to_nat n) as b. clear.
  intros b a. revert l. induction a as [| a IH]; intros l.
  - reflexivity.
  - destruct l as [| h t].
    + cbn. rewrite firstn_nil. reflexivity.
    + cbn. f_equal. apply IH.
Qed.

Lemma firstn_after_copy (res sl : list byte) (k n : Z) :
  0 <= k -> 0 <= n -> k + n <= len res -> List.length sl = Z.to_nat n ->
  firstn (Z.to_nat (k + n))
         (firstn (Z.to_nat k) res ++ sl ++ skipn (Z.to_nat (k + n)) res)
  = firstn (Z.to_nat k) res ++ sl.
Proof.
  intros Hk Hn Hb Hsl. unfold len in *.
  rewrite app_assoc. rewrite firstn_app.
  assert (L : List.length (firstn (Z.to_nat k) res ++ sl) = Z.to_nat (k + n)).
  { rewrite length_app, length_firstn. lia. }
  rewrite L. rewrite Nat.sub_diag. cbn [firstn]. rewrite app_nil_r.
  apply firstn_all2. lia.
Qed.

Lemma depad_length (rb pitch : Z) :
  0 <= rb <= pitch ->
  forall (rows : nat) (buf : list byte),
    (Z.of_nat rows - 1) * pitch + rb <= len buf \/ rows = O ->
    len (depad rb pitch rows buf) = Z.of_nat rows * rb.
Proof.
  intros Hrb. induction rows as [| r IH]; intros buf Hlen.
  - reflexivity.
  - destruct Hlen as [Hlen | Hz]; [| discriminate].
    cbn [depad]. unfold len in *. rewrite length_app, length_firstn.
    rewrite Nat2Z.inj_add.
    fold (len (depad rb pitch r (skipn (Z.to_nat pitch) buf))).
    unfold len. rewrite IH.
    + nia.
    + destruct r as [| r']; [right; reflexivity | left].
      rewrite length_skipn. nia.
Qed.

Lemma depad_slice (rb pitch : Z) :
  0 <= rb <= pitch ->
  forall (y rows : nat) (buf : list byte) (o n : Z),
    (y < rows)%nat -> 0 <= o -> 0 <= n -> o + n <= rb ->
    (Z.of_nat rows - 1) * pitch + rb <= len buf ->
    slice (depad rb pitch rows buf) (Z.of_nat y * rb + o) n
    = slice buf (Z.of_nat y * pitch + o) n.
Proof.
  intros Hrb. induction y as [| y IH]; intros rows buf o n Hy Ho Hn Hon Hlen.
  - destruct rows as [| r]; [lia |]. cbn [depad].
    assert (Hfl : len (firstn (Z.to_nat rb) buf) = rb).
    { unfold len in *. rewrite length_firstn. nia. }
    rewrite slice_app_l by lia.
    cbn [Z.of_nat Z.mul Z.add]. apply slice_firstn; lia.
  - destruct rows as [| r]; [lia |]. cbn [depad].
    assert (Hr : (1 <= r)%nat) by lia.
    assert (Hfl : len (firstn (Z.to_nat rb) buf) = rb).
    { unfold len in *. rewrite length_firstn. nia. }
    replace (Z.of_nat (S y) * rb + o)
      with (len (firstn (Z.to_nat rb) buf) + (Z.of_nat y * rb + o))
      by (rewrite Hfl; lia).
    rewrite slice_app_r by nia.
    rewrite IH; try lia.
    + rewrite slice_skipn by nia. f_equal. lia.
    + unfold len in *. rewrite length_skipn. nia.
Qed.

(** Without wrap-around, the linear layout is the exact one. *)
Lemma linear_layout_no_wrap (gw gh bpp al bh : Z) :
  0 < gw -> 0 < gh -> 0 < bpp -> 1 <= al ->
  round_up_exact (round_up_exact (gw * bpp) 32 * gh) al < u32_mod ->
  surface_layout gw gh bpp 0 al bh
  = (round_up_exact (gw * bpp) 32,
     round_up_exact (round_up_exact (gw * bpp) 32 * gh) al)
  /\ gw * bpp <= round_up_exact (gw * bpp) 32
  /\ round_up_exact (gw * bpp) 32 * gh
     <= round_up_exact (round_up_exact (gw * bpp) 32 * gh) al.
Proof.
  intros Hgw Hgh Hbpp Hal Hfit.
  set (pitchE := round_up_exact (gw * bpp) 32) in *.
  assert (HP : 1 <= gw * bpp) by nia.
  assert (Gp : gw * bpp <= pitchE) by (apply round_up_exact_ge; lia).
  assert (Gs : pitchE * gh <= round_up_exact (pitchE * gh) al)
    by (apply round_up_exact_ge; nia).
  split; [| split; assumption].
  unfold surface_layout. cbn [Z.eqb].
  assert (pitchE < u32_mod) by nia.
  replace (mul32 gw bpp) with (gw * bpp)
    by (rewrite mul32_small; [reflexivity | lia]).
  rewrite (round_up_no_wrap (gw * bpp) 32) by (fold pitchE; lia).
  fold pitchE. f_equal. unfold mul32.
  rewrite (wrap32_small (pitchE * gh)) by (unfold is_u32; nia).
  apply round_up_no_wrap; [nia | lia | exact Hfit].
Qed.

Lemma linear_block_step (gw gh bpp pitch surf bh : Z)
      (buf D res : list byte) (x y : Z) :
  0 < bpp -> 0 <= x < gw -> 0 <= y < gh ->
  gw * bpp <= pitch -> pitch * gh <= surf -> surf < u32_mod ->
  (gh - 1) * pitch + gw * bpp <= len buf ->
  slice D (y * (gw * bpp) + x * bpp) bpp = slice buf (y * pitch + x * bpp) bpp ->
  len res = surf ->
  firstn (Z.to_nat (y * (gw * bpp) + x * bpp)) res
  = firstn (Z.to_nat (y * (gw * bpp) + x * bpp)) D ->
  exists res',
    deswizzle_block 0 pitch surf gw bpp bh buf y x res = Ok res'
    /\ len res' = surf
    /\ firstn (Z.to_nat (y * (gw * bpp) + (x + 1) * bpp)) res'
       = firstn (Z.to_nat (y * (gw * bpp) + (x + 1) * bpp)) D.
Proof.
  intros Hbpp Hx Hy Hpitch Hsurf Hfit Hbuf Hsl Hlen Hpre.
  assert (Hrb0 : 0 < gw * bpp) by nia.
  assert (Hp0 : 0 < pitch) by lia.
  assert (Hy1 : 0 <= y * pitch <= (gh - 1) * pitch) by nia.
  assert (Hx1 : 0 <= x * bpp /\ x * bpp + bpp <= gw * bpp) by nia.
  assert (Hyg : 0 <= y * gw <= (gh - 1) * gw) by nia.
  assert (Hk : (y * gw + x) * bpp = y * (gw * bpp) + x * bpp) by ring.
  assert (Hk1 : 0 <= y * (gw * bpp) <= y * pitch) by nia.
  assert (Hrows : (gh - 1) * pitch + pitch <= surf) by nia.
  unfold deswizzle_block, source_pos. cbn [Z.eqb bind].
  unfold add32, mul32.
  rewrite (wrap32_small (y * pitch)) by (unfold is_u32; lia).
  rewrite (wrap32_small (x * bpp)) by (unfold is_u32; lia).
  rewrite (wrap32_small (y * pitch + x * bpp)) by (unfold is_u32; lia).
  rewrite (wrap32_small (y * gw)) by (unfold is_u32; nia).
  rewrite (wrap32_small (y * gw + x)) by (unfold is_u32; nia).
  rewrite Hk.
  rewrite (wrap32_small (y * (gw * bpp) + x * bpp)) by (unfold is_u32; lia).
  rewrite (wrap32_small (y * pitch + x * bpp + bpp)) by (unfold is_u32; lia).
  rewrite (wrap32_small (y * (gw * bpp) + x * bpp + bpp))
    by (unfold is_u32; lia).
  destruct (Z.leb_spec (y * pitch + x * bpp + bpp) surf) as [_ | Hbad];
    [| lia].
  destruct (Z.leb_spec (y * (gw * bpp) + x * bpp + bpp) (len buf))
    as [_ | Hbad]; [| lia].
  cbn [andb].
  rewrite memcpy_in_bounds by lia.
  eexists. split; [reflexivity |].
  assert (Hslen : List.length (slice buf (y * pitch + x * bpp) bpp)
                  = Z.to_nat bpp) by (apply slice_length; lia).
  split.
  - unfold len in *.
    rewrite !length_app, length_firstn, length_skipn, Hslen. lia.
  - replace (y * (gw * bpp) + (x + 1) * bpp)
      with (y * (gw * bpp) + x * bpp + bpp) by ring.
    rewrite firstn_after_copy by lia.
    rewrite (firstn_add_slice D) by lia.
    rewrite Hpre, Hsl. reflexivity.
Qed.

(** C3 (as the code has it): in linear mode, for a nonzero alignment and a
    surface size that fits in 32 bits, and a payload that holds [gridH]
    rows [pitch] bytes apart, [deswizzle] succeeds and the first
    [gridW * gridH * bytesPerBlock] bytes of its output are the payload
    with the padding of every row deleted, rows in order. *)
Theorem linear_deswizzle_removes_row_padding
        (width height blkWidth blkHeight bpp alignment size_range : Z)
        (payload : list byte) (gridW gridH : Z) :
  0 <= size_range < 32 ->
  1 <= alignment ->
  DIV_ROUND_UP width blkWidth = Ok gridW ->
  DIV_ROUND_UP height blkHeight = Ok gridH ->
  0 < gridW -> 0 < gridH -> 0 < bpp ->
  surface_size_exact gridW gridH bpp 0 alignment size_range < u32_mod ->
  (gridH - 1) * round_up_exact (gridW * bpp) 32 + gridW * bpp <= len payload ->
  exists out,
    deswizzle width height blkWidth blkHeight bpp 0 alignment size_range
              payload = Ok out
    /\ firstn (Z.to_nat (gridW * gridH * bpp)) out
       = depad (gridW * bpp) (round_up_exact (gridW * bpp) 32)
               (Z.to_nat gridH) payload.
Proof.
  intros Hs Hal Hgw Hgh Hgw0 Hgh0 Hbpp Hfit Hbuf.
  unfold surface_size_exact in Hfit. cbn [Z.eqb] in Hfit.
  destruct (linear_layout_no_wrap gridW gridH bpp alignment (2 ^ size_range)
              Hgw0 Hgh0 Hbpp Hal Hfit) as (Hlay & Hpitch & Hsurf).
  set (pitch := round_up_exact (gridW * bpp) 32) in *.
  set (surf := round_up_exact (pitch * gridH) alignment) in *.
  set (rb := gridW * bpp) in *.
  set (D := depad rb pitch (Z.to_nat gridH) payload).
  assert (Hrb : 0 <= rb <= pitch) by (unfold rb in *; nia).
  assert (HD : len D = gridH * rb).
  { unfold D. rewrite depad_length; [lia | exact Hrb | left; lia]. }
  unfold deswizzle. rewrite shl_one_small by exact Hs.
  cbn [bind]. rewrite Hgw, Hgh. cbn [bind]. rewrite Hlay.
  destruct (for_range_total
              (fun y res =>
                 len res = surf
                 /\ firstn (Z.to_nat (y * rb)) res = firstn (Z.to_nat (y * rb)) D)
              (deswizzle_row 0 pitch surf gridW bpp (2 ^ size_range) payload)
              (Z.to_nat gridH) 0 (repeat x00 (Z.to_nat surf)))
    as (out & Hrun & Hlen & Hout).
  - intros y res Hy [Hlen Hpre]. unfold deswizzle_row.
    destruct (for_range_total
                (fun x r =>
                   len r = surf
                   /\ firstn (Z.to_nat (y * rb + x * bpp)) r
                      = firstn (Z.to_nat (y * rb + x * bpp)) D)
                (deswizzle_block 0 pitch surf gridW bpp (2 ^ size_range)
                                 payload y)
                (Z.to_nat gridW) 0 res)
      as (res' & Hrow & Hlen' & Hpre').
    + intros x r Hx [Hl Hp].
      apply (linear_block_step gridW gridH bpp pitch surf (2 ^ size_range)
               payload D r x y); try assumption; try lia.
      unfold D. rewrite <- (Z2Nat.id y) at 1 2 by lia.
      apply depad_slice; try lia; unfold rb in *; nia.
    + split; [exact Hlen |].
      replace (y * rb + 0 * bpp) with (y * rb) by ring. exact Hpre.
    + exists res'. split; [exact Hrow |]. split; [exact Hlen' |].
      replace ((y + 1) * rb) with (y * rb + (0 + Z.of_nat (Z.to_nat gridW)) * bpp)
        by (unfold rb; rewrite Z2Nat.id by lia; ring).
      exact Hpre'.
  - split.
    + apply len_repeat. unfold surf. nia.
    + reflexivity.
  - exists out. split; [exact Hrun |].
    replace (gridW * gridH * bpp) with ((0 + Z.of_nat (Z.to_nat gridH)) * rb)
      by (unfold rb; rewrite Z2Nat.id by lia; ring).
    rewrite Hout. apply firstn_all2.
    unfold len in HD. rewrite Z2Nat.id by lia. lia.
Qed.

Lemma linear_deswizzle_removes_row_padding_witness :
  exists out,
    deswizzle 1 2 1 1 4 0 64 0 linear_1x2 = Ok out
    /\ firstn (Z.to_nat (1 * 2 * 4)) out
       = depad (1 * 4) (round_up_exact (1 * 4) 32) (Z.to_nat 2) linear_1x2.
Proof.
  apply (linear_deswizzle_removes_row_padding 1 2 1 1 4 64 0 linear_1x2 1 2);
    try lia; try reflexivity.
  vm_compute. discriminate.
Defined.

(** C3 as stated fails.  With the alignment value 0 the surface is empty,
    no block is copied, and the output holds none of the eight payload
    bytes that remain after the row padding is deleted.  With the
    alignment 64 the output is the whole 64-byte surface: those eight
    bytes followed by zeros, not the eight bytes alone. *)
Lemma linear_deswizzle_output_is_not_depadded_payload :
  round_up 4 32 = 32
  /\ depad 4 32 2 linear_1x2 = payload8
  /\ deswizzle 1 2 1 1 4 0 0 0 linear_1x2 = Ok []
  /\ deswizzle 1 2 1 1 4 0 0 0 linear_1x2 <> Ok (depad 4 32 2 linear_1x2)
  /\ deswizzle 1 2 1 1 4 0 64 0 linear_1x2 = Ok (payload8 ++ repeat x00 56)
  /\ deswizzle 1 2 1 1 4 0 64 0 linear_1x2 <> Ok (depad 4 32 2 linear_1x2).
Proof.
  repeat split; try (vm_compute; reflexivity); vm_compute; discriminate.
Qed.

(** ** The raw readers *)

Lemma Ok_inj {A : Type} (a b : A) : Ok a = Ok b -> a = b.
Proof. intros H. congruence. Qed.

Lemma byte_val_range (b : byte) : 0 <= byte_val b < 256.
Proof.
  unfold byte_val. pose proof (Byte.to_N_bounded b). lia.
Qed.

Lemma le_value_range (bs : list byte) :
  0 <= le_value bs < 256 ^ len bs.
Proof.
  induction bs as [| b r IH].
  - cbn. lia.
  - cbn [le_value]. unfold len in *. cbn [List.length].
    rewrite Nat2Z.inj_succ, Z.pow_succ_r by lia.
    pose proof (byte_val_range b). lia.
Qed.

Lemma slice_cons (f : list byte) (off n : Z) :
  0 <= off < len f -> 0 <= n ->
  slice f off (n + 1)
  = nth (Z.to_nat off) f x00 :: slice f (off + 1) n.
Proof.
  intros Ho Hn. unfold slice, len in *.
  replace (Z.to_nat (n + 1)) with (S (Z.to_nat n)) by lia.
  replace (Z.to_nat (off + 1)) with (S (Z.to_nat off)) by lia.
  assert (Hlt : (Z.to_nat off < List.length f)%nat) by lia.
  revert Hlt. generalize (Z.to_nat off) as k. clear. intros k.
  revert f. induction k as [| k IH]; intros f Hlt.
  - destruct f as [| h t]; [cbn in Hlt; lia | reflexivity].
  - destruct f as [| h t]; [cbn in Hlt; lia |].
    cbn [skipn nth]. apply IH. cbn in Hlt. lia.
Qed.

Lemma slice_uncons (f : list byte) (off n : Z) :
  0 <= off < len f -> 1 <= n ->
  slice f off n = nth (Z.to_nat off) f x00 :: slice f (off + 1) (n - 1).
Proof.
  intros Ho Hn. replace n with (n - 1 + 1) at 1 by ring.
  apply slice_cons; lia.
Qed.

Lemma byte_at_Ok (f : list byte) (i b : Z) :
  byte_at f i = Ok b ->
  0 <= i < len f /\ b = byte_val (nth (Z.to_nat i) f x00).
Proof.
  unfold byte_at.
  destruct (Z.leb_spec 0 i) as [Hlo | Hlo]; [| discriminate].
  destruct (Z.ltb_spec i (len f)) as [Hhi | Hhi]; [| discriminate].
  cbn [andb]. intros H. injection H as <-. split; [lia | reflexivity].
Qed.

Lemma read_bytes_Ok (f : list byte) (off n : Z) (bs : list byte) :
  read_bytes f off n = Ok bs ->
  0 <= off /\ off + n <= len f /\ bs = slice f off n.
Proof.
  unfold read_bytes.
  destruct (Z.leb_spec 0 off) as [Hlo | Hlo]; [| discriminate].
  destruct (Z.leb_spec (off + n) (len f)) as [Hhi | Hhi]; [| discriminate].
  cbn [andb]. intros H. injection H as <-. auto.
Qed.

Lemma land_shiftl_low (a b n : Z) :
  0 <= a < 2 ^ n -> 0 <= n -> Z.land a (Z.shiftl b n) = 0.
Proof.
  intros Ha Hn. apply Z.bits_inj'. intros k Hk.
  rewrite Z.land_spec, Z.bits_0.
  destruct (Z.lt_ge_cases k n) as [Hlt | Hge].
  - rewrite (Z.shiftl_spec_low b n k Hlt). apply andb_false_r.
  - destruct (Z.eq_dec a 0) as [-> | Hnz].
    + rewrite Z.bits_0. reflexivity.
    + rewrite (Z.bits_above_log2 a k); [reflexivity | lia |].
      apply Z.lt_le_trans with (m := n); [| exact Hge].
      apply Z.log2_lt_pow2; lia.
Qed.

Lemma lor_shiftl_add (a b n : Z) :
  0 <= a < 2 ^ n -> 0 <= n -> Z.lor a (Z.shiftl b n) = a + b * 2 ^ n.
Proof.
  intros Ha Hn.
  pose proof (Z.add_lor_land a (Z.shiftl b n)) as H.
  rewrite land_shiftl_low in H by assumption.
  rewrite Z.shiftl_mul_pow2 in H by exact Hn.
  rewrite Z.shiftl_mul_pow2 by exact Hn. lia.
Qed.

Lemma Read16LE_Ok (f : list byte) (off v : Z) :
  Read16LE f off = Ok v ->
  0 <= off /\ off + 2 <= len f /\ 0 <= v < 65536.
Proof.
  unfold Read16LE. intros H.
  apply bind_Ok in H. destruct H as (b0 & H0 & H).
  apply bind_Ok in H. destruct H as (b1 & H1 & H).
  apply Ok_inj in H. subst v.
  apply byte_at_Ok in H0, H1. destruct H0 as [R0 ->]. destruct H1 as [R1 ->].
  pose proof (byte_val_range (nth (Z.to_nat off) f x00)) as B0.
  pose proof (byte_val_range (nth (Z.to_nat (off + 1)) f x00)) as B1.
  rewrite lor_shiftl_add by (change (2 ^ 8) with 256; lia).
  change (2 ^ 8) with 256. lia.
Qed.

Lemma Read32LE_Ok (f : list byte) (off v : Z) :
  Read32LE f off = Ok v ->
  0 <= off /\ off + 4 <= len f /\ v = field_u32 f off /\ is_u32 v.
Proof.
  unfold Read32LE. intros H.
  apply bind_Ok in H. destruct H as (b0 & H0 & H).
  apply bind_Ok in H. destruct H as (b1 & H1 & H).
  apply bind_Ok in H. destruct H as (b2 & H2 & H).
  apply bind_Ok in H. destruct H as (b3 & H3 & H).
  apply Ok_inj in H. subst v.
  apply byte_at_Ok in H0, H1, H2, H3.
  destruct H0 as [R0 E0]. destruct H1 as [R1 E1].
  destruct H2 as [R2 E2]. destruct H3 as [R3 E3].
  assert (Hs : slice f off 4
               = [nth (Z.to_nat off) f x00; nth (Z.to_nat (off + 1)) f x00;
                  nth (Z.to_nat (off + 2)) f x00;
                  nth (Z.to_nat (off + 3)) f x00]).
  { rewrite (slice_uncons f off 4) by lia.
    rewrite (slice_uncons f (off + 1) (4 - 1)) by lia.
    rewrite (slice_uncons f (off + 1 + 1) (4 - 1 - 1)) by lia.
    rewrite (slice_uncons f (off + 1 + 1 + 1) (4 - 1 - 1 - 1)) by lia.
    replace (off + 1 + 1) with (off + 2) by ring.
    replace (off + 2 + 1) with (off + 3) by ring.
    reflexivity. }
  pose proof (byte_val_range (nth (Z.to_nat off) f x00)) as B0.
  pose proof (byte_val_range (nth (Z.to_nat (off + 1)) f x00)) as B1.
  pose proof (byte_val_range (nth (Z.to_nat (off + 2)) f x00)) as B2.
  pose proof (byte_val_range (nth (Z.to_nat (off + 3)) f x00)) as B3.
  unfold field_u32. rewrite Hs. cbn [le_value]. rewrite <- E0, <- E1, <- E2, <- E3.
  rewrite E0, E1, E2, E3 in *. clear E0 E1 E2 E3.
  rewrite <- !Z.lor_assoc.
  assert (Hw : Z.lor (byte_val (nth (Z.to_nat off) f x00))
                 (Z.lor (Z.shiftl (byte_val (nth (Z.to_nat (off + 1)) f x00)) 8)
                    (Z.lor (Z.shiftl (byte_val (nth (Z.to_nat (off + 2)) f x00)) 16)
                       (Z.shiftl (byte_val (nth (Z.to_nat (off + 3)) f x00)) 24)))
               = byte_val (nth (Z.to_nat off) f x00)
                 + 256 * (byte_val (nth (Z.to_nat (off + 1)) f x00)
                 + 256 * (byte_val (nth (Z.to_nat (off + 2)) f x00)
                 + 256 * (byte_val (nth (Z.to_nat (off + 3)) f x00) + 256 * 0)))).
  { set (v0 := byte_val (nth (Z.to_nat off) f x00)) in *.
    set (v1 := byte_val (nth (Z.to_nat (off + 1)) f x00)) in *.
    set (v2 := byte_val (nth (Z.to_nat (off + 2)) f x00)) in *.
    set (v3 := byte_val (nth (Z.to_nat (off + 3)) f x00)) in *.
    replace (Z.shiftl v3 24) with (Z.shiftl (Z.shiftl v3 8) 16)
      by (rewrite Z.shiftl_shiftl by lia; reflexivity).
    rewrite <- Z.shiftl_lor.
    replace (Z.shiftl v2 16) with (Z.shiftl (Z.shiftl v2 8) 8)
      by (rewrite Z.shiftl_shiftl by lia; reflexivity).
    replace (Z.shiftl (Z.lor v2 (Z.shiftl v3 8)) 16)
      with (Z.shiftl (Z.shiftl (Z.lor v2 (Z.shiftl v3 8)) 8) 8)
      by (rewrite Z.shiftl_shiftl by lia; reflexivity).
    replace (Z.shiftl (Z.shiftl v2 8) 8) with (Z.shiftl v2 16)
      by (rewrite Z.shiftl_shiftl by lia; reflexivity).
    rewrite <- Z.shiftl_lor.
    rewrite !lor_shiftl_add by (change (2 ^ 8) with 256; lia).
    change (2 ^ 8) with 256. ring. }
  split; [lia |]. split; [lia |].
  assert (Hr : is_u32
                 (byte_val (nth (Z.to_nat off) f x00)
                  + 256 * (byte_val (nth (Z.to_nat (off + 1)) f x00)
                  + 256 * (byte_val (nth (Z.to_nat (off + 2)) f x00)
                  + 256 * (byte_val (nth (Z.to_nat (off + 3)) f x00) + 256 * 0)))))
    by (unfold is_u32, u32_mod; lia).
  rewrite Hw. rewrite wrap32_small by exact Hr. split; [reflexivity | exact Hr].
Qed.

Lemma slice_zero (f : list byte) (off : Z) : slice f off 0 = [].
Proof. reflexivity. Qed.

Lemma read64_loop (f : list byte) (off : Z) :
  forall (n : nat) (i acc v : Z),
    0 <= i -> 0 <= acc < 2 ^ (i * 8) ->
    for_range n i
      (fun i acc =>
         b <- byte_at f (off + i) ;; Ok (Z.lor acc (Z.shiftl b (i * 8))))
      acc = Ok v ->
    v = acc + 2 ^ (i * 8) * le_value (slice f (off + i) (Z.of_nat n))
    /\ (n <> O -> 0 <= off + i /\ off + i + Z.of_nat n <= len f).
Proof.
  induction n as [| n IH]; intros i acc v Hi Hacc Hrun.
  - cbn [for_range] in Hrun. apply Ok_inj in Hrun. subst v.
    split; [| congruence]. cbn [Z.of_nat]. rewrite slice_zero. cbn [le_value]. ring.
  - cbn [for_range] in Hrun.
    apply bind_Ok in Hrun. destruct Hrun as (acc' & Hbody & Hrest).
    apply bind_Ok in Hbody. destruct Hbody as (b & Hb & Hacc').
    apply Ok_inj in Hacc'. subst acc'.
    apply byte_at_Ok in Hb. destruct Hb as [Hrange ->].
    pose proof (byte_val_range (nth (Z.to_nat (off + i)) f x00)) as Hbv.
    set (bv := byte_val (nth (Z.to_nat (off + i)) f x00)) in *.
    assert (Hpow : 2 ^ ((i + 1) * 8) = 2 ^ (i * 8) * 256).
    { replace ((i + 1) * 8) with (i * 8 + 8) by ring.
      rewrite Z.pow_add_r by lia. reflexivity. }
    assert (Hp : 0 < 2 ^ (i * 8)) by (apply Z.pow_pos_nonneg; lia).
    rewrite lor_shiftl_add in Hrest by lia.
    apply IH in Hrest; [| lia | rewrite Hpow; nia].
    destruct Hrest as [Hv Hb'].
    split.
    + rewrite Hv, Hpow.
      rewrite Nat2Z.inj_succ. unfold Z.succ.
      rewrite (slice_cons f (off + i)) by lia.
      cbn [le_value]. fold bv.
      replace (off + (i + 1)) with (off + i + 1) by ring. ring.
    + intros _. split; [lia |].
      destruct n as [| n'].
      * cbn. lia.
      * specialize (Hb' ltac:(discriminate)). lia.
Qed.

Lemma Read64LE_Signed_Ok (f : list byte) (off v : Z) :
  Read64LE_Signed f off = Ok v ->
  0 <= off /\ off + 8 <= len f /\ v = field_i64 f off.
Proof.
  unfold Read64LE_Signed, Read64LE. intros H.
  apply bind_Ok in H. destruct H as (u & Hu & Hv).
  apply Ok_inj in Hv. subst v.
  apply read64_loop in Hu; [| lia | cbn; lia].
  destruct Hu as [Hu Hb].
  specialize (Hb ltac:(discriminate)).
  rewrite Z.add_0_r in Hu, Hb.
  change (Z.of_nat 8) with 8 in *.
  split; [lia |]. split; [lia |].
  unfold field_i64. rewrite Hu. f_equal.
  change (2 ^ (0 * 8)) with 1. ring.
Qed.

(** ** One iteration of the texture loop *)

Lemma bytes_eqb_true (a b : list byte) : bytes_eqb a b = true <-> a = b.
Proof.
  unfold bytes_eqb. destruct (list_eq_dec Byte.byte_eq_dec a b); split;
    congruence.
Qed.

Lemma magic_differs_Ok (f : list byte) (off : Z) (magic : string) (bad : bool) :
  magic_differs f off magic = Ok bad ->
  0 <= off /\ off + 4 <= len f
  /\ (bad = true <-> slice f off 4 <> list_byte_of_string magic).
Proof.
  unfold magic_differs. intros H.
  apply bind_Ok in H. destruct H as (m & Hm & H).
  apply Ok_inj in H. subst bad.
  apply read_bytes_Ok in Hm. destruct Hm as (H0 & H1 & ->).
  split; [exact H0 |]. split; [exact H1 |].
  rewrite negb_true_iff, <- not_true_iff_false, bytes_eqb_true. tauto.
Qed.

Lemma magic_differs_in_bounds (f : list byte) (off : Z) (magic : string) :
  0 <= off -> off + 4 <= len f ->
  magic_differs f off magic
  = Ok (negb (bytes_eqb (slice f off 4) (list_byte_of_string magic))).
Proof.
  intros H0 H1. unfold magic_differs, read_bytes.
  destruct (Z.leb_spec 0 off) as [_ | Hbad]; [| lia].
  destruct (Z.leb_spec (off + 4) (len f)) as [_ | Hbad]; [| lia].
  reflexivity.
Qed.

(** The shape of a completed iteration: which reads it made and which of
    its four exits it took. *)
Lemma parse_texture_inv (f : list byte) (infoPtrAddr i : Z)
      (o : diag + BNTXTexture) :
  parse_texture f infoPtrAddr i = Ok o ->
  exists texInfoAddr,
    Read64LE_Signed f (infoPtrAddr + mul32 i 8) = Ok texInfoAddr
    /\ (((texInfoAddr < 0 \/ texInfoAddr >= len f)
         /\ o = inl InvalidTexInfoAddr)
        \/ (0 <= texInfoAddr < len f
            /\ exists bad,
                magic_differs f (wrap32 texInfoAddr) "BRTI" = Ok bad
                /\ ((bad = true /\ o = inl InvalidBRTI)
                    \/ (bad = false
                        /\ exists imgSize ptrsAddr dataAddr,
                            Read32LE f (add32 (wrap32 texInfoAddr) 0x50)
                            = Ok imgSize
                            /\ Read64LE_Signed f
                                 (add32 (wrap32 texInfoAddr) 0x70)
                               = Ok ptrsAddr
                            /\ Read64LE_Signed f ptrsAddr = Ok dataAddr
                            /\ (((dataAddr < 0
                                  \/ dataAddr + imgSize > len f)
                                 /\ o = inl InvalidDataAddr)
                                \/ (0 <= dataAddr
                                    /\ dataAddr + imgSize <= len f
                                    /\ exists tex,
                                        o = inr tex
                                        /\ imageSize tex = imgSize
                                        /\ data tex
                                           = slice f dataAddr imgSize)))))).
Proof.
  unfold parse_texture. intros H.
  apply bind_Ok in H. destruct H as (texInfoAddr & Hinfo & H).
  exists texInfoAddr. split; [exact Hinfo |].
  destruct (Z.ltb_spec texInfoAddr 0) as [Hneg | Hnn].
  { cbn [orb] in H. apply Ok_inj in H. left. split; [lia | congruence]. }
  destruct (Z.geb_spec texInfoAddr (len f)) as [Hbig | Hsmall].
  { cbn [orb] in H. apply Ok_inj in H. left. split; [lia | congruence]. }
  cbn [orb] in H. right. split; [lia |].
  apply bind_Ok in H. destruct H as (bad & Hmagic & H).
  exists bad. split; [exact Hmagic |].
  destruct bad.
  { apply Ok_inj in H. left. split; [reflexivity | congruence]. }
  right. split; [reflexivity |].
  apply bind_Ok in H. destruct H as (vtileMode & _ & H).
  apply bind_Ok in H. destruct H as (vflags & _ & H).
  apply bind_Ok in H. destruct H as (vswizzle & _ & H).
  apply bind_Ok in H. destruct H as (vnumMips & _ & H).
  apply bind_Ok in H. destruct H as (vformat & _ & H).
  apply bind_Ok in H. destruct H as (vwidth & _ & H).
  apply bind_Ok in H. destruct H as (vheight & _ & H).
  apply bind_Ok in H. destruct H as (vsizeRange & _ & H).
  apply bind_Ok in H. destruct H as (imgSize & HimgSize & H).
  apply bind_Ok in H. destruct H as (valignment & _ & H).
  apply bind_Ok in H. destruct H as (nameAddr & _ & H).
  apply bind_Ok in H. destruct H as (ptrsAddr & Hptrs & H).
  apply bind_Ok in H. destruct H as (nameLen & _ & H).
  apply bind_Ok in H. destruct H as (vname & _ & H).
  apply bind_Ok in H. destruct H as (vshown & _ & H).
  apply bind_Ok in H. destruct H as (dataAddr & HdataAddr & H).
  exists imgSize, ptrsAddr, dataAddr.
  split; [exact HimgSize |]. split; [exact Hptrs |]. split; [exact HdataAddr |].
  destruct (Z.ltb_spec dataAddr 0) as [Hdneg | Hdnn].
  { cbn [orb] in H. apply Ok_inj in H. left. split; [lia | congruence]. }
  destruct (Z.gtb_spec (dataAddr + imgSize) (len f)) as [Hover | Hfits].
  { cbn [orb] in H. apply Ok_inj in H. left. split; [lia | congruence]. }
  cbn [orb] in H. apply Ok_inj in H. right.
  split; [lia |]. split; [lia |].
  eexists. split; [symmetry; exact H |]. split; reflexivity.
Qed.

Lemma parse_texture_nonfatal (f : list byte) (infoPtrAddr i : Z) (d : diag) :
  parse_texture f infoPtrAddr i = Ok (inl d) -> is_fatal d = false.
Proof.
  intros H. apply parse_texture_inv in H.
  destruct H as (a & _ & [[_ E] | (_ & bad & _ & [[_ E] | (_ & H)])]).
  - injection E as ->. reflexivity.
  - injection E as ->. reflexivity.
  - destruct H as (s & p & da & _ & _ & _ & [[_ E] | (_ & _ & t & E & _)]).
    + injection E as ->. reflexivity.
    + discriminate.
Qed.

Lemma parse_texture_payload (f : list byte) (infoPtrAddr i : Z)
      (tex : BNTXTexture) :
  parse_texture f infoPtrAddr i = Ok (inr tex) ->
  len (data tex) = imageSize tex.
Proof.
  intros H. apply parse_texture_inv in H.
  destruct H as (a & _ & [[_ E] | (_ & bad & _ & [[_ E] | (_ & H)])]);
    try discriminate.
  destruct H as (s & p & da & Hs & _ & _ & [[_ E] | (H0 & H1 & t & E & Hi & Hd)]);
    try discriminate.
  injection E as <-. rewrite Hd, Hi.
  apply Read32LE_Ok in Hs. destruct Hs as (_ & _ & _ & [Hs0 _]).
  unfold len. rewrite slice_length by (unfold len in *; lia). lia.
Qed.


(** The first two exits are taken as soon as the reads before them stay
    inside the buffer. *)
Lemma parse_texture_skips_bad_info_pointer
      (f : list byte) (infoPtrAddr i a : Z) :
  Read64LE_Signed f (infoPtrAddr + mul32 i 8) = Ok a ->
  a < 0 \/ a >= len f ->
  parse_texture f infoPtrAddr i = Ok (inl InvalidTexInfoAddr).
Proof.
  intros Ha Hbad. unfold parse_texture. rewrite Ha. cbn [bind].
  destruct (Z.ltb_spec a 0) as [_ | Hnn]; [reflexivity |].
  destruct (Z.geb_spec a (len f)) as [_ | Hsmall]; [reflexivity | lia].
Qed.

Lemma parse_texture_skips_bad_magic
      (f : list byte) (infoPtrAddr i a : Z) :
  Read64LE_Signed f (infoPtrAddr + mul32 i 8) = Ok a ->
  0 <= a -> a + 4 <= len f -> len f <= u32_mod ->
  ~ magic_at f a "BRTI" ->
  parse_texture f infoPtrAddr i = Ok (inl InvalidBRTI).
Proof.
  intros Ha H0 H4 Hlen Hmagic. unfold parse_texture. rewrite Ha. cbn [bind].
  destruct (Z.ltb_spec a 0) as [Hneg | _]; [lia |].
  destruct (Z.geb_spec a (len f)) as [Hbig | _]; [lia |].
  cbn [orb]. rewrite (wrap32_small a) by (unfold is_u32; lia).
  rewrite magic_differs_in_bounds by lia. cbn [bind].
  unfold magic_at in Hmagic.
  destruct (bytes_eqb (slice f a 4) (list_byte_of_string "BRTI")) eqn:E.
  - apply bytes_eqb_true in E. contradiction.
  - reflexivity.
Qed.

(** ** The texture loop *)

Lemma indices_succ (n : nat) :
  indices (S n) = 0 :: map (fun k => k + 1) (indices n).
Proof.
  unfold indices. cbn [seq map]. f_equal.
  rewrite <- seq_shift, !map_map.
  apply map_ext. intros k. lia.
Qed.

Lemma flat_map_map {A B C : Type} (g : B -> list C) (h : A -> B) (l : list A) :
  flat_map g (map h l) = flat_map (fun a => g (h a)) l.
Proof.
  induction l as [| a l IH]; [reflexivity |].
  cbn [map flat_map]. rewrite IH. reflexivity.
Qed.

Lemma in_indices (n : nat) (k : Z) : In k (indices n) <-> 0 <= k < Z.of_nat n.
Proof.
  unfold indices. rewrite in_map_iff. split.
  - intros (j & <- & Hj). apply in_seq in Hj. lia.
  - intros Hk. exists (Z.to_nat k). split; [lia |]. apply in_seq. lia.
Qed.

(** The loop appends, index by index, what each iteration yields. *)
Lemma parse_loop_collects (f : list byte) (infoPtrAddr : Z) :
  forall (n : nat) (i : Z) (st st' : parse_state),
    for_range n i (parse_step f infoPtrAddr) st = Ok st' ->
    snd st' = snd st ++ flat_map
                (fun k => kept (parse_texture f infoPtrAddr (i + k)))
                (indices n)
    /\ fst st' = fst st ++ flat_map
                   (fun k => logged (parse_texture f infoPtrAddr (i + k)))
                   (indices n)
    /\ (forall k, 0 <= k < Z.of_nat n ->
                  exists o, parse_texture f infoPtrAddr (i + k) = Ok o).
Proof.
  induction n as [| n IH]; intros i st st' Hrun.
  - cbn [for_range] in Hrun. apply Ok_inj in Hrun. subst st'.
    cbn [indices seq map flat_map]. rewrite !app_nil_r.
    split; [reflexivity |]. split; [reflexivity |]. intros k Hk. lia.
  - cbn [for_range] in Hrun.
    apply bind_Ok in Hrun. destruct Hrun as (st1 & Hstep & Hrest).
    unfold parse_step in Hstep.
    apply bind_Ok in Hstep. destruct Hstep as (o & Ho & Hst1).
    apply IH in Hrest. destruct Hrest as (Htex & Hlog & Hall).
    rewrite indices_succ. cbn [flat_map]. rewrite !flat_map_map.
    rewrite Z.add_0_r, Ho.
    assert (Hshift : forall k, i + 1 + k = i + (k + 1)) by (intros; ring).
    split; [| split].
    + rewrite Htex.
      rewrite (flat_map_ext _ _ (fun k => f_equal kept
                 (f_equal (parse_texture f infoPtrAddr) (Hshift k)))).
      destruct o as [d | tex]; apply Ok_inj in Hst1; subst st1; cbn [snd kept].
      * reflexivity.
      * rewrite <- app_assoc. reflexivity.
    + rewrite Hlog.
      rewrite (flat_map_ext _ _ (fun k => f_equal logged
                 (f_equal (parse_texture f infoPtrAddr) (Hshift k)))).
      destruct o as [d | tex]; apply Ok_inj in Hst1; subst st1;
        cbn [fst logged].
      * rewrite <- app_assoc. reflexivity.
      * reflexivity.
    + intros k Hk. destruct (Z.eq_dec k 0) as [-> | Hnz].
      * exists o. rewrite Z.add_0_r. exact Ho.
      * destruct (Hall (k - 1)) as (o' & Ho'); [lia |].
        exists o'. rewrite <- Ho'. f_equal. ring.
Qed.



(** ** The container header *)

Lemma byte_at_field (f : list byte) (off b : Z) :
  byte_at f off = Ok b -> b = field_u8 f off.
Proof.
  intros H. apply byte_at_Ok in H. destruct H as [Hr ->].
  unfold field_u8. rewrite (slice_uncons f off 1) by lia.
  change (1 - 1) with 0. rewrite slice_zero. cbn [le_value]. ring.
Qed.

(** The shape of a completed parse: either one of the four early returns,
    or the texture loop. *)
Lemma parseBNTX_inv (f : list byte) (st : parse_state) :
  parseBNTX f = Ok st ->
  (fatal_condition f /\ exists d, is_fatal d = true /\ st = ([d], []))
  \/ (~ fatal_condition f
      /\ exists texCount infoPtrAddr,
          parse_loop f infoPtrAddr texCount = Ok st).
Proof.
  unfold parseBNTX, fatal_condition, magic_at. intros H.
  destruct (Z.ltb_spec (len f) 0x100) as [Hsmall | Hbig].
  { apply Ok_inj in H. subst st. left. split; [left; exact Hsmall |].
    exists FileTooSmall. split; reflexivity. }
  apply bind_Ok in H. destruct H as (bad & Hmagic & H).
  apply magic_differs_Ok in Hmagic. destruct Hmagic as (_ & _ & Hmagic).
  destruct bad.
  { apply Ok_inj in H. subst st. left.
    split; [right; left; apply Hmagic; reflexivity |].
    exists NotBNTX. split; reflexivity. }
  apply bind_Ok in H. destruct H as (b0 & Hb0 & H).
  apply bind_Ok in H. destruct H as (b1 & Hb1 & H).
  apply byte_at_field in Hb0, Hb1. subst b0 b1.
  destruct (Z.eqb_spec (field_u8 f 12) 255) as [E0 | N0];
    [destruct (Z.eqb_spec (field_u8 f 13) 254) as [E1 | N1] |];
    cbn [andb negb] in H.
  2: { apply Ok_inj in H. subst st. left.
       split; [right; right; left; tauto |].
       exists BigEndian. split; reflexivity. }
  2: { apply Ok_inj in H. subst st. left.
       split; [right; right; left; tauto |].
       exists BigEndian. split; reflexivity. }
  apply bind_Ok in H. destruct H as (fileNameAddr & _ & H).
  apply bind_Ok in H. destruct H as (fileSize & _ & H).
  apply bind_Ok in H. destruct H as (fileName & _ & H).
  apply bind_Ok in H. destruct H as (badNX & HNX & H).
  change (add32 0 32) with 32 in HNX.
  apply magic_differs_Ok in HNX. destruct HNX as (_ & _ & HNX).
  destruct badNX.
  { apply Ok_inj in H. subst st. left.
    split; [right; right; right; apply HNX; reflexivity |].
    exists InvalidNX. split; reflexivity. }
  apply bind_Ok in H. destruct H as (texCount & _ & H).
  apply bind_Ok in H. destruct H as (infoPtrAddr & _ & H).
  apply bind_Ok in H. destruct H as (dataBlkAddr & _ & H).
  right. split.
  - intros [C | [C | [C | C]]].
    + lia.
    + apply C.
      destruct (list_eq_dec Byte.byte_eq_dec (slice f 0 4)
                  (list_byte_of_string "BNTX")) as [E | N]; [exact E |].
      apply Hmagic in N. discriminate.
    + tauto.
    + apply C.
      destruct (list_eq_dec Byte.byte_eq_dec (slice f 32 4)
                  (list_byte_of_string "NX  ")) as [E | N]; [exact E |].
      apply HNX in N. discriminate.
  - exists texCount, infoPtrAddr. exact H.
Qed.

Lemma parse_loop_not_aborted (f : list byte) (infoPtrAddr texCount : Z)
      (st : parse_state) :
  parse_loop f infoPtrAddr texCount = Ok st -> ~ aborted st.
Proof.
  intros Hrun (d & Hin & Hfatal). unfold parse_loop in Hrun.
  apply parse_loop_collects in Hrun. destruct Hrun as (_ & Hlog & _).
  cbn [fst app] in Hlog. rewrite Hlog in Hin.
  apply in_flat_map in Hin. destruct Hin as (k & _ & Hd).
  unfold logged in Hd.
  destruct (parse_texture f infoPtrAddr (0 + k)) as [[d' | tex] | e] eqn:E;
    cbn in Hd; try contradiction.
  destruct Hd as [-> | []].
  apply parse_texture_nonfatal in E. congruence.
Qed.

(** The early returns before the file name is read cannot fault. *)
Lemma parseBNTX_rejects_bad_header (f : list byte) :
  len f < 0x100 \/ ~ magic_at f 0 "BNTX"
  \/ ~ (field_u8 f 0xC = 0xFF /\ field_u8 f 0xD = 0xFE) ->
  exists d, is_fatal d = true /\ parseBNTX f = Ok ([d], []).
Proof.
  intros Hc. unfold parseBNTX.
  destruct (Z.ltb_spec (len f) 0x100) as [Hsmall | Hbig].
  { exists FileTooSmall. split; reflexivity. }
  rewrite magic_differs_in_bounds by lia. cbn [bind].
  destruct (bytes_eqb (slice f 0 4) (list_byte_of_string "BNTX")) eqn:Em;
    cbn [negb].
  2: { exists NotBNTX. split; reflexivity. }
  apply bytes_eqb_true in Em.
  assert (H12 : byte_at f 12 = Ok (field_u8 f 12)).
  { destruct (byte_at f 12) as [b | e] eqn:E.
    - apply byte_at_field in E. congruence.
    - unfold byte_at in E.
      destruct (Z.ltb_spec 12 (len f)); [discriminate | lia]. }
  assert (H13 : byte_at f 13 = Ok (field_u8 f 13)).
  { destruct (byte_at f 13) as [b | e] eqn:E.
    - apply byte_at_field in E. congruence.
    - unfold byte_at in E.
      destruct (Z.ltb_spec 13 (len f)); [discriminate | lia]. }
  rewrite H12, H13. cbn [bind].
  destruct (Z.eqb_spec (field_u8 f 12) 255) as [E0 | N0];
    [destruct (Z.eqb_spec (field_u8 f 13) 254) as [E1 | N1] |];
    cbn [andb negb].
  - exfalso. destruct Hc as [C | [C | C]]; [lia | | tauto].
    apply C. exact Em.
  - exists BigEndian. split; reflexivity.
  - exists BigEndian. split; reflexivity.
Qed.

(** C5 (as the code has it): a file that is too short, lacks "BNTX" or
    the FF FE marker is rejected with one fatal diagnostic and no texture;
    a completed parse is such an abort exactly when one of the four header
    conditions holds (the fourth being a wrong "NX  " magic), and an abort
    returns the empty vector.  The caller sees the vector alone: it treats
    an abort like any other empty result and takes the "no textures found"
    exit. *)
Theorem fatal_abort_conditions (f : list byte) :
  (len f < 0x100 \/ ~ magic_at f 0 "BNTX"
   \/ ~ (field_u8 f 0xC = 0xFF /\ field_u8 f 0xD = 0xFE) ->
   exists d, is_fatal d = true /\ parseBNTX f = Ok ([d], []))
  /\ (forall st,
        parseBNTX f = Ok st ->
        (aborted st <-> fatal_condition f)
        /\ (aborted st ->
            returned_textures st = []
            /\ main_after_parse (returned_textures st) = NoTexturesFound)
        /\ (returned_textures st = [] ->
            main_after_parse (returned_textures st) = NoTexturesFound)).
Proof.
  split; [apply parseBNTX_rejects_bad_header |].
  intros st Hrun.
  destruct (parseBNTX_inv f st Hrun)
    as [(Hc & d & Hd & ->) | (Hnc & n & p & Hloop)].
  - split; [| split].
    + split; [intros _; exact Hc |].
      intros _. exists d. split; [left; reflexivity | exact Hd].
    + intros _. split; reflexivity.
    + intros _. reflexivity.
  - pose proof (parse_loop_not_aborted f p n st Hloop) as Hna.
    split; [| split].
    + split; [intros Ha; contradiction | intros Hc; contradiction].
    + intros Ha. contradiction.
    + intros ->. reflexivity.
Qed.

Lemma fatal_abort_conditions_witness :
  (exists d, is_fatal d = true /\ parseBNTX payload8 = Ok ([d], []))
  /\ (aborted ([FileTooSmall], []) <-> fatal_condition payload8)
  /\ (aborted ([FileTooSmall], []) ->
      returned_textures ([FileTooSmall], []) = []
      /\ main_after_parse (returned_textures ([FileTooSmall], []))
         = NoTexturesFound).
Proof.
  split.
  - apply (proj1 (fatal_abort_conditions payload8)).
    left. vm_compute. reflexivity.
  - pose proof (proj2 (fatal_abort_conditions payload8)
                  ([FileTooSmall], []) eq_refl) as H.
    split; [exact (proj1 H) | exact (proj1 (proj2 H))].
Defined.

(** C5 as stated fails: an empty file is a parse failure and the 256-byte
    container is structurally valid with no texture, yet [parseBNTX]
    returns the same empty vector for both and the caller ends both runs
    with the same "no textures found" exit. *)
Lemma parse_failure_reported_like_empty_container :
  fatal_condition [] /\ ~ fatal_condition bntx_no_textures
  /\ parseBNTX [] = Ok ([FileTooSmall], [])
  /\ parseBNTX bntx_no_textures = Ok ([], [])
  /\ returned_textures ([FileTooSmall], [])
     = returned_textures (([], []) : parse_state)
  /\ main_after_parse (returned_textures ([FileTooSmall], []))
     = main_after_parse (returned_textures (([], []) : parse_state)).
Proof.
  split; [left; vm_compute; reflexivity |].
  split.
  - intros [C | [C | [C | C]]].
    + vm_compute in C. discriminate.
    + apply C. vm_compute. reflexivity.
    + apply C. split; vm_compute; reflexivity.
    + apply C. vm_compute. reflexivity.
  - repeat split; vm_compute; reflexivity.
Qed.

(** ** The parsed records *)

(** C6 (as the code has it): every record in the parser's result list
    carries a payload of exactly its declared image size.  Width and
    height are stored as read, without any test. *)
Theorem parsed_payload_has_declared_size
        (f : list byte) (st : parse_state) (tex : BNTXTexture) :
  parseBNTX f = Ok st ->
  In tex (returned_textures st) ->
  len (data tex) = imageSize tex.
Proof.
  intros Hrun Hin.
  destruct (parseBNTX_inv f st Hrun)
    as [(_ & d & _ & ->) | (_ & n & p & Hloop)].
  - cbn in Hin. contradiction.
  - unfold parse_loop in Hloop.
    apply parse_loop_collects in Hloop. destruct Hloop as (Htex & _ & _).
    cbn [snd app] in Htex. unfold returned_textures in Hin.
    rewrite Htex in Hin.
    apply in_flat_map in Hin. destruct Hin as (k & _ & Hk).
    unfold kept in Hk.
    destruct (parse_texture f p (0 + k)) as [[d' | t] | e] eqn:E;
      cbn in Hk; try contradiction.
    destruct Hk as [-> | []].
    apply (parse_texture_payload f p (0 + k) tex E).
Qed.

Lemma parsed_payload_has_declared_size_witness :
  exists st tex,
    parseBNTX (bntx_two_entries 1) = Ok st
    /\ In tex (returned_textures st)
    /\ len (data tex) = imageSize tex.
Proof.
  eexists. eexists.
  split; [vm_compute; reflexivity |].
  split; [left; reflexivity |].
  eapply (parsed_payload_has_declared_size (bntx_two_entries 1)).
  - vm_compute. reflexivity.
  - left. reflexivity.
Defined.

(** C6 as stated fails: a BRTI record whose width field is zero is
    appended to the result list like any other. *)
Lemma parsed_record_with_zero_width :
  exists st tex,
    parseBNTX (bntx_two_entries 0) = Ok st
    /\ In tex (returned_textures st)
    /\ width tex = 0
    /\ ~ (width tex > 0).
Proof.
  eexists. eexists.
  split; [vm_compute; reflexivity |].
  split; [left; reflexivity |].
  split; [reflexivity | cbn; lia].
Qed.

(** ** The format key *)

Lemma shiftr_div_pow2 a n : 0 <= n -> Z.shiftr a n = a / 2 ^ n.
Proof. intros H. apply Z.shiftr_div_pow2. exact H. Qed.

Lemma len_app {A : Type} (l1 l2 : list A) : len (l1 ++ l2) = len l1 + len l2.
Proof. unfold len. rewrite length_app. lia. Qed.

(** The iteration for a key that the format table has. *)
Lemma save_texture_supported (can_create : string -> bool)
      (outputDir : string) (tex : BNTXTexture) (nm : string) :
  lookup (formatType_of tex) formats = Some nm ->
  save_texture can_create outputDir tex
  = (gw <- DIV_ROUND_UP (width tex) (block_width (formatType_of tex)) ;;
     gh <- DIV_ROUND_UP (height tex) (block_height (formatType_of tex)) ;;
     let size := mul32 (mul32 gw gh) (block_bytes (formatType_of tex)) in
     res <- deswizzle (width tex) (height tex)
                      (block_width (formatType_of tex))
                      (block_height (formatType_of tex))
                      (block_bytes (formatType_of tex))
                      (tileMode tex) (alignment tex) (sizeRange tex)
                      (data tex) ;;
     let res := if len res >? size then firstn (Z.to_nat size) res else res in
     let header := generateDDSHeader (width tex) (height tex)
                                     (formatType_of tex) size in
     let outName := (outputDir ++ "/" ++ name tex ++ ".dds")%string in
     if can_create outName then Ok (Saved outName (header ++ res))
     else Ok (FailedToCreate outName)).
Proof. intros H. unfold save_texture. rewrite H. reflexivity. Qed.

(** The iteration depends on the format field through its key alone. *)
Lemma save_texture_same_key (can_create : string -> bool)
      (outputDir : string) (tex : BNTXTexture) (fmt : Z) :
  Z.shiftr fmt 8 = Z.shiftr (format tex) 8 ->
  save_texture can_create outputDir (with_format tex fmt)
  = save_texture can_create outputDir tex.
Proof.
  intros E. unfold save_texture, formatType_of, with_format.
  cbn [format width height name tileMode sizeRange alignment imageSize data].
  rewrite E. reflexivity.
Qed.

(** C7 (as the code has it): the key of the format tables is the raw
    format field shifted right by eight bits, that is all of the field but
    its least significant byte, and it is the key the exporter works with:
    [saveTextures] skips a texture as unsupported exactly when that key is
    missing from the format table, a saved file is the header generated
    for that key followed by the output of [deswizzle] run with the block
    dimensions and block size found at that key, and the low byte of the
    field changes nothing.  The key coincides with the most significant
    byte of the field only for fields below 256, where both are zero. *)
Theorem format_key_drops_low_byte (can_create : string -> bool)
        (outputDir : string) (tex : BNTXTexture) :
  is_u32 (format tex) ->
  formatType_of tex = format tex / 256
  /\ exports_by_key can_create outputDir tex (format tex / 256)
  /\ (formatType_of tex = top_byte (format tex) <-> format tex < 256).
Proof.
  intros [Hlo Hhi].
  assert (Hkey : formatType_of tex = format tex / 256).
  { unfold formatType_of. rewrite shiftr_div_pow2 by lia. reflexivity. }
  split; [exact Hkey |]. split.
  - unfold exports_by_key. rewrite <- Hkey.
    split; [| split].
    + split.
      * intros H.
        destruct (lookup (formatType_of tex) formats) as [nm |] eqn:Hf;
          [| reflexivity].
        exfalso. rewrite (save_texture_supported _ _ _ _ Hf) in H.
        apply bind_Ok in H. destruct H as (gw & _ & H).
        apply bind_Ok in H. destruct H as (gh & _ & H).
        cbv zeta in H.
        apply bind_Ok in H. destruct H as (res & _ & H).
        destruct (can_create _); discriminate.
      * intros Hf. unfold save_texture. rewrite Hf. reflexivity.
    + intros outName bytes H.
      destruct (lookup (formatType_of tex) formats) as [nm |] eqn:Hf.
      2: { unfold save_texture in H. rewrite Hf in H. discriminate. }
      rewrite (save_texture_supported _ _ _ _ Hf) in H.
      apply bind_Ok in H. destruct H as (gw & Hgw & H).
      apply bind_Ok in H. destruct H as (gh & Hgh & H).
      cbv zeta in H.
      apply bind_Ok in H. destruct H as (res & Hres & H).
      destruct (can_create _); [| discriminate].
      apply Ok_inj in H.
      exists gw, gh, res.
      split; [exact Hgw |]. split; [exact Hgh |]. split; [exact Hres |].
      assert (Hb : bytes
                   = generateDDSHeader (width tex) (height tex)
                       (formatType_of tex)
                       (mul32 (mul32 gw gh) (block_bytes (formatType_of tex)))
                     ++ (if len res
                            >? mul32 (mul32 gw gh)
                                 (block_bytes (formatType_of tex))
                         then firstn
                                (Z.to_nat
                                   (mul32 (mul32 gw gh)
                                      (block_bytes (formatType_of tex)))) res
                         else res))
        by congruence.
      split; [exact Hb |].
      rewrite Hb.
      rewrite slice_app_l
        by (rewrite ?generateDDSHeader_length; lia).
      apply generateDDSHeader_fourcc.
    + intros low Hlow. apply save_texture_same_key.
      fold (formatType_of tex). rewrite Hkey.
      rewrite shiftr_div_pow2 by lia. change (2 ^ 8) with 256.
      rewrite Z.mul_comm, Z.div_add_l by lia.
      rewrite (Z.div_small low 256) by lia. lia.
  - unfold formatType_of, top_byte.
    rewrite !shiftr_div_pow2 by lia.
    change (2 ^ 8) with 256. change (2 ^ 24) with 16777216.
    split.
    + intros E.
      destruct (Z.lt_ge_cases (format tex) 256) as [Hlt | Hge]; [exact Hlt |].
      exfalso.
      assert (H1 : 1 <= format tex / 256)
        by (apply Z.div_le_lower_bound; lia).
      assert (H2 : format tex / 16777216 = format tex / 256 / 65536)
        by (rewrite Z.div_div by lia; reflexivity).
      assert (H3 : format tex / 256 / 65536 < format tex / 256)
        by (apply Z.div_lt; lia).
      lia.
    + intros Hlt.
      rewrite (Z.div_small (format tex) 256) by lia.
      rewrite (Z.div_small (format tex) 16777216) by lia.
      reflexivity.
Qed.

Lemma format_key_drops_low_byte_witness :
  formatType_of tex_bc1_4x4 = 0x1a01 / 256
  /\ exports_by_key (fun _ => true) "out" tex_bc1_4x4 (0x1a01 / 256)
  /\ (formatType_of tex_bc1_4x4 = top_byte (format tex_bc1_4x4)
      <-> format tex_bc1_4x4 < 256).
Proof.
  apply (format_key_drops_low_byte (fun _ => true) "out" tex_bc1_4x4).
  unfold is_u32, u32_mod. simpl. lia.
Defined.

(** C7 as stated fails: for the BC1 format field [0x1a01] the tables are
    consulted at [0x1a], while the most significant byte of the field is
    [0], a key none of the tables has; the texture is saved all the same,
    with the FourCC of BC1.  And a texture whose format field has [0x1a]
    as its most significant byte is skipped as unsupported. *)
Lemma format_key_is_not_top_byte :
  formatType_of tex_bc1_4x4 = 0x1a
  /\ top_byte (format tex_bc1_4x4) = 0
  /\ formatType_of tex_bc1_4x4 <> top_byte (format tex_bc1_4x4)
  /\ lookup (formatType_of tex_bc1_4x4) formats = Some "BC1"%string
  /\ lookup (top_byte (format tex_bc1_4x4)) formats = None
  /\ (exists bytes,
        save_texture (fun _ => true) "out" tex_bc1_4x4
        = Ok (Saved "out/b.dds" bytes)
        /\ slice bytes 84 4 = list_byte_of_string "DXT1")
  /\ top_byte (format (with_format tex_bc1_4x4 0x1a000000)) = 0x1a
  /\ save_texture (fun _ => true) "out" (with_format tex_bc1_4x4 0x1a000000)
     = Ok SkippedUnsupported.
Proof.
  repeat split; try (vm_compute; congruence).
  eexists. split; vm_compute; reflexivity.
Qed.

(* ====================================================================== *)
(** * Further properties of the readers                                    *)
(* ====================================================================== *)

Lemma byte_val_of_Z (z : Z) : byte_val (byte_of_Z z) = z mod 256.
Proof.
  unfold byte_val, byte_of_Z.
  assert (Hr : 0 <= z mod 256 < 256) by (apply Z.mod_pos_bound; lia).
  destruct (Byte.of_N (Z.to_N (z mod 256))) as [b |] eqn:E.
  - apply Byte.to_of_N in E. rewrite E. lia.
  - apply Byte.of_N_None_iff in E. lia.
Qed.

Lemma byte_of_Z_val (b : byte) : byte_of_Z (byte_val b) = b.
Proof.
  unfold byte_val, byte_of_Z.
  pose proof (Byte.to_N_bounded b) as Hb.
  rewrite Z.mod_small by lia. rewrite N2Z.id, Byte.of_to_N. reflexivity.
Qed.

Lemma byte_at_in_bounds (f : list byte) (i : Z) :
  0 <= i < len f -> byte_at f i = Ok (byte_val (nth (Z.to_nat i) f x00)).
Proof.
  intros H. unfold byte_at.
  destruct (Z.leb_spec 0 i); [| lia].
  destruct (Z.ltb_spec i (len f)); [| lia]. reflexivity.
Qed.

Lemma byte_at_out_of_bounds (f : list byte) (i : Z) :
  ~ (0 <= i < len f) -> byte_at f i = Fault OobRead.
Proof.
  intros H. unfold byte_at.
  destruct (Z.leb_spec 0 i); destruct (Z.ltb_spec i (len f));
    try reflexivity; lia.
Qed.

Lemma byte_at_dec (f : list byte) (i : Z) :
  (0 <= i < len f /\ byte_at f i = Ok (byte_val (nth (Z.to_nat i) f x00)))
  \/ (~ (0 <= i < len f) /\ byte_at f i = Fault OobRead).
Proof.
  destruct (Z_le_dec 0 i); [destruct (Z_lt_dec i (len f)) |].
  - left. split; [lia | apply byte_at_in_bounds; lia].
  - right. split; [lia | apply byte_at_out_of_bounds; lia].
  - right. split; [lia | apply byte_at_out_of_bounds; lia].
Qed.

(** X1: [Read16LE] and [Read32LE] return the little-endian value of the
    two, respectively four, bytes at the offset when these lie inside the
    buffer, a value below [2^16], respectively [2^32]; otherwise they read
    outside the buffer. *)
Theorem Read16LE_Read32LE_decode (f : list byte) (off : Z) :
  (in_bounds f off 2 ->
   Read16LE f off = Ok (field_u16 f off) /\ 0 <= field_u16 f off < 65536)
  /\ (~ in_bounds f off 2 -> Read16LE f off = Fault OobRead)
  /\ (in_bounds f off 4 ->
      Read32LE f off = Ok (field_u32 f off) /\ is_u32 (field_u32 f off))
  /\ (~ in_bounds f off 4 -> Read32LE f off = Fault OobRead).
Proof.
  unfold in_bounds.
  split; [| split; [| split]].
  - intros [H0 H1].
    assert (E : Read16LE f off
                = Ok (Z.lor (byte_val (nth (Z.to_nat off) f x00))
                        (Z.shiftl (byte_val (nth (Z.to_nat (off + 1)) f x00)) 8))).
    { unfold Read16LE. rewrite !byte_at_in_bounds by lia. reflexivity. }
    pose proof (byte_val_range (nth (Z.to_nat off) f x00)) as B0.
    pose proof (byte_val_range (nth (Z.to_nat (off + 1)) f x00)) as B1.
    rewrite lor_shiftl_add in E by (change (2 ^ 8) with 256; lia).
    change (2 ^ 8) with 256 in E.
    assert (Hs : field_u16 f off
                 = byte_val (nth (Z.to_nat off) f x00)
                   + byte_val (nth (Z.to_nat (off + 1)) f x00) * 256).
    { unfold field_u16. rewrite (slice_uncons f off 2) by lia.
      rewrite (slice_uncons f (off + 1) (2 - 1)) by lia.
      change (2 - 1 - 1) with 0. rewrite slice_zero. cbn [le_value]. ring. }
    rewrite Hs. split; [exact E | lia].
  - intros H. unfold Read16LE.
    destruct (byte_at_dec f off) as [[R0 ->] | [R0 ->]]; [| reflexivity].
    destruct (byte_at_dec f (off + 1)) as [[R1 ->] | [R1 ->]];
      [lia | reflexivity].
  - intros [H0 H1].
    destruct (Read32LE f off) as [v | e] eqn:E.
    + apply Read32LE_Ok in E. destruct E as (_ & _ & -> & Hr).
      split; [reflexivity | exact Hr].
    + exfalso. unfold Read32LE in E.
      rewrite !byte_at_in_bounds in E by lia. discriminate.
  - intros H. unfold Read32LE.
    destruct (byte_at_dec f off) as [[R0 ->] | [R0 ->]]; [| reflexivity].
    destruct (byte_at_dec f (off + 1)) as [[R1 ->] | [R1 ->]];
      [| reflexivity].
    destruct (byte_at_dec f (off + 2)) as [[R2 ->] | [R2 ->]];
      [| reflexivity].
    destruct (byte_at_dec f (off + 3)) as [[R3 ->] | [R3 ->]];
      [lia | reflexivity].
Qed.

Lemma Read16LE_Read32LE_decode_witness :
  (Read16LE payload8 2 = Ok (field_u16 payload8 2)
   /\ 0 <= field_u16 payload8 2 < 65536)
  /\ field_u16 payload8 2 = 0x0403
  /\ (Read32LE payload8 4 = Ok (field_u32 payload8 4)
      /\ is_u32 (field_u32 payload8 4))
  /\ field_u32 payload8 4 = 0x08070605
  /\ Read32LE payload8 5 = Fault OobRead.
Proof.
  pose proof (Read16LE_Read32LE_decode payload8 2) as (H16 & _).
  pose proof (Read16LE_Read32LE_decode payload8 4) as (_ & _ & H32 & _).
  pose proof (Read16LE_Read32LE_decode payload8 5) as (_ & _ & _ & H32f).
  split; [apply H16; unfold in_bounds; vm_compute; split; discriminate |].
  split; [reflexivity |].
  split; [apply H32; unfold in_bounds; vm_compute; split; discriminate |].
  split; [reflexivity |].
  apply H32f. unfold in_bounds. vm_compute. intros [_ H]. apply H. reflexivity.
Defined.

(** *** 64-bit reads *)

Lemma read64_loop_total (f : list byte) (off : Z) :
  forall (n : nat) (i acc : Z),
    0 <= off + i -> off + i + Z.of_nat n <= len f ->
    exists v,
      for_range n i
        (fun i acc =>
           b <- byte_at f (off + i) ;; Ok (Z.lor acc (Z.shiftl b (i * 8))))
        acc = Ok v.
Proof.
  induction n as [| n IH]; intros i acc H0 H1.
  - exists acc. reflexivity.
  - cbn [for_range]. rewrite byte_at_in_bounds by lia. cbn [bind].
    apply IH; lia.
Qed.

Lemma read64_loop_fault (f : list byte) (off : Z) :
  forall (n : nat) (i acc : Z),
    ~ (0 <= off + i /\ off + i + Z.of_nat n <= len f) ->
    n <> O ->
    for_range n i
      (fun i acc =>
         b <- byte_at f (off + i) ;; Ok (Z.lor acc (Z.shiftl b (i * 8))))
      acc = Fault OobRead.
Proof.
  induction n as [| n IH]; intros i acc Hbad Hn; [congruence |].
  cbn [for_range].
  destruct (byte_at_dec f (off + i)) as [[R ->] | [R ->]]; [| reflexivity].
  cbn [bind]. apply IH; [lia |].
  destruct n; [lia | discriminate].
Qed.

(** X2: [Read64LE_Signed] returns the two's complement little-endian value
    of the eight bytes at the offset when they lie inside the buffer, a
    value in [-2^63, 2^63) that is negative exactly when the top bit of
    the last byte is set; otherwise it reads outside the buffer. *)
Theorem Read64LE_Signed_decode (f : list byte) (off : Z) :
  (in_bounds f off 8 ->
   Read64LE_Signed f off = Ok (field_i64 f off)
   /\ - 9223372036854775808 <= field_i64 f off < 9223372036854775808
   /\ (field_i64 f off < 0 <-> 128 <= field_u8 f (off + 7)))
  /\ (~ in_bounds f off 8 -> Read64LE_Signed f off = Fault OobRead).
Proof.
  unfold in_bounds. split.
  - intros [H0 H1].
    destruct (read64_loop_total f off 8 0 0) as (v & Hv); [lia | cbn; lia |].
    assert (E : Read64LE_Signed f off = Ok (to_i64 v)).
    { unfold Read64LE_Signed, Read64LE. rewrite Hv. reflexivity. }
    pose proof (Read64LE_Signed_Ok f off (to_i64 v) E) as (_ & _ & Ev).
    rewrite <- Ev. split; [exact E |].
    rewrite Ev. unfold field_i64.
    pose proof (le_value_range (slice f off 8)) as Hr.
    assert (L8 : len (slice f off 8) = 8).
    { unfold len. rewrite slice_length by lia. reflexivity. }
    rewrite L8 in Hr. change (256 ^ 8) with 18446744073709551616 in Hr.
    assert (Hsplit : le_value (slice f off 8)
                     = le_value (slice f off 7)
                       + 72057594037927936 * field_u8 f (off + 7)
                     /\ 0 <= le_value (slice f off 7) < 72057594037927936).
    { unfold field_u8.
      rewrite (slice_uncons f off 8) by lia.
      rewrite (slice_uncons f (off + 1) (8 - 1)) by lia.
      rewrite (slice_uncons f (off + 1 + 1) (8 - 1 - 1)) by lia.
      rewrite (slice_uncons f (off + 1 + 1 + 1) (8 - 1 - 1 - 1)) by lia.
      rewrite (slice_uncons f (off + 1 + 1 + 1 + 1) (8 - 1 - 1 - 1 - 1)) by lia.
      rewrite (slice_uncons f (off + 1 + 1 + 1 + 1 + 1)
                 (8 - 1 - 1 - 1 - 1 - 1)) by lia.
      rewrite (slice_uncons f (off + 1 + 1 + 1 + 1 + 1 + 1)
                 (8 - 1 - 1 - 1 - 1 - 1 - 1)) by lia.
      rewrite (slice_uncons f (off + 1 + 1 + 1 + 1 + 1 + 1 + 1)
                 (8 - 1 - 1 - 1 - 1 - 1 - 1 - 1)) by lia.
      rewrite (slice_uncons f off 7) by lia.
      rewrite (slice_uncons f (off + 1) (7 - 1)) by lia.
      rewrite (slice_uncons f (off + 1 + 1) (7 - 1 - 1)) by lia.
      rewrite (slice_uncons f (off + 1 + 1 + 1) (7 - 1 - 1 - 1)) by lia.
      rewrite (slice_uncons f (off + 1 + 1 + 1 + 1) (7 - 1 - 1 - 1 - 1)) by lia.
      rewrite (slice_uncons f (off + 1 + 1 + 1 + 1 + 1)
                 (7 - 1 - 1 - 1 - 1 - 1)) by lia.
      rewrite (slice_uncons f (off + 1 + 1 + 1 + 1 + 1 + 1)
                 (7 - 1 - 1 - 1 - 1 - 1 - 1)) by lia.
      rewrite (slice_uncons f (off + 7) 1) by lia.
      change (8 - 1 - 1 - 1 - 1 - 1 - 1 - 1 - 1) with 0.
      change (7 - 1 - 1 - 1 - 1 - 1 - 1 - 1) with 0.
      change (1 - 1) with 0.
      rewrite !slice_zero.
      replace (off + 1 + 1 + 1 + 1 + 1 + 1 + 1) with (off + 7) by ring.
      cbn [le_value].
      pose proof (byte_val_range (nth (Z.to_nat off) f x00)).
      pose proof (byte_val_range (nth (Z.to_nat (off + 1)) f x00)).
      pose proof (byte_val_range (nth (Z.to_nat (off + 1 + 1)) f x00)).
      pose proof (byte_val_range (nth (Z.to_nat (off + 1 + 1 + 1)) f x00)).
      pose proof (byte_val_range (nth (Z.to_nat (off + 1 + 1 + 1 + 1)) f x00)).
      pose proof (byte_val_range
                    (nth (Z.to_nat (off + 1 + 1 + 1 + 1 + 1)) f x00)).
      pose proof (byte_val_range
                    (nth (Z.to_nat (off + 1 + 1 + 1 + 1 + 1 + 1)) f x00)).
      split; lia. }
    destruct Hsplit as [Hs Hlow].
    unfold to_i64.
    destruct (Z.ltb_spec (le_value (slice f off 8)) 9223372036854775808);
      split; lia.
  - intros Hbad. unfold Read64LE_Signed, Read64LE.
    rewrite read64_loop_fault; [reflexivity | | discriminate].
    cbn. lia.
Qed.

Lemma Read64LE_Signed_decode_witness :
  Read64LE_Signed payload8 0 = Ok (field_i64 payload8 0)
  /\ - 9223372036854775808 <= field_i64 payload8 0 < 9223372036854775808
  /\ (field_i64 payload8 0 < 0 <-> 128 <= field_u8 payload8 (0 + 7)).
Proof.
  apply (proj1 (Read64LE_Signed_decode payload8 0)).
  unfold in_bounds. vm_compute. split; discriminate.
Defined.

(** *** Strings *)

(** X3: a string returned by [ReadString] is the run of bytes at the
    offset, as long as the string: it has at most [maxLen] characters,
    none of them NUL, and when it is shorter than [maxLen] the byte after
    it is the NUL that stopped the loop. *)
Theorem ReadString_reads_up_to_NUL (f : list byte) :
  forall (maxLen : nat) (off : Z) (s : string),
    ReadString f off maxLen = Ok s ->
    (String.length s <= maxLen)%nat
    /\ list_byte_of_string s = slice f off (Z.of_nat (String.length s))
    /\ ~ In x00 (list_byte_of_string s)
    /\ ((String.length s < maxLen)%nat ->
        byte_at f (off + Z.of_nat (String.length s)) = Ok 0).
Proof.
  induction maxLen as [| n IH]; intros off s H.
  - cbn in H. apply Ok_inj in H. subst s. cbn.
    repeat split; try lia; try tauto.
  - cbn [ReadString] in H.
    apply bind_Ok in H. destruct H as (b & Hb & H).
    destruct (Z.eqb_spec b 0) as [-> | Hnz].
    + apply Ok_inj in H. subst s. cbn [String.length Z.of_nat].
      rewrite Z.add_0_r.
      split; [lia |]. split; [reflexivity |]. split; [cbn; tauto |].
      intros _. exact Hb.
    + apply bind_Ok in H. destruct H as (rest & Hrest & H).
      apply Ok_inj in H. subst s.
      apply IH in Hrest. destruct Hrest as (Hlen & Hbytes & Hnul & Hstop).
      pose proof (byte_at_Ok f off b Hb) as [Hr Eb].
      assert (Hbyte : byte_of_Z b = nth (Z.to_nat off) f x00)
        by (rewrite Eb; apply byte_of_Z_val).
      cbn [String.length].
      split; [lia |]. split; [| split].
      * rewrite Nat2Z.inj_succ. unfold Z.succ.
        rewrite slice_cons by lia.
        unfold list_byte_of_string in *. cbn [list_ascii_of_string map].
        rewrite byte_of_ascii_of_byte, Hbyte. f_equal. exact Hbytes.
      * unfold list_byte_of_string in *. cbn [list_ascii_of_string map In].
        rewrite byte_of_ascii_of_byte.
        intros [E | Hin]; [| exact (Hnul Hin)].
        apply Hnz. rewrite Eb, <- Hbyte, E. reflexivity.
      * intros Hlt. rewrite Nat2Z.inj_succ. unfold Z.succ.
        replace (off + (Z.of_nat (String.length rest) + 1))
          with (off + 1 + Z.of_nat (String.length rest)) by ring.
        apply Hstop. lia.
Qed.

Lemma ReadString_reads_up_to_NUL_witness :
  exists s,
    ReadString (bntx_two_entries 1) 0x2a2 256 = Ok s
    /\ s = "t"%string
    /\ (String.length s <= 256)%nat
    /\ list_byte_of_string s
       = slice (bntx_two_entries 1) 0x2a2 (Z.of_nat (String.length s))
    /\ ~ In x00 (list_byte_of_string s)
    /\ ((String.length s < 256)%nat ->
        byte_at (bntx_two_entries 1) (0x2a2 + Z.of_nat (String.length s))
        = Ok 0).
Proof.
  eexists. split; [vm_compute; reflexivity |].
  split; [reflexivity |].
  apply (ReadString_reads_up_to_NUL (bntx_two_entries 1) 256 0x2a2).
  vm_compute. reflexivity.
Defined.

(** X4: [ReadString] stays inside the buffer when the [maxLen] bytes at the
    offset do, or when a NUL byte comes first; with [maxLen = 0] it reads
    nothing.  When no NUL lies between the offset and the end of the
    buffer and [maxLen] reaches beyond the end, it reads past the end. *)
Theorem ReadString_bounds (f : list byte) (off : Z) (maxLen : nat) :
  (0 <= off ->
   off + Z.of_nat maxLen <= len f
   \/ (exists k, 0 <= k < Z.of_nat maxLen /\ byte_at f (off + k) = Ok 0) ->
   exists s, ReadString f off maxLen = Ok s)
  /\ (maxLen = O -> ReadString f off maxLen = Ok EmptyString)
  /\ (0 <= off <= len f ->
      (forall k, off <= k < len f -> byte_at f k <> Ok 0) ->
      len f - off < Z.of_nat maxLen ->
      ReadString f off maxLen = Fault OobRead).
Proof.
  split; [| split].
  - revert off. induction maxLen as [| n IH]; intros off Hoff Hc.
    + exists EmptyString. reflexivity.
    + cbn [ReadString].
      assert (Hin : 0 <= off < len f).
      { destruct Hc as [Hc | (k & Hk & Hz)]; [lia |].
        apply byte_at_Ok in Hz. lia. }
      rewrite byte_at_in_bounds by exact Hin. cbn [bind].
      destruct (Z.eqb_spec (byte_val (nth (Z.to_nat off) f x00)) 0)
        as [E | Hnz]; [exists EmptyString; reflexivity |].
      destruct (IH (off + 1)) as (rest & Hrest); [lia | |].
      * destruct Hc as [Hc | (k & Hk & Hz)]; [left; lia | right].
        destruct (Z.eq_dec k 0) as [-> | Hk0].
        { rewrite Z.add_0_r, byte_at_in_bounds in Hz by exact Hin.
          apply Ok_inj in Hz. contradiction. }
        exists (k - 1). split; [lia |].
        replace (off + 1 + (k - 1)) with (off + k) by ring. exact Hz.
      * rewrite Hrest. cbn [bind]. eexists. reflexivity.
  - intros ->. reflexivity.
  - revert off. induction maxLen as [| n IH]; intros off Hoff Hnz Hlen.
    + lia.
    + cbn [ReadString].
      destruct (byte_at_dec f off) as [[R E] | [R ->]]; [| reflexivity].
      rewrite E. cbn [bind].
      destruct (Z.eqb_spec (byte_val (nth (Z.to_nat off) f x00)) 0)
        as [Ez | _].
      { exfalso. apply (Hnz off); [lia |]. rewrite E, Ez. reflexivity. }
      rewrite IH; [reflexivity | lia | | lia].
      intros k Hk. apply Hnz. lia.
Qed.

Lemma ReadString_bounds_witness :
  (exists s, ReadString payload8 0 8 = Ok s)
  /\ ReadString payload8 0 9 = Fault OobRead.
Proof.
  pose proof (ReadString_bounds payload8 0 8) as (Hok & _).
  pose proof (ReadString_bounds payload8 0 9) as (_ & _ & Hbad).
  split.
  - apply Hok; [lia | left; vm_compute; discriminate].
  - apply Hbad.
    + vm_compute. split; discriminate.
    + intros k Hk. change (len payload8) with 8 in Hk.
      assert (Hc : k = 0 \/ k = 1 \/ k = 2 \/ k = 3 \/ k = 4 \/ k = 5
                   \/ k = 6 \/ k = 7) by lia.
      destruct Hc as [-> | [-> | [-> | [-> | [-> | [-> | [-> | ->]]]]]]];
        vm_compute; discriminate.
    + vm_compute. reflexivity.
Defined.

(* ====================================================================== *)
(** * Further properties of the rounding helpers                           *)
(* ====================================================================== *)

Lemma sub32_add32_one (n d : Z) : sub32 (add32 n d) 1 = wrap32 (n + d - 1).
Proof.
  unfold sub32, add32.
  replace (wrap32 (n + d) - 1) with (-1 + wrap32 (n + d)) by ring.
  rewrite wrap32_add_r. f_equal. ring.
Qed.

(** X5: [DIV_ROUND_UP n d] divides by zero for [d = 0]; for a nonzero
    divisor it is the ceiling of [n / d] as long as [n + d - 1] fits in 32
    bits, and a quotient whose multiple of [d] falls short of [n] when
    that sum wraps around. *)
Theorem DIV_ROUND_UP_ceiling (n d : Z) :
  is_u32 n -> is_u32 d ->
  (d = 0 -> DIV_ROUND_UP n d = Fault DivByZero)
  /\ (d <> 0 -> n + d - 1 < u32_mod ->
      exists q, DIV_ROUND_UP n d = Ok q /\ (q - 1) * d < n <= q * d)
  /\ (d <> 0 -> u32_mod <= n + d - 1 ->
      exists q, DIV_ROUND_UP n d = Ok q /\ 0 <= q /\ q * d < n).
Proof.
  intros [Hn0 Hn1] [Hd0 Hd1]. unfold DIV_ROUND_UP, div32.
  rewrite sub32_add32_one.
  split; [| split].
  - intros ->. reflexivity.
  - intros Hd Hfit.
    destruct (Z.eqb_spec d 0) as [| _]; [contradiction |].
    rewrite wrap32_small by (unfold is_u32; lia).
    eexists. split; [reflexivity |].
    pose proof (Z.div_mod (n + d - 1) d Hd) as D.
    pose proof (Z.mod_pos_bound (n + d - 1) d ltac:(lia)) as R.
    nia.
  - intros Hd Hwrap.
    destruct (Z.eqb_spec d 0) as [| _]; [contradiction |].
    assert (Hw : wrap32 (n + d - 1) = n + d - 1 - u32_mod).
    { rewrite (wrap32_congr (n + d - 1) (n + d - 1 - u32_mod) 1) by ring.
      apply wrap32_small. unfold is_u32. lia. }
    rewrite Hw.
    eexists. split; [reflexivity |].
    pose proof (Z.div_mod (n + d - 1 - u32_mod) d Hd) as D.
    pose proof (Z.mod_pos_bound (n + d - 1 - u32_mod) d ltac:(lia)) as R.
    split; [apply Z.div_pos; lia |].
    unfold u32_mod in *. nia.
Qed.

Lemma DIV_ROUND_UP_ceiling_witness :
  (exists q, DIV_ROUND_UP 13 4 = Ok q /\ (q - 1) * 4 < 13 <= q * 4)
  /\ (exists q, DIV_ROUND_UP 4294967295 4 = Ok q /\ 0 <= q
                /\ q * 4 < 4294967295).
Proof.
  assert (H13 : is_u32 13) by (unfold is_u32, u32_mod; lia).
  assert (H4 : is_u32 4) by (unfold is_u32, u32_mod; lia).
  assert (Hmax : is_u32 4294967295) by (unfold is_u32, u32_mod; lia).
  split.
  - apply (proj1 (proj2 (DIV_ROUND_UP_ceiling 13 4 H13 H4)));
      [lia | unfold u32_mod; lia].
  - apply (proj2 (proj2 (DIV_ROUND_UP_ceiling 4294967295 4 Hmax H4)));
      [lia | unfold u32_mod; lia].
Defined.

(** X6: for a power of two [2^k] and [x >= 1], [round_up x (2^k)] is the
    least multiple of [2^k] that is at least [x], as long as that multiple
    fits in 32 bits; [round_up 0 y] is 0, and so is [round_up x 0] for
    every 32-bit [x]. *)
Theorem round_up_least_multiple (x k : Z) :
  is_u32 x -> 0 <= k ->
  (1 <= x -> 2 ^ k * ceil_div x (2 ^ k) < u32_mod ->
   round_up x (2 ^ k) = 2 ^ k * ceil_div x (2 ^ k)
   /\ x <= round_up x (2 ^ k) < x + 2 ^ k
   /\ round_up x (2 ^ k) mod 2 ^ k = 0)
  /\ round_up 0 (2 ^ k) = 0
  /\ round_up x 0 = 0.
Proof.
  intros [Hx0 Hx1] Hk.
  assert (Hp : 0 < 2 ^ k) by (apply Z.pow_pos_nonneg; lia).
  split; [| split].
  - intros Hx Hfit.
    rewrite <- round_up_exact_pow2 in Hfit by exact Hk.
    rewrite round_up_no_wrap by (assumption || lia).
    rewrite round_up_exact_pow2 by exact Hk.
    split; [reflexivity |]. unfold ceil_div.
    pose proof (Z.div_mod (x + 2 ^ k - 1) (2 ^ k) ltac:(lia)) as D.
    pose proof (Z.mod_pos_bound (x + 2 ^ k - 1) (2 ^ k) Hp) as R.
    split; [lia |].
    rewrite Z.mul_comm. apply Z.mod_mul. lia.
  - apply round_up_zero.
  - unfold round_up, sub32.
    change (wrap32 (0 - 1)) with 4294967295.
    rewrite Z.lor_comm, lor_all_ones by apply wrap32_range. reflexivity.
Qed.

Lemma round_up_least_multiple_witness :
  round_up 100 (2 ^ 5) = 2 ^ 5 * ceil_div 100 (2 ^ 5)
  /\ 100 <= round_up 100 (2 ^ 5) < 100 + 2 ^ 5
  /\ round_up 100 (2 ^ 5) mod 2 ^ 5 = 0.
Proof.
  apply (proj1 (round_up_least_multiple 100 5
                  ltac:(unfold is_u32, u32_mod; lia) ltac:(lia)));
    [lia | vm_compute; reflexivity].
Defined.

(* ====================================================================== *)
(** * Further properties of the deswizzle engine                           *)
(* ====================================================================== *)

(** The five-digit mixed-radix offset inside a 512-byte GOB. *)
Lemma intra_gob_digits (xb y : Z) :
  0 <= (xb mod 64) / 32 <= 1
  /\ 0 <= (y mod 8) / 2 <= 3
  /\ 0 <= (xb mod 32) / 16 <= 1
  /\ 0 <= y mod 2 <= 1
  /\ 0 <= xb mod 16 <= 15.
Proof.
  pose proof (Z.mod_pos_bound xb 64 ltac:(lia)).
  pose proof (Z.mod_pos_bound xb 32 ltac:(lia)).
  pose proof (Z.mod_pos_bound xb 16 ltac:(lia)).
  pose proof (Z.mod_pos_bound y 8 ltac:(lia)).
  pose proof (Z.mod_pos_bound y 2 ltac:(lia)).
  repeat split; try lia;
    try (apply Z.div_pos; lia);
    try (apply Z.lt_succ_r; apply Z.div_lt_upper_bound; lia).
Qed.

(** A block of [bpp] bytes, [bpp] dividing 16, does not straddle a 16-byte
    unit. *)
Lemma block_inside_unit (x bpp : Z) :
  0 < bpp -> (bpp | 16) ->
  (x * bpp) mod 16 + bpp <= 16 /\ (bpp | (x * bpp) mod 16).
Proof.
  intros Hb [t Ht].
  assert (Ht0 : 0 < t) by nia.
  rewrite Ht.
  rewrite Z.mul_mod_distr_r by lia.
  pose proof (Z.mod_pos_bound x t Ht0). split; [nia |].
  exists (x mod t). reflexivity.
Qed.

(** The exact pitch and padded height of the block-linear layout. *)
Lemma tiled_layout_multiples (gw gh bpp s : Z) :
  0 <= gw * bpp -> 0 <= gh -> 0 <= s ->
  round_up_exact (gw * bpp) 64 = 64 * ceil_div (gw * bpp) 64
  /\ round_up_exact gh (2 ^ s * 8) = 8 * 2 ^ s * ceil_div gh (8 * 2 ^ s)
  /\ gw * bpp <= 64 * ceil_div (gw * bpp) 64
  /\ gh <= 8 * 2 ^ s * ceil_div gh (8 * 2 ^ s).
Proof.
  intros HP Hgh Hs.
  assert (Hp : 0 < 2 ^ s) by (apply Z.pow_pos_nonneg; lia).
  assert (E1 : round_up_exact (gw * bpp) 64 = 64 * ceil_div (gw * bpp) 64)
    by (apply (round_up_exact_pow2 (gw * bpp) 6); lia).
  assert (E2 : round_up_exact gh (2 ^ s * 8)
               = 8 * 2 ^ s * ceil_div gh (8 * 2 ^ s)).
  { replace (2 ^ s * 8) with (2 ^ (s + 3))
      by (rewrite Z.pow_add_r by lia; reflexivity).
    rewrite round_up_exact_pow2 by lia.
    replace (2 ^ (s + 3)) with (8 * 2 ^ s)
      by (rewrite Z.pow_add_r by lia; change (2 ^ 3) with 8; ring).
    reflexivity. }
  split; [exact E1 |]. split; [exact E2 |].
  rewrite <- E1, <- E2.
  split; apply round_up_exact_ge; lia.
Qed.

(** The exact GOB address of a grid block, and the room after it. *)
Lemma gob_address_spec_sum (x y gw bpp s : Z) :
  gob_address_spec x y gw bpp s = wrap32 (gob_sum x y gw bpp s).
Proof. reflexivity. Qed.

Lemma gob_address_inside (gw gh bpp s x y : Z) :
  0 < bpp -> (bpp | 16) -> 0 <= s ->
  0 <= x < gw -> 0 <= y < gh ->
  0 <= gob_sum x y gw bpp s
  /\ gob_sum x y gw bpp s + bpp
     <= 64 * ceil_div (gw * bpp) 64 * (8 * 2 ^ s * ceil_div gh (8 * 2 ^ s))
  /\ (bpp | gob_sum x y gw bpp s).
Proof.
  intros Hbpp Hdiv Hs Hx Hy. unfold gob_sum. cbv zeta.
  assert (Hp : 0 < 2 ^ s) by (apply Z.pow_pos_nonneg; lia).
  destruct (tiled_layout_multiples gw gh bpp s ltac:(nia) ltac:(lia) Hs)
    as (_ & _ & HW & HH).
  destruct (intra_gob_digits (x * bpp) y) as (D1 & D2 & D3 & D4 & D5).
  destruct (block_inside_unit x bpp Hbpp Hdiv) as [Hunit Hmult].
  set (bh := 2 ^ s) in *.
  set (W := ceil_div (gw * bpp) 64) in *.
  set (Hh := ceil_div gh (8 * bh)) in *.
  assert (HA : 0 <= y / (8 * bh) < Hh).
  { split; [apply Z.div_pos; lia |].
    apply Z.div_lt_upper_bound; lia. }
  assert (HB : 0 <= x * bpp / 64 < W).
  { split; [apply Z.div_pos; nia |].
    apply Z.div_lt_upper_bound; [lia |]. nia. }
  assert (HC : 0 <= (y mod (8 * bh)) / 8 < bh).
  { pose proof (Z.mod_pos_bound y (8 * bh) ltac:(lia)).
    split; [apply Z.div_pos; lia |].
    apply Z.div_lt_upper_bound; lia. }
  set (A := y / (8 * bh)) in *. set (B := x * bpp / 64) in *.
  set (C := (y mod (8 * bh)) / 8) in *.
  set (i1 := (x * bpp) mod 64 / 32) in *. set (i2 := (y mod 8) / 2) in *.
  set (i3 := (x * bpp) mod 32 / 16) in *. set (i4 := y mod 2) in *.
  set (i5 := (x * bpp) mod 16) in *.
  match goal with
  | |- 0 <= ?e /\ _ => set (sum := e)
  end.
  assert (Hsum : sum = 512 * (bh * (A * W + B) + C)
                       + (i1 * 256 + i2 * 64 + i3 * 32 + i4 * 16 + i5))
    by (unfold sum; ring).
  assert (HAW : 0 <= A * W) by nia.
  assert (HG0 : 0 <= bh * (A * W + B) + C) by nia.
  assert (HG1 : bh * (A * W + B) + C + 1 <= bh * (A * W + B + 1)) by nia.
  assert (HG2 : bh * (A * W + B + 1) <= bh * (W * (A + 1))) by nia.
  assert (HG3 : bh * (W * (A + 1)) <= bh * (W * Hh)) by nia.
  split; [lia |]. split.
  - replace (64 * W * (8 * bh * Hh)) with (512 * (bh * (W * Hh))) by ring.
    lia.
  - rewrite Hsum. destruct Hdiv as [t Ht]. destruct Hmult as [m Hm].
    exists (32 * t * (bh * (A * W + B) + C)
            + (16 * i1 + 4 * i2 + 2 * i3 + i4) * t + m).
    rewrite Hm. nia.
Qed.

Lemma source_pos_inside_surface
        (gw gh bpp tMode al s x y : Z) :
  0 < bpp -> 1 <= al -> 0 <= s < 29 ->
  tMode = 0 \/ (bpp | 16) ->
  0 <= x < gw -> 0 <= y < gh ->
  surface_size_exact gw gh bpp tMode al s < u32_mod ->
  exists pos,
    source_pos tMode (fst (surface_layout gw gh bpp tMode al (2 ^ s)))
               gw bpp (2 ^ s) x y = Ok pos
    /\ 0 <= pos
    /\ pos + bpp <= snd (surface_layout gw gh bpp tMode al (2 ^ s))
    /\ add32 pos bpp = pos + bpp.
Proof.
  intros Hbpp Hal Hs Hmode Hx Hy Hfit.
  assert (Hsurf : snd (surface_layout gw gh bpp tMode al (2 ^ s))
                  = surface_size_exact gw gh bpp tMode al s)
    by (apply surface_size_no_wrap; lia).
  rewrite Hsurf.
  destruct (Z.eq_dec tMode 0) as [-> | Hnz].
  - unfold surface_size_exact in *. cbn [Z.eqb] in *.
    destruct (linear_layout_no_wrap gw gh bpp al (2 ^ s)
                ltac:(lia) ltac:(lia) Hbpp Hal Hfit) as (Hlay & Hp & Hsf).
    rewrite Hlay. cbn [fst]. unfold source_pos. cbn [Z.eqb].
    set (pitch := round_up_exact (gw * bpp) 32) in *.
    assert (Hrb : 0 < gw * bpp) by nia.
    assert (Hp0 : 0 < pitch) by lia.
    assert (H1 : 0 <= y * pitch <= (gh - 1) * pitch) by nia.
    assert (H2 : 0 <= x * bpp /\ x * bpp + bpp <= gw * bpp) by nia.
    assert (H3 : (gh - 1) * pitch + pitch <= pitch * gh) by nia.
    eexists. split; [reflexivity |].
    unfold add32, mul32.
    rewrite (wrap32_small (y * pitch)) by (unfold is_u32; lia).
    rewrite (wrap32_small (x * bpp)) by (unfold is_u32; lia).
    rewrite (wrap32_small (y * pitch + x * bpp)) by (unfold is_u32; lia).
    rewrite (wrap32_small (y * pitch + x * bpp + bpp)) by (unfold is_u32; lia).
    lia.
  - destruct Hmode as [E | Hdiv]; [contradiction |].
    unfold source_pos. destruct (Z.eqb_spec tMode 0) as [E | _];
      [contradiction |].
    rewrite getAddrBlockLinear_exact by exact Hs.
    unfold surface_size_exact in *.
    destruct (Z.eqb_spec tMode 0) as [E | _]; [contradiction |].
    destruct (tiled_layout_multiples gw gh bpp s ltac:(nia) ltac:(lia)
                ltac:(lia)) as (E1 & E2 & _ & _).
    assert (Gs : round_up_exact (gw * bpp) 64 * round_up_exact gh (2 ^ s * 8)
                 <= round_up_exact
                      (round_up_exact (gw * bpp) 64
                       * round_up_exact gh (2 ^ s * 8)) al).
    { apply round_up_exact_ge; [| lia].
      rewrite E1, E2.
      assert (0 < 2 ^ s) by (apply Z.pow_pos_nonneg; lia).
      assert (0 <= ceil_div (gw * bpp) 64)
        by (unfold ceil_div; apply Z.div_pos; nia).
      assert (0 <= ceil_div gh (8 * 2 ^ s))
        by (unfold ceil_div; apply Z.div_pos; nia).
      nia. }
    assert (Gs' : 64 * ceil_div (gw * bpp) 64
                  * (8 * 2 ^ s * ceil_div gh (8 * 2 ^ s))
                  <= round_up_exact
                       (round_up_exact (gw * bpp) 64
                        * round_up_exact gh (2 ^ s * 8)) al)
      by (rewrite <- E1, <- E2; exact Gs).
    destruct (gob_address_inside gw gh bpp s x y Hbpp Hdiv ltac:(lia) Hx Hy)
      as (S0 & S1 & _).
    rewrite gob_address_spec_sum.
    set (sum := gob_sum x y gw bpp s) in *.
    exists sum.
    rewrite (wrap32_small sum) by (unfold is_u32; lia).
    split; [reflexivity |]. split; [lia |]. split; [lia |].
    unfold add32. apply wrap32_small. unfold is_u32. lia.
Qed.

(** X7: for a nonzero alignment, a block height exponent below 29 and a
    surface size that fits in 32 bits when computed without wrap-around,
    the source range [pos, pos + bpp) of every grid block lies inside the
    surface [deswizzle] allocates, so the first test of its guard holds
    for every block: in linear mode for any positive block size, in
    block-linear mode for block sizes that divide 16. *)
Theorem block_source_range_inside_surface
        (gw gh bpp tMode al s x y : Z) :
  0 < bpp -> 1 <= al -> 0 <= s < 29 ->
  tMode = 0 \/ (bpp | 16) ->
  0 <= x < gw -> 0 <= y < gh ->
  surface_size_exact gw gh bpp tMode al s < u32_mod ->
  exists pos,
    source_pos tMode (fst (surface_layout gw gh bpp tMode al (2 ^ s)))
               gw bpp (2 ^ s) x y = Ok pos
    /\ 0 <= pos
    /\ pos + bpp <= snd (surface_layout gw gh bpp tMode al (2 ^ s))
    /\ add32 pos bpp = pos + bpp.
Proof. apply source_pos_inside_surface. Qed.

Lemma block_source_range_inside_surface_witness :
  exists pos,
    source_pos 1 (fst (surface_layout 64 64 16 1 512 (2 ^ 4)))
               64 16 (2 ^ 4) 63 63 = Ok pos
    /\ 0 <= pos
    /\ pos + 16 <= snd (surface_layout 64 64 16 1 512 (2 ^ 4))
    /\ add32 pos 16 = pos + 16.
Proof.
  apply (block_source_range_inside_surface 64 64 16 1 512 4 63 63);
    try lia.
  - right. exists 1. reflexivity.
  - vm_compute. reflexivity.
Defined.

(** *** The block-linear address map is one-to-one *)

(** A coordinate is recovered from the digits the address formula uses. *)
Lemma gob_digits_of_y (y bh : Z) :
  0 < bh ->
  y = 8 * bh * (y / (8 * bh)) + 8 * ((y mod (8 * bh)) / 8)
      + 2 * ((y mod 8) / 2) + y mod 2.
Proof.
  intros Hbh.
  pose proof (Z.div_mod y (8 * bh) ltac:(lia)) as D1.
  pose proof (Z.div_mod (y mod (8 * bh)) 8 ltac:(lia)) as D2.
  assert (M1 : (y mod (8 * bh)) mod 8 = y mod 8)
    by (apply Z.mod_mod_divide; exists bh; ring).
  pose proof (Z.div_mod (y mod 8) 2 ltac:(lia)) as D3.
  assert (M2 : (y mod 8) mod 2 = y mod 2)
    by (apply Z.mod_mod_divide; exists 4; reflexivity).
  lia.
Qed.

Lemma gob_digits_of_x (xb : Z) :
  xb = 64 * (xb / 64) + 32 * ((xb mod 64) / 32) + 16 * ((xb mod 32) / 16)
       + xb mod 16.
Proof.
  pose proof (Z.div_mod xb 64 ltac:(lia)) as D1.
  pose proof (Z.div_mod (xb mod 64) 32 ltac:(lia)) as D2.
  assert (M1 : (xb mod 64) mod 32 = xb mod 32)
    by (apply Z.mod_mod_divide; exists 2; reflexivity).
  pose proof (Z.div_mod (xb mod 32) 16 ltac:(lia)) as D3.
  assert (M2 : (xb mod 32) mod 16 = xb mod 16)
    by (apply Z.mod_mod_divide; exists 2; reflexivity).
  lia.
Qed.

Lemma gob_sum_injective (gw gh bpp s x y x' y' : Z) :
  0 < bpp -> 0 <= s ->
  0 <= x < gw -> 0 <= y < gh -> 0 <= x' < gw -> 0 <= y' < gh ->
  gob_sum x y gw bpp s = gob_sum x' y' gw bpp s ->
  x = x' /\ y = y'.
Proof.
  intros Hbpp Hs Hx Hy Hx' Hy' E.
  assert (Hp : 0 < 2 ^ s) by (apply Z.pow_pos_nonneg; lia).
  destruct (tiled_layout_multiples gw gh bpp s ltac:(nia) ltac:(lia) Hs)
    as (_ & _ & HW & _).
  pose proof (gob_digits_of_y y (2 ^ s) Hp) as Ry.
  pose proof (gob_digits_of_y y' (2 ^ s) Hp) as Ry'.
  pose proof (gob_digits_of_x (x * bpp)) as Rx.
  pose proof (gob_digits_of_x (x' * bpp)) as Rx'.
  destruct (intra_gob_digits (x * bpp) y) as (D1 & D2 & D3 & D4 & D5).
  destruct (intra_gob_digits (x' * bpp) y') as (D1' & D2' & D3' & D4' & D5').
  unfold gob_sum in E. cbv zeta in E.
  set (bh := 2 ^ s) in *.
  set (W := ceil_div (gw * bpp) 64) in *.
  assert (HB : 0 <= x * bpp / 64 < W).
  { split; [apply Z.div_pos; nia |].
    apply Z.div_lt_upper_bound; [lia |]. nia. }
  assert (HB' : 0 <= x' * bpp / 64 < W).
  { split; [apply Z.div_pos; nia |].
    apply Z.div_lt_upper_bound; [lia |]. nia. }
  assert (HC : 0 <= (y mod (8 * bh)) / 8 < bh).
  { pose proof (Z.mod_pos_bound y (8 * bh) ltac:(lia)).
    split; [apply Z.div_pos; lia |].
    apply Z.div_lt_upper_bound; lia. }
  assert (HC' : 0 <= (y' mod (8 * bh)) / 8 < bh).
  { pose proof (Z.mod_pos_bound y' (8 * bh) ltac:(lia)).
    split; [apply Z.div_pos; lia |].
    apply Z.div_lt_upper_bound; lia. }
  set (A := y / (8 * bh)) in *. set (B := x * bpp / 64) in *.
  set (C := (y mod (8 * bh)) / 8) in *.
  set (i1 := (x * bpp) mod 64 / 32) in *. set (i2 := (y mod 8) / 2) in *.
  set (i3 := (x * bpp) mod 32 / 16) in *. set (i4 := y mod 2) in *.
  set (i5 := (x * bpp) mod 16) in *.
  set (A' := y' / (8 * bh)) in *. set (B' := x' * bpp / 64) in *.
  set (C' := (y' mod (8 * bh)) / 8) in *.
  set (j1 := (x' * bpp) mod 64 / 32) in *. set (j2 := (y' mod 8) / 2) in *.
  set (j3 := (x' * bpp) mod 32 / 16) in *. set (j4 := y' mod 2) in *.
  set (j5 := (x' * bpp) mod 16) in *.
  set (G := bh * (W * A + B) + C). set (G' := bh * (W * A' + B') + C').
  assert (E2 : 512 * G + (i1 * 256 + i2 * 64 + i3 * 32 + i4 * 16 + i5)
               = 512 * G' + (j1 * 256 + j2 * 64 + j3 * 32 + j4 * 16 + j5)).
  { unfold G, G'. ring_simplify. ring_simplify in E. lia. }
  assert (EG : G = G') by lia.
  assert (Edig : i1 = j1 /\ i2 = j2 /\ i3 = j3 /\ i4 = j4 /\ i5 = j5) by lia.
  destruct Edig as (E1' & E2' & E3' & E4' & E5').
  unfold G, G' in EG.
  destruct (Z.div_mod_unique bh (W * A + B) (W * A' + B') C C'
              ltac:(left; lia) ltac:(left; lia) EG) as [EQ EC].
  destruct (Z.div_mod_unique W A A' B B'
              ltac:(left; lia) ltac:(left; lia) EQ) as [EA EB].
  assert (Ey : y = y') by lia.
  assert (Exb : x * bpp = x' * bpp) by lia.
  split; [nia | exact Ey].
Qed.

(** X8: in block-linear mode, for a block size that divides 16, a nonzero
    alignment, a block height exponent below 29 and a surface size that
    fits in 32 bits when computed without wrap-around, the address map of
    [deswizzle] is one-to-one on the grid, and more: the source ranges of
    two different blocks do not overlap, so no payload byte is copied to
    two places.  (Without the size condition the offsets wrap and blocks
    can share an offset.) *)
Theorem tiled_blocks_do_not_overlap
        (gw gh bpp tMode pitch al s x y x' y' : Z) :
  0 < bpp -> (bpp | 16) -> 1 <= al -> 0 <= s < 29 -> tMode <> 0 ->
  0 <= x < gw -> 0 <= y < gh -> 0 <= x' < gw -> 0 <= y' < gh ->
  surface_size_exact gw gh bpp tMode al s < u32_mod ->
  (x, y) <> (x', y') ->
  exists pos pos',
    source_pos tMode pitch gw bpp (2 ^ s) x y = Ok pos
    /\ source_pos tMode pitch gw bpp (2 ^ s) x' y' = Ok pos'
    /\ (pos + bpp <= pos' \/ pos' + bpp <= pos).
Proof.
  intros Hbpp Hdiv Hal Hs Hmode Hx Hy Hx' Hy' Hfit Hne.
  unfold source_pos. destruct (Z.eqb_spec tMode 0) as [E | _];
    [contradiction |].
  rewrite !getAddrBlockLinear_exact by exact Hs.
  rewrite !gob_address_spec_sum.
  unfold surface_size_exact in Hfit.
  destruct (Z.eqb_spec tMode 0) as [E | _]; [contradiction |].
  destruct (tiled_layout_multiples gw gh bpp s ltac:(nia) ltac:(lia)
              ltac:(lia)) as (E1 & E2 & _ & _).
  assert (Gs : round_up_exact (gw * bpp) 64 * round_up_exact gh (2 ^ s * 8)
               <= round_up_exact
                    (round_up_exact (gw * bpp) 64
                     * round_up_exact gh (2 ^ s * 8)) al).
  { apply round_up_exact_ge; [| lia].
    rewrite E1, E2.
    assert (0 < 2 ^ s) by (apply Z.pow_pos_nonneg; lia).
    assert (0 <= ceil_div (gw * bpp) 64)
      by (unfold ceil_div; apply Z.div_pos; nia).
    assert (0 <= ceil_div gh (8 * 2 ^ s))
      by (unfold ceil_div; apply Z.div_pos; nia).
    nia. }
  rewrite E1, E2 in Gs at 1.
  destruct (gob_address_inside gw gh bpp s x y Hbpp Hdiv ltac:(lia) Hx Hy)
    as (S0 & S1 & [m Hm]).
  destruct (gob_address_inside gw gh bpp s x' y' Hbpp Hdiv ltac:(lia) Hx' Hy')
    as (S0' & S1' & [m' Hm']).
  rewrite (wrap32_small (gob_sum x y gw bpp s)) by (unfold is_u32; lia).
  rewrite (wrap32_small (gob_sum x' y' gw bpp s)) by (unfold is_u32; lia).
  eexists. eexists. split; [reflexivity |]. split; [reflexivity |].
  assert (Hdiff : gob_sum x y gw bpp s <> gob_sum x' y' gw bpp s).
  { intros E. apply Hne.
    destruct (gob_sum_injective gw gh bpp s x y x' y' Hbpp ltac:(lia)
                Hx Hy Hx' Hy' E) as [-> ->]. reflexivity. }
  rewrite Hm, Hm' in *.
  assert (m <> m') by (intros ->; apply Hdiff; reflexivity).
  nia.
Qed.

Lemma tiled_blocks_do_not_overlap_witness :
  exists pos pos',
    source_pos 1 0 64 16 (2 ^ 4) 0 1 = Ok pos
    /\ source_pos 1 0 64 16 (2 ^ 4) 1 0 = Ok pos'
    /\ (pos + 16 <= pos' \/ pos' + 16 <= pos).
Proof.
  apply (tiled_blocks_do_not_overlap 64 64 16 1 0 512 4 0 1 1 0);
    try lia.
  - exists 1. reflexivity.
  - vm_compute. reflexivity.
  - discriminate.
Defined.

(** *** What a complete payload is turned into *)

Lemma slice_before_copy (res sl tl : list byte) (k off n : Z) :
  0 <= off -> 0 <= n -> off + n <= k -> k <= len res ->
  slice (firstn (Z.to_nat k) res ++ sl ++ tl) off n = slice res off n.
Proof.
  intros Ho Hn Hk Hlen.
  assert (L : len (firstn (Z.to_nat k) res) = k)
    by (unfold len in *; rewrite length_firstn; lia).
  rewrite slice_app_l by lia. apply slice_firstn; lia.
Qed.

Lemma slice_of_copy (res sl tl : list byte) (k n : Z) :
  0 <= k <= len res -> List.length sl = Z.to_nat n ->
  slice (firstn (Z.to_nat k) res ++ sl ++ tl) k n = sl.
Proof.
  intros Hk Hsl.
  assert (L : len (firstn (Z.to_nat k) res) = k)
    by (unfold len in *; rewrite length_firstn; lia).
  replace k with (len (firstn (Z.to_nat k) res) + 0) at 2 by lia.
  rewrite slice_app_r by lia.
  unfold slice. cbn [Z.to_nat skipn].
  rewrite firstn_app, <- Hsl, Nat.sub_diag. cbn [firstn].
  rewrite app_nil_r. apply firstn_all.
Qed.

Lemma dest_offset_exact (gw gh bpp x y : Z) :
  0 < bpp -> gw * gh * bpp < u32_mod ->
  0 <= x < gw -> 0 <= y < gh ->
  mul32 (add32 (mul32 y gw) x) bpp = (y * gw + x) * bpp
  /\ 0 <= (y * gw + x) * bpp
  /\ (y * gw + x) * bpp + bpp <= gw * gh * bpp.
Proof.
  intros Hbpp Hfit Hx Hy.
  assert (Hcell : y * gw + x + 1 <= gw * gh) by nia.
  assert (Hcellb : (y * gw + x + 1) * bpp <= gw * gh * bpp) by nia.
  assert (Hyg : 0 <= y * gw) by nia.
  assert (Hle : y * gw + x < (y * gw + x + 1) * bpp) by nia.
  unfold mul32, add32.
  rewrite (wrap32_small (y * gw)) by (unfold is_u32; nia).
  rewrite (wrap32_small (y * gw + x)) by (unfold is_u32; lia).
  rewrite (wrap32_small ((y * gw + x) * bpp)) by (unfold is_u32; nia).
  split; [reflexivity |]. nia.
Qed.

Section CompletePayload.

(** A well-formed surface and a payload that covers it. *)
Variables gw gh bpp tMode al s : Z.
Variable payload : list byte.
Hypothesis Hbpp : 0 < bpp.
Hypothesis Hal : 1 <= al.
Hypothesis Hs : 0 <= s < 29.
Hypothesis Hmode : tMode = 0 \/ (bpp | 16).
Hypothesis Hgw : 0 <= gw.
Hypothesis Hgh : 0 <= gh.
Hypothesis Hfit : surface_size_exact gw gh bpp tMode al s < u32_mod.
Variables pitch surf : Z.
Hypothesis Hlayout : surface_layout gw gh bpp tMode al (2 ^ s) = (pitch, surf).
Hypothesis Hpayload : surf <= len payload.

Lemma expected_size_fits : gw * gh * bpp <= surf /\ surf < u32_mod.
Proof.
  destruct (surface_size_no_wrap gw gh bpp tMode al s Hgw Hgh
              ltac:(lia) Hal ltac:(lia) Hfit) as [Heq Hge].
  rewrite Hlayout in Heq. cbn [snd] in Heq. rewrite Heq.
  split; [exact Hge | exact Hfit].
Qed.

Lemma copy_block (x y : Z) (res : list byte) :
  0 <= x < gw -> 0 <= y < gh ->
  copied gw gh bpp tMode pitch surf s payload (y * gw + x) res ->
  exists res',
    deswizzle_block tMode pitch surf gw bpp (2 ^ s) payload y x res = Ok res'
    /\ copied gw gh bpp tMode pitch surf s payload (y * gw + (x + 1)) res'.
Proof.
  intros Hx Hy [Hlen Hdone].
  destruct expected_size_fits as [HE HM].
  destruct (source_pos_inside_surface gw gh bpp tMode al s x y
              Hbpp Hal Hs Hmode Hx Hy Hfit) as (pos & Hpos & Hp0 & Hp1 & Hadd).
  rewrite Hlayout in Hpos, Hp1. cbn [fst snd] in Hpos, Hp1.
  destruct (dest_offset_exact gw gh bpp x y Hbpp ltac:(lia) Hx Hy)
    as (Hdst & Hd0 & Hd1).
  unfold deswizzle_block. rewrite Hpos. cbn [bind].
  rewrite Hdst, Hadd.
  set (k := (y * gw + x) * bpp) in *.
  replace (add32 k bpp) with (k + bpp)
    by (unfold add32; rewrite wrap32_small;
        [reflexivity | unfold is_u32; lia]).
  destruct (Z.leb_spec (pos + bpp) surf) as [_ | Hbad]; [| lia].
  destruct (Z.leb_spec (k + bpp) (len payload)) as [_ | Hbad]; [| lia].
  cbn [andb]. rewrite memcpy_in_bounds by lia.
  eexists. split; [reflexivity |].
  assert (Hsl : List.length (slice payload pos bpp) = Z.to_nat bpp)
    by (apply slice_length; lia).
  split.
  - unfold len in *.
    rewrite !length_app, length_firstn, length_skipn, Hsl. lia.
  - intros x' y' Hx' Hy' Hidx.
    destruct (Z.eq_dec (y' * gw + x') (y * gw + x)) as [E | Hne].
    + assert (Exy : y' = y /\ x' = x).
      { destruct (Z.div_mod_unique gw y' y x' x ltac:(left; lia)
                    ltac:(left; lia)) as [-> ->]; [lia | tauto]. }
      destruct Exy as [-> ->].
      exists pos. split; [exact Hpos |].
      fold k. apply slice_of_copy; [lia | exact Hsl].
    + destruct (Hdone x' y' Hx' Hy' ltac:(lia)) as (pos' & Hpos' & Hs').
      exists pos'. split; [exact Hpos' |].
      rewrite <- Hs'.
      assert (y' * gw + x' + 1 <= y * gw + x) by lia.
      apply slice_before_copy; try nia.
Qed.

Lemma copy_all_blocks :
  exists out,
    for_range (Z.to_nat gh) 0
      (deswizzle_row tMode pitch surf gw bpp (2 ^ s) payload)
      (repeat x00 (Z.to_nat surf)) = Ok out
    /\ copied gw gh bpp tMode pitch surf s payload (gh * gw) out.
Proof.
  destruct expected_size_fits as [HE HM].
  destruct (for_range_total (fun y res => copied gw gh bpp tMode pitch surf s payload (y * gw) res)
              (deswizzle_row tMode pitch surf gw bpp (2 ^ s) payload)
              (Z.to_nat gh) 0 (repeat x00 (Z.to_nat surf)))
    as (out & Hrun & Hout).
  - intros y res Hy Hc. unfold deswizzle_row.
    destruct (for_range_total (fun x r =>
                   copied gw gh bpp tMode pitch surf s payload (y * gw + x) r)
                (deswizzle_block tMode pitch surf gw bpp (2 ^ s) payload y)
                (Z.to_nat gw) 0 res)
      as (res' & Hrow & Hc').
    + intros x r Hx Hr. apply copy_block; [lia | lia | exact Hr].
    + rewrite Z.add_0_r. exact Hc.
    + exists res'. split; [exact Hrow |].
      replace ((y + 1) * gw) with (y * gw + (0 + Z.of_nat (Z.to_nat gw)))
        by (rewrite Z2Nat.id by lia; ring).
      exact Hc'.
  - split.
    + apply len_repeat. nia.
    + intros x y Hx Hy Hidx. nia.
  - exists out. split; [exact Hrun |].
    replace (gh * gw) with ((0 + Z.of_nat (Z.to_nat gh)) * gw)
      by (rewrite Z2Nat.id by lia; ring).
    exact Hout.
Qed.

End CompletePayload.

(** X9: for a positive block size (in block-linear mode one that divides
    16), a nonzero alignment, a block height exponent below 29, a surface
    size that fits in 32 bits when computed without wrap-around and a
    payload at least as long as the surface, [deswizzle] completes without
    a fault, its output has the surface size, and every grid block
    [(x, y)] of the output, at row-major offset [(y * gridW + x) * bpp],
    holds the [bpp] payload bytes found at the source offset of that
    block. *)
Theorem deswizzle_gathers_blocks
        (width height blkWidth blkHeight bpp tMode al s : Z)
        (payload : list byte) (gridW gridH : Z) :
  0 < bpp -> 1 <= al -> 0 <= s < 29 ->
  tMode = 0 \/ (bpp | 16) ->
  0 <= blkWidth -> 0 <= blkHeight ->
  DIV_ROUND_UP width blkWidth = Ok gridW ->
  DIV_ROUND_UP height blkHeight = Ok gridH ->
  surface_size_exact gridW gridH bpp tMode al s < u32_mod ->
  snd (surface_layout gridW gridH bpp tMode al (2 ^ s)) <= len payload ->
  exists out,
    deswizzle width height blkWidth blkHeight bpp tMode al s payload = Ok out
    /\ len out = snd (surface_layout gridW gridH bpp tMode al (2 ^ s))
    /\ forall x y, 0 <= x < gridW -> 0 <= y < gridH ->
         exists pos,
           source_pos tMode (fst (surface_layout gridW gridH bpp tMode al
                                                 (2 ^ s)))
                      gridW bpp (2 ^ s) x y = Ok pos
           /\ slice out ((y * gridW + x) * bpp) bpp = slice payload pos bpp.
Proof.
  intros Hbpp Hal Hs Hmode Hbw Hbh Hgw Hgh Hfit Hpayload.
  destruct (DIV_ROUND_UP_range _ _ _ Hbw Hgw) as [Hgw0 _].
  destruct (DIV_ROUND_UP_range _ _ _ Hbh Hgh) as [Hgh0 _].
  destruct (surface_layout gridW gridH bpp tMode al (2 ^ s))
    as [pitch surf] eqn:Hlayout.
  cbn [fst snd] in *.
  destruct (copy_all_blocks gridW gridH bpp tMode al s payload
              Hbpp Hal Hs Hmode Hgw0 Hgh0 Hfit pitch surf Hlayout Hpayload)
    as (out & Hrun & Hlen & Hall).
  exists out. split; [| split].
  - unfold deswizzle. rewrite shl_one_small by lia. cbn [bind].
    rewrite Hgw, Hgh. cbn [bind]. rewrite Hlayout. exact Hrun.
  - exact Hlen.
  - intros x y Hx Hy. apply Hall; [exact Hx | exact Hy | nia].
Qed.

Lemma deswizzle_gathers_blocks_witness :
  exists out,
    deswizzle 8 8 4 4 16 1 512 0 (repeat x11 512) = Ok out
    /\ len out = snd (surface_layout 2 2 16 1 512 (2 ^ 0))
    /\ forall x y, 0 <= x < 2 -> 0 <= y < 2 ->
         exists pos,
           source_pos 1 (fst (surface_layout 2 2 16 1 512 (2 ^ 0)))
                      2 16 (2 ^ 0) x y = Ok pos
           /\ slice out ((y * 2 + x) * 16) 16
              = slice (repeat x11 512) pos 16.
Proof.
  apply (deswizzle_gathers_blocks 8 8 4 4 16 1 512 0 (repeat x11 512) 2 2);
    try lia; try reflexivity;
    try (right; exists 1; reflexivity); try (vm_compute; discriminate).
Defined.

(** *** What the engine never does *)

Lemma for_range_ok_or {S : Type} (P : S -> Prop) (e0 : fault)
      (body : Z -> S -> result S) :
  forall (n : nat) (i : Z) (st : S),
    (forall j t, i <= j < i + Z.of_nat n -> P t ->
       (exists t', body j t = Ok t' /\ P t') \/ body j t = Fault e0) ->
    P st ->
    (exists st', for_range n i body st = Ok st' /\ P st')
    \/ for_range n i body st = Fault e0.
Proof.
  induction n as [| n IH]; intros i st Hstep Hst.
  - left. exists st. split; [reflexivity | exact Hst].
  - cbn [for_range].
    destruct (Hstep i st ltac:(lia) Hst) as [(t & Ht & HP) | Hf].
    + rewrite Ht. cbn [bind]. apply IH; [| exact HP].
      intros j u Hj. apply Hstep. lia.
    + right. rewrite Hf. reflexivity.
Qed.

Lemma for_range_id {S : Type} (body : Z -> S -> result S) :
  (forall j t, body j t = Ok t) ->
  forall (n : nat) (i : Z) (st : S), for_range n i body st = Ok st.
Proof.
  intros Hid. induction n as [| n IH]; intros i st; [reflexivity |].
  cbn [for_range]. rewrite Hid. cbn [bind]. apply IH.
Qed.

Lemma source_pos_total (tMode pitch gw bpp s x y : Z) :
  0 <= s < 29 ->
  exists pos, source_pos tMode pitch gw bpp (2 ^ s) x y = Ok pos /\ 0 <= pos.
Proof.
  intros Hs. unfold source_pos. destruct (tMode =? 0).
  - eexists. split; [reflexivity | apply wrap32_range].
  - rewrite getAddrBlockLinear_exact by exact Hs.
    eexists. split; [reflexivity | apply wrap32_range].
Qed.

Lemma deswizzle_ok_or_oob_read
        (width height blkWidth blkHeight bpp tMode al s : Z)
        (payload : list byte) (gridW gridH : Z) :
  0 <= bpp -> 1 <= al -> 0 <= s < 29 ->
  0 <= blkWidth -> 0 <= blkHeight ->
  DIV_ROUND_UP width blkWidth = Ok gridW ->
  DIV_ROUND_UP height blkHeight = Ok gridH ->
  surface_size_exact gridW gridH bpp tMode al s < u32_mod ->
  (exists out,
     deswizzle width height blkWidth blkHeight bpp tMode al s payload = Ok out
     /\ len out = snd (surface_layout gridW gridH bpp tMode al (2 ^ s)))
  \/ deswizzle width height blkWidth blkHeight bpp tMode al s payload
     = Fault OobRead.
Proof.
  intros Hbpp Hal Hs Hbw Hbh Hgw Hgh Hfit.
  destruct (DIV_ROUND_UP_range _ _ _ Hbw Hgw) as [Hgw0 _].
  destruct (DIV_ROUND_UP_range _ _ _ Hbh Hgh) as [Hgh0 _].
  destruct (surface_size_no_wrap gridW gridH bpp tMode al s Hgw0 Hgh0
              Hbpp Hal ltac:(lia) Hfit) as [Heq Hge].
  unfold deswizzle. rewrite shl_one_small by lia. cbn [bind].
  rewrite Hgw, Hgh. cbn [bind].
  destruct (surface_layout gridW gridH bpp tMode al (2 ^ s))
    as [pitch surf]. cbn [snd] in *.
  assert (Hsurf0 : 0 <= surf) by nia.
  apply (for_range_ok_or (fun r => len r = surf)).
  2: { apply len_repeat. exact Hsurf0. }
  intros y res Hy Hlen. unfold deswizzle_row.
  apply (for_range_ok_or (fun r => len r = surf)); [| exact Hlen].
  intros x r Hx Hr. unfold deswizzle_block.
  destruct (source_pos_total tMode pitch gridW bpp s x y Hs)
    as (pos & -> & Hpos). cbn [bind].
  destruct (_ && _); [| left; exists r; split; [reflexivity | exact Hr]].
  destruct (dest_offset_in_prefix gridW gridH bpp Hbpp ltac:(lia) x y
              ltac:(lia) ltac:(lia)) as [Hd0 Hd1].
  unfold memcpy.
  destruct (Z.leb_spec (pos + bpp) (len payload)) as [Hrd | Hrd];
    [| right; reflexivity].
  destruct (Z.leb_spec (mul32 (add32 (mul32 y gridW) x) bpp + bpp) (len r))
    as [_ | Hbad]; [| lia].
  left. eexists. split; [reflexivity |].
  unfold len in *.
  rewrite !length_app, length_firstn, length_skipn.
  rewrite slice_length by (unfold len; lia). lia.
Qed.

(** X10: for a nonzero alignment, a block height exponent below 29 and a
    surface size that fits in 32 bits, [deswizzle] never writes outside the
    vector it allocated, whatever the payload: it returns a vector of
    exactly the surface size, or it stops at a read outside the payload. *)
Theorem deswizzle_never_writes_out_of_bounds
        (width height blkWidth blkHeight bpp tMode al s : Z)
        (payload : list byte) (gridW gridH : Z) :
  0 <= bpp -> 1 <= al -> 0 <= s < 29 ->
  0 <= blkWidth -> 0 <= blkHeight ->
  DIV_ROUND_UP width blkWidth = Ok gridW ->
  DIV_ROUND_UP height blkHeight = Ok gridH ->
  surface_size_exact gridW gridH bpp tMode al s < u32_mod ->
  (exists out,
     deswizzle width height blkWidth blkHeight bpp tMode al s payload = Ok out
     /\ len out = snd (surface_layout gridW gridH bpp tMode al (2 ^ s)))
  \/ deswizzle width height blkWidth blkHeight bpp tMode al s payload
     = Fault OobRead.
Proof. apply deswizzle_ok_or_oob_read. Qed.

Lemma deswizzle_never_writes_out_of_bounds_witness :
  (exists out,
     deswizzle 12 4 4 4 16 1 512 0 payload48 = Ok out
     /\ len out = snd (surface_layout 3 1 16 1 512 (2 ^ 0)))
  \/ deswizzle 12 4 4 4 16 1 512 0 payload48 = Fault OobRead.
Proof.
  apply (deswizzle_never_writes_out_of_bounds
           12 4 4 4 16 1 512 0 payload48 3 1);
    try lia; try reflexivity.
Defined.

(** X11: a texture of width 0 or height 0 has an empty grid: for 32-bit
    nonzero block dimensions and a block height exponent below 32 (where
    the shift [1 << size_range] is defined) [deswizzle] then allocates
    nothing, touches the payload nowhere and returns the empty vector,
    whatever the tile mode, alignment, block size and payload. *)
Theorem deswizzle_of_empty_grid
        (width height blkWidth blkHeight bpp tMode al s : Z)
        (payload : list byte) :
  is_u32 width -> is_u32 height ->
  1 <= blkWidth < u32_mod -> 1 <= blkHeight < u32_mod ->
  0 <= s < 32 ->
  width = 0 \/ height = 0 ->
  deswizzle width height blkWidth blkHeight bpp tMode al s payload = Ok [].
Proof.
  intros Hw Hh Hbw Hbh Hs Hzero.
  assert (Hdiv0 : forall d, 1 <= d < u32_mod -> DIV_ROUND_UP 0 d = Ok 0).
  { intros d Hd. unfold DIV_ROUND_UP, div32. rewrite sub32_add32_one.
    destruct (Z.eqb_spec d 0) as [| _]; [lia |].
    rewrite wrap32_small by (unfold is_u32; lia).
    rewrite Z.div_small by lia. reflexivity. }
  assert (Hdef : forall n d, 1 <= d < u32_mod ->
                   exists q, DIV_ROUND_UP n d = Ok q).
  { intros n d Hd. unfold DIV_ROUND_UP, div32.
    destruct (Z.eqb_spec d 0) as [| _]; [lia |]. eexists. reflexivity. }
  unfold deswizzle. rewrite shl_one_small by lia. cbn [bind].
  destruct Hzero as [-> | ->].
  - rewrite (Hdiv0 blkWidth Hbw). cbn [bind].
    destruct (Hdef height blkHeight Hbh) as (gh & ->). cbn [bind].
    assert (Hsurf : surface_layout 0 gh bpp tMode al (2 ^ s) = (0, 0)).
    { unfold surface_layout. rewrite mul32_zero_l.
      destruct (tMode =? 0); rewrite (round_up_zero _);
        rewrite mul32_zero_l, round_up_zero; reflexivity. }
    rewrite Hsurf. cbn [Z.to_nat repeat].
    apply for_range_id. intros j t. reflexivity.
  - destruct (Hdef width blkWidth Hbw) as (gw & ->). cbn [bind].
    rewrite (Hdiv0 blkHeight Hbh). cbn [bind].
    assert (Hsurf : snd (surface_layout gw 0 bpp tMode al (2 ^ s)) = 0).
    { unfold surface_layout.
      destruct (tMode =? 0); cbn [snd].
      - rewrite mul32_zero_r, round_up_zero. reflexivity.
      - rewrite (round_up_zero (mul32 (2 ^ s) 8)).
        rewrite mul32_zero_r, round_up_zero. reflexivity. }
    destruct (surface_layout gw 0 bpp tMode al (2 ^ s)) as [pitch surf].
    cbn [snd] in Hsurf. subst surf. reflexivity.
Qed.

Lemma deswizzle_of_empty_grid_witness :
  deswizzle 0 7 4 4 16 1 512 4 payload8 = Ok [].
Proof.
  apply deswizzle_of_empty_grid;
    try (unfold is_u32, u32_mod; lia); try lia.
Defined.

(* ====================================================================== *)
(** * Further properties of the DDS header                                 *)
(* ====================================================================== *)

Lemma Read32LE_in_bounds (f : list byte) (off : Z) :
  0 <= off -> off + 4 <= len f -> Read32LE f off = Ok (field_u32 f off).
Proof.
  intros H0 H1.
  destruct (Read32LE f off) as [v | e] eqn:E.
  - apply Read32LE_Ok in E. destruct E as (_ & _ & -> & _). reflexivity.
  - exfalso. unfold Read32LE in E.
    rewrite !byte_at_in_bounds in E by lia. discriminate.
Qed.

(** Storing a 32-bit value and reading the four bytes back. *)
Lemma le_value_le32 (x : Z) : is_u32 x -> le_value (le32 x) = x.
Proof.
  intros [H0 H1]. unfold le32. cbn [le_value].
  rewrite !byte_val_of_Z.
  pose proof (Z.div_mod x 256 ltac:(lia)) as D0.
  pose proof (Z.div_mod (x / 256) 256 ltac:(lia)) as D1.
  pose proof (Z.div_mod (x / 256 / 256) 256 ltac:(lia)) as D2.
  replace (x / 65536) with (x / 256 / 256)
    by (rewrite Z.div_div by lia; reflexivity).
  replace (x / 16777216) with (x / 256 / 256 / 256)
    by (rewrite !Z.div_div by lia; reflexivity).
  assert (H3 : 0 <= x / 256 / 256 / 256 < 256).
  { split; [repeat apply Z.div_pos; lia |].
    repeat (apply Z.div_lt_upper_bound; [lia |]). unfold u32_mod in H1. lia. }
  rewrite (Z.mod_small (x / 256 / 256 / 256) 256) by exact H3.
  lia.
Qed.

Lemma generateDDSHeader_fields (width height format size : Z) :
  let h := generateDDSHeader width height format size in
  slice h 0 4 = list_byte_of_string "DDS "
  /\ slice h 4 4 = le32 124
  /\ slice h 8 4 = le32 0x81007
  /\ slice h 12 4 = le32 height
  /\ slice h 16 4 = le32 width
  /\ slice h 20 4 = le32 size
  /\ slice h 28 4 = le32 1
  /\ slice h 76 4 = le32 32
  /\ slice h 80 4 = le32 4
  /\ slice h 108 4 = le32 0x1000.
Proof.
  unfold generateDDSHeader, fourcc_of, store32, le32.
  generalize byte_of_Z. intros enc.
  repeat match goal with
         | |- context [format =? ?c] => destruct (format =? c)
         end; repeat split; reflexivity.
Qed.

Lemma header_u32_of_slice (h : list byte) (off x : Z) :
  0 <= off -> off + 4 <= len h -> is_u32 x ->
  slice h off 4 = le32 x -> header_u32 h off = x.
Proof.
  intros H0 H1 Hx Hs. unfold header_u32.
  rewrite Read32LE_in_bounds by assumption.
  unfold field_u32. rewrite Hs. apply le_value_le32. exact Hx.
Qed.

(** X12: for all 32-bit widths, heights and sizes and every format code,
    reading the synthesized header back with [Read32LE] gives 124 at
    offset 4, the flag word 0x81007 at 8, the height at 12, the width at
    16, the linear size at 20, mip count 1 at 28, pixel-format size 32 at
    76, the FOURCC flag 4 at 80 and the TEXTURE capability 0x1000 at 108. *)
Theorem dds_header_fields_read_back (width height format size : Z) :
  is_u32 width -> is_u32 height -> is_u32 size ->
  let h := generateDDSHeader width height format size in
  header_u32 h 4 = 124
  /\ header_u32 h 8 = 0x81007
  /\ header_u32 h 12 = height
  /\ header_u32 h 16 = width
  /\ header_u32 h 20 = size
  /\ header_u32 h 28 = 1
  /\ header_u32 h 76 = 32
  /\ header_u32 h 80 = 4
  /\ header_u32 h 108 = 0x1000.
Proof.
  intros Hw Hh Hsz h.
  pose proof (generateDDSHeader_length width height format size) as L.
  destruct (generateDDSHeader_fields width height format size)
    as (_ & F4 & F8 & F12 & F16 & F20 & F28 & F76 & F80 & F108).
  fold h in L, F4, F8, F12, F16, F20, F28, F76, F80, F108.
  repeat split; apply header_u32_of_slice;
    try lia; try assumption; unfold is_u32, u32_mod; lia.
Qed.

Lemma dds_header_fields_read_back_witness :
  let h := generateDDSHeader 1920 1080 0x20 2073600 in
  header_u32 h 4 = 124
  /\ header_u32 h 8 = 0x81007
  /\ header_u32 h 12 = 1080
  /\ header_u32 h 16 = 1920
  /\ header_u32 h 20 = 2073600
  /\ header_u32 h 28 = 1
  /\ header_u32 h 76 = 32
  /\ header_u32 h 80 = 4
  /\ header_u32 h 108 = 0x1000.
Proof.
  apply (dds_header_fields_read_back 1920 1080 0x20 2073600);
    unfold is_u32, u32_mod; lia.
Defined.

(** X13: whatever the arguments, every byte of the header outside the
    fields it stores is zero: the depth word at 24, the reserved words
    and the unused mip slots at [32,76), the bit count and colour masks at
    [88,108) and the remaining capability words at [112,128). *)
Theorem dds_header_unused_bytes_are_zero (width height format size : Z) :
  let h := generateDDSHeader width height format size in
  slice h 24 4 = repeat x00 4
  /\ slice h 32 44 = repeat x00 44
  /\ slice h 88 20 = repeat x00 20
  /\ slice h 112 16 = repeat x00 16.
Proof.
  unfold generateDDSHeader, fourcc_of, store32, le32.
  generalize byte_of_Z. intros enc.
  repeat match goal with
         | |- context [format =? ?c] => destruct (format =? c)
         end; repeat split; reflexivity.
Qed.

(* ====================================================================== *)
(** * Further properties of the export                                     *)
(* ====================================================================== *)

Lemma lookup_keys {V : Type} (k : Z) (m : list (Z * V)) (v : V) :
  lookup k m = Some v -> In k (keys m).
Proof.
  induction m as [| [k' v'] m IH]; cbn; [discriminate |].
  destruct (Z.eqb_spec k k') as [-> | Hne]; [left; reflexivity |].
  intros H. right. apply IH. exact H.
Qed.

Lemma header_u32_app (h r : list byte) (off : Z) :
  0 <= off -> off + 4 <= len h ->
  header_u32 (h ++ r) off = header_u32 h off.
Proof.
  intros H0 H1. unfold header_u32.
  pose proof (len_nonneg r) as Hr.
  rewrite !Read32LE_in_bounds by (rewrite ?len_app; lia).
  unfold field_u32. rewrite slice_app_l by lia. reflexivity.
Qed.

Lemma mul32_range (a b : Z) : is_u32 (mul32 a b).
Proof. unfold mul32, wrap32, is_u32, u32_mod. apply Z.mod_pos_bound. lia. Qed.

(** X14: the three tables agree.  Every key of the format-name table has
    a block size in the size table, one of 1, 2, 4, 8 and 16 bytes, so the
    default of 4 is never taken; the keys below 0x1a have no block
    dimensions (blocks of 1 x 1), the others have blocks between 4 and 12
    texels wide and high; and the header has a FourCC for a supported key
    exactly when the key is in 0x1a..0x20, so an ASTC or uncompressed
    texture is written with four zero bytes as FourCC. *)
Theorem supported_formats_have_block_parameters (k : Z) (nm : string) :
  lookup k formats = Some nm ->
  (exists b, lookup k bpps = Some b
             /\ (b = 1 \/ b = 2 \/ b = 4 \/ b = 8 \/ b = 16))
  /\ (k < 0x1a -> lookup k blkDims = None)
  /\ (0x1a <= k ->
      exists d, lookup k blkDims = Some d
                /\ 4 <= first d <= 12 /\ 4 <= second d <= 12)
  /\ (fourcc_of k <> None <-> 0x1a <= k <= 0x20).
Proof.
  intros H. apply lookup_keys in H. cbn in H.
  repeat (destruct H as [<- | H];
          [ split; [eexists; split; [reflexivity | lia] |];
            split; [intros Hk; first [reflexivity | lia] |];
            split; [intros Hk;
                    first [lia | eexists; split; [reflexivity | cbn; lia]] |];
            cbn; split;
            [ intros Hf; first [lia | exfalso; apply Hf; reflexivity]
            | intros Hk; first [lia | discriminate] ]
          | ]).
  destruct H.
Qed.

Lemma supported_formats_have_block_parameters_witness :
  (exists b, lookup 0x1c bpps = Some b
             /\ (b = 1 \/ b = 2 \/ b = 4 \/ b = 8 \/ b = 16))
  /\ (0x1c < 0x1a -> lookup 0x1c blkDims = None)
  /\ (0x1a <= 0x1c ->
      exists d, lookup 0x1c blkDims = Some d
                /\ 4 <= first d <= 12 /\ 4 <= second d <= 12)
  /\ (fourcc_of 0x1c <> None <-> 0x1a <= 0x1c <= 0x20).
Proof.
  apply (supported_formats_have_block_parameters 0x1c "BC3"). reflexivity.
Defined.

(** X15: every file [saveTextures] writes is named
    [outputDir/name.dds], could be opened for writing, and consists of
    the 128-byte header followed by the pixel data: it starts with the
    magic "DDS ", the header read back gives the width and the height of
    the record, the FourCC of the format key, and a linear size (offset
    20) that is never smaller than the number of pixel bytes that
    follow. *)
Theorem saved_file_layout (can_create : string -> bool)
        (outputDir : string) (tex : BNTXTexture)
        (nm : string) (bytes : list byte) :
  is_u32 (width tex) -> is_u32 (height tex) ->
  save_texture can_create outputDir tex = Ok (Saved nm bytes) ->
  nm = (outputDir ++ "/" ++ name tex ++ ".dds")%string
  /\ can_create nm = true
  /\ 128 <= len bytes
  /\ slice bytes 0 4 = list_byte_of_string "DDS "
  /\ header_u32 bytes 12 = height tex
  /\ header_u32 bytes 16 = width tex
  /\ slice bytes 84 4 = fourcc_expected (formatType_of tex)
  /\ len bytes - 128 <= header_u32 bytes 20.
Proof.
  intros Hw Hh H.
  destruct (lookup (formatType_of tex) formats) as [fname |] eqn:Hf.
  2: { unfold save_texture in H. rewrite Hf in H. discriminate. }
  rewrite (save_texture_supported _ _ _ _ Hf) in H.
  apply bind_Ok in H. destruct H as (gw & _ & H).
  apply bind_Ok in H. destruct H as (gh & _ & H).
  cbv zeta in H.
  apply bind_Ok in H. destruct H as (res & _ & H).
  destruct (can_create (outputDir ++ "/" ++ name tex ++ ".dds")%string)
    eqn:Hopen; [| discriminate].
  apply Ok_inj in H.
  set (size := mul32 (mul32 gw gh) (block_bytes (formatType_of tex))) in *.
  set (body := if len res >? size then firstn (Z.to_nat size) res else res)
    in *.
  set (h := generateDDSHeader (width tex) (height tex) (formatType_of tex)
                              size) in *.
  assert (Hsize : is_u32 size) by apply mul32_range.
  assert (Hbody : len body <= size).
  { subst body. destruct (Z.gtb_spec (len res) size) as [Hgt | Hle];
      [| exact Hle].
    unfold is_u32 in Hsize.
    unfold len. rewrite length_firstn. unfold len in Hgt. lia. }
  pose proof (generateDDSHeader_length (width tex) (height tex)
                (formatType_of tex) size) as L.
  destruct (generateDDSHeader_fields (width tex) (height tex)
              (formatType_of tex) size)
    as (F0 & _ & _ & F12 & F16 & F20 & _).
  pose proof (generateDDSHeader_fourcc (width tex) (height tex)
                (formatType_of tex) size) as F84.
  fold h in L, F0, F12, F16, F20, F84.
  pose proof (len_nonneg body) as Hb0.
  assert (E : bytes = h ++ body) by congruence.
  assert (En : nm = (outputDir ++ "/" ++ name tex ++ ".dds")%string)
    by congruence.
  subst bytes. rewrite len_app, L.
  rewrite !header_u32_app by lia.
  rewrite !slice_app_l by lia.
  rewrite (header_u32_of_slice h 12 (height tex)) by (try lia; assumption).
  rewrite (header_u32_of_slice h 16 (width tex)) by (try lia; assumption).
  rewrite (header_u32_of_slice h 20 size) by (try lia; assumption).
  split; [exact En |].
  split; [rewrite En; exact Hopen |].
  repeat split; try assumption; lia.
Qed.

Lemma saved_file_layout_witness :
  exists nm bytes,
    save_texture (fun _ => true) "out" tex_bc1_4x4 = Ok (Saved nm bytes)
    /\ nm = "out/b.dds"%string
    /\ (fun _ : string => true) nm = true
    /\ 128 <= len bytes
    /\ slice bytes 0 4 = list_byte_of_string "DDS "
    /\ header_u32 bytes 12 = 4
    /\ header_u32 bytes 16 = 4
    /\ slice bytes 84 4 = list_byte_of_string "DXT1"
    /\ len bytes - 128 <= header_u32 bytes 20.
Proof.
  destruct (save_texture (fun _ => true) "out" tex_bc1_4x4)
    as [[| nm | nm bytes] | e] eqn:E;
    try (vm_compute in E; discriminate).
  exists nm, bytes. split; [reflexivity |].
  apply (saved_file_layout (fun _ => true) "out" tex_bc1_4x4 nm bytes);
    [vm_compute; split; [discriminate | reflexivity] ..| exact E].
Defined.

Lemma supported_block_parameters (k : Z) (nm : string) :
  lookup k formats = Some nm ->
  0 < block_bytes k /\ (block_bytes k | 16)
  /\ 1 <= block_width k <= 12 /\ 1 <= block_height k <= 12.
Proof.
  intros H. apply lookup_keys in H. cbn in H.
  repeat (destruct H as [<- | H];
          [ cbn; split; [lia |];
            split; [apply Z.mod_divide; [lia | reflexivity] | lia]
          | ]).
  destruct H.
Qed.

(** X16: for a texture with a supported format, a nonzero alignment, a
    block height exponent below 29, a surface size that fits in 32 bits
    and a payload covering the surface, the iteration of [saveTextures]
    runs without a fault and ends in one of two ways: when the output
    file [outputDir/name.dds] cannot be opened nothing is written for the
    texture; when it can, the file is written with the 128 header bytes
    plus exactly [gridW * gridH * bytesPerBlock] pixel bytes, the header's
    linear size is that number, and block [(x, y)] of the file is the
    payload block at the source offset of [(x, y)]. *)
Theorem well_formed_texture_is_exported
        (can_create : string -> bool) (outputDir : string)
        (tex : BNTXTexture) (nm : string) (gw gh : Z) :
  lookup (formatType_of tex) formats = Some nm ->
  DIV_ROUND_UP (width tex) (block_width (formatType_of tex)) = Ok gw ->
  DIV_ROUND_UP (height tex) (block_height (formatType_of tex)) = Ok gh ->
  1 <= alignment tex -> 0 <= sizeRange tex < 29 ->
  surface_size_exact gw gh (block_bytes (formatType_of tex)) (tileMode tex)
                     (alignment tex) (sizeRange tex) < u32_mod ->
  snd (surface_layout gw gh (block_bytes (formatType_of tex)) (tileMode tex)
                      (alignment tex) (2 ^ sizeRange tex))
  <= len (data tex) ->
  exists bytes,
    save_texture can_create outputDir tex
    = Ok (if can_create (dds_name outputDir tex)
          then Saved (dds_name outputDir tex) bytes
          else FailedToCreate (dds_name outputDir tex))
    /\ len bytes = 128 + gw * gh * block_bytes (formatType_of tex)
    /\ header_u32 bytes 20 = gw * gh * block_bytes (formatType_of tex)
    /\ forall x y, 0 <= x < gw -> 0 <= y < gh ->
         exists pos,
           source_pos (tileMode tex)
                      (fst (surface_layout gw gh
                              (block_bytes (formatType_of tex))
                              (tileMode tex) (alignment tex)
                              (2 ^ sizeRange tex)))
                      gw (block_bytes (formatType_of tex))
                      (2 ^ sizeRange tex) x y = Ok pos
           /\ slice bytes
                    (128 + (y * gw + x) * block_bytes (formatType_of tex))
                    (block_bytes (formatType_of tex))
              = slice (data tex) pos (block_bytes (formatType_of tex)).
Proof.
  intros Hf Hgw Hgh Hal Hs Hfit Hpayload.
  destruct (supported_block_parameters _ _ Hf) as (Hbpp & Hdiv & Hbw & Hbh).
  set (bpp := block_bytes (formatType_of tex)) in *.
  assert (Hbw0 : 0 <= block_width (formatType_of tex)) by lia.
  assert (Hbh0 : 0 <= block_height (formatType_of tex)) by lia.
  destruct (DIV_ROUND_UP_range _ _ _ Hbw0 Hgw) as [Hgw0 Hgw1].
  destruct (DIV_ROUND_UP_range _ _ _ Hbh0 Hgh) as [Hgh0 Hgh1].
  destruct (surface_layout gw gh bpp (tileMode tex) (alignment tex)
                           (2 ^ sizeRange tex)) as [pitch surf] eqn:Hlayout.
  cbn [fst snd] in *.
  assert (HEM : gw * gh * bpp <= surf /\ surf < u32_mod).
  { destruct (surface_size_no_wrap gw gh bpp (tileMode tex) (alignment tex)
                (sizeRange tex) Hgw0 Hgh0 ltac:(lia) Hal ltac:(lia) Hfit)
      as [Heq Hge].
    rewrite Hlayout in Heq. cbn [snd] in Heq. rewrite Heq.
    split; [exact Hge | exact Hfit]. }
  destruct HEM as [HE HM].
  destruct (copy_all_blocks gw gh bpp (tileMode tex) (alignment tex)
              (sizeRange tex) (data tex) Hbpp Hal Hs (or_intror Hdiv)
              Hgw0 Hgh0 Hfit pitch surf Hlayout Hpayload)
    as (out & Hrun & Hlen & Hall).
  assert (Hdes : deswizzle (width tex) (height tex)
                   (block_width (formatType_of tex))
                   (block_height (formatType_of tex)) bpp (tileMode tex)
                   (alignment tex) (sizeRange tex) (data tex) = Ok out).
  { unfold deswizzle. rewrite shl_one_small by lia. cbn [bind].
    rewrite Hgw, Hgh. cbn [bind]. rewrite Hlayout. exact Hrun. }
  assert (Hgg : 0 <= gw * gh) by nia.
  assert (Hggb : gw * gh <= gw * gh * bpp) by nia.
  assert (Hsize : mul32 (mul32 gw gh) bpp = gw * gh * bpp).
  { rewrite (mul32_small gw gh) by lia. apply mul32_small. lia. }
  set (size := gw * gh * bpp) in *.
  set (body := if len out >? size then firstn (Z.to_nat size) out else out).
  set (h := generateDDSHeader (width tex) (height tex) (formatType_of tex)
                              size).
  exists (h ++ body).
  assert (Hbody : len body = size
                  /\ forall off n, 0 <= off -> 0 <= n -> off + n <= size ->
                                   slice body off n = slice out off n).
  { subst body. destruct (Z.gtb_spec (len out) size) as [Hgt | Hle].
    - split.
      + unfold len. rewrite length_firstn. unfold len in Hgt. lia.
      + intros off n H0 H1 H2. apply slice_firstn; assumption.
    - split; [lia | reflexivity]. }
  destruct Hbody as [Hbl Hbs].
  pose proof (generateDDSHeader_length (width tex) (height tex)
                (formatType_of tex) size) as L.
  destruct (generateDDSHeader_fields (width tex) (height tex)
              (formatType_of tex) size)
    as (_ & _ & _ & _ & _ & F20 & _).
  fold h in L, F20.
  split; [| split; [| split]].
  - rewrite (save_texture_supported _ _ _ _ Hf). fold bpp.
    rewrite Hgw, Hgh. cbn [bind]. cbv zeta. rewrite Hdes. cbn [bind].
    fold bpp. rewrite Hsize. unfold dds_name.
    destruct (can_create (outputDir ++ "/" ++ name tex ++ ".dds")%string);
      reflexivity.
  - rewrite len_app, L, Hbl. reflexivity.
  - rewrite header_u32_app by lia.
    apply header_u32_of_slice; [lia | lia | | exact F20].
    unfold is_u32. lia.
  - intros x y Hx Hy.
    destruct (Hall x y Hx Hy ltac:(nia)) as (pos & Hpos & Hsl).
    exists pos. split; [exact Hpos |].
    rewrite <- L. rewrite slice_app_r by nia.
    assert (Hidx : y * gw + x + 1 <= gw * gh) by nia.
    assert (Hend : (y * gw + x + 1) * bpp <= gw * gh * bpp)
      by (apply Z.mul_le_mono_nonneg_r; lia).
    rewrite Hbs; [exact Hsl | nia | lia |].
    unfold size. lia.
Qed.

Lemma well_formed_texture_is_exported_witness :
  exists bytes,
    save_texture (fun _ => true) "out" tex_bc3_8x8
    = Ok (Saved "out/c.dds" bytes)
    /\ len bytes = 128 + 2 * 2 * 16
    /\ header_u32 bytes 20 = 2 * 2 * 16
    /\ forall x y, 0 <= x < 2 -> 0 <= y < 2 ->
         exists pos,
           source_pos 1 (fst (surface_layout 2 2 16 1 512 (2 ^ 0)))
                      2 16 (2 ^ 0) x y = Ok pos
           /\ slice bytes (128 + (y * 2 + x) * 16) 16
              = slice (repeat x11 512) pos 16.
Proof.
  apply (well_formed_texture_is_exported (fun _ => true) "out" tex_bc3_8x8
           "BC3" 2 2);
    try reflexivity; try (cbn; lia); try (vm_compute; discriminate).
Defined.

(** X24: exporting a texture of supported format with a nonzero
    alignment, a block height exponent below 29 and a surface size that
    fits in 32 bits ends in one of three ways: the file is written, which
    happens only when it could be opened; the file could not be opened
    and nothing is written; or the run stops at a read outside the
    payload.  It never divides by zero and never writes outside the
    output vector. *)
Theorem export_fails_only_by_reading_past_payload
        (can_create : string -> bool) (outputDir : string)
        (tex : BNTXTexture) (nm : string) (gw gh : Z) :
  lookup (formatType_of tex) formats = Some nm ->
  DIV_ROUND_UP (width tex) (block_width (formatType_of tex)) = Ok gw ->
  DIV_ROUND_UP (height tex) (block_height (formatType_of tex)) = Ok gh ->
  1 <= alignment tex -> 0 <= sizeRange tex < 29 ->
  surface_size_exact gw gh (block_bytes (formatType_of tex)) (tileMode tex)
                     (alignment tex) (sizeRange tex) < u32_mod ->
  (can_create (dds_name outputDir tex) = true
   /\ exists bytes,
        save_texture can_create outputDir tex
        = Ok (Saved (dds_name outputDir tex) bytes))
  \/ (can_create (dds_name outputDir tex) = false
      /\ save_texture can_create outputDir tex
         = Ok (FailedToCreate (dds_name outputDir tex)))
  \/ save_texture can_create outputDir tex = Fault OobRead.
Proof.
  intros Hf Hgw Hgh Hal Hs Hfit.
  destruct (supported_block_parameters _ _ Hf) as (Hbpp & _ & Hbw & Hbh).
  rewrite (save_texture_supported _ _ _ _ Hf).
  rewrite Hgw, Hgh. cbn [bind]. cbv zeta.
  destruct (deswizzle_ok_or_oob_read (width tex) (height tex)
              (block_width (formatType_of tex))
              (block_height (formatType_of tex))
              (block_bytes (formatType_of tex)) (tileMode tex)
              (alignment tex) (sizeRange tex) (data tex) gw gh
              ltac:(lia) Hal Hs ltac:(lia) ltac:(lia) Hgw Hgh Hfit)
    as [(out & -> & _) | ->].
  - cbn [bind]. unfold dds_name.
    destruct (can_create (outputDir ++ "/" ++ name tex ++ ".dds")%string).
    + left. split; [reflexivity |]. eexists. reflexivity.
    + right. left. split; reflexivity.
  - right. right. reflexivity.
Qed.

Lemma export_fails_only_by_reading_past_payload_witness :
  ((fun _ : string => false) (dds_name "out" tex_rgba_1x2) = true
   /\ exists bytes,
        save_texture (fun _ => false) "out" tex_rgba_1x2
        = Ok (Saved (dds_name "out" tex_rgba_1x2) bytes))
  \/ ((fun _ : string => false) (dds_name "out" tex_rgba_1x2) = false
      /\ save_texture (fun _ => false) "out" tex_rgba_1x2
         = Ok (FailedToCreate (dds_name "out" tex_rgba_1x2)))
  \/ save_texture (fun _ => false) "out" tex_rgba_1x2 = Fault OobRead.
Proof.
  apply (export_fails_only_by_reading_past_payload (fun _ => false) "out"
           tex_rgba_1x2 "R8_G8_B8_A8" 1 2);
    try reflexivity; try (cbn; lia); try (vm_compute; reflexivity).
Defined.

(* ====================================================================== *)
(** * The export loop and the driver                                       *)
(* ====================================================================== *)

Lemma bind_ret {A : Type} (m : result A) : bind m (fun a => Ok a) = m.
Proof. destruct m; reflexivity. Qed.

Lemma save_texture_unsupported (can_create : string -> bool)
      (outputDir : string) (tex : BNTXTexture) :
  unsupported tex ->
  save_texture can_create outputDir tex = Ok SkippedUnsupported.
Proof. unfold unsupported, save_texture. intros ->. reflexivity. Qed.

(** Which of its three ends a completed iteration has taken. *)
Lemma save_texture_outcome (can_create : string -> bool)
      (outputDir : string) (tex : BNTXTexture) (o : save_outcome) :
  save_texture can_create outputDir tex = Ok o ->
  match o with
  | SkippedUnsupported => supported tex = false
  | FailedToCreate outName =>
      supported tex = true /\ outName = dds_name outputDir tex
      /\ can_create (dds_name outputDir tex) = false
  | Saved outName _ =>
      supported tex = true /\ outName = dds_name outputDir tex
      /\ can_create (dds_name outputDir tex) = true
  end.
Proof.
  unfold save_texture, supported, dds_name.
  destruct (lookup (formatType_of tex) formats) as [nm |].
  - intros H.
    apply bind_Ok in H. destruct H as (gw & _ & H).
    apply bind_Ok in H. destruct H as (gh & _ & H).
    cbv zeta in H.
    apply bind_Ok in H. destruct H as (res & _ & H).
    destruct (can_create (outputDir ++ "/" ++ name tex ++ ".dds")%string);
      apply Ok_inj in H; subst o; repeat split; reflexivity.
  - intros H. apply Ok_inj in H. subst o. reflexivity.
Qed.

Lemma saveTextures_names (can_create : string -> bool) (outputDir : string) :
  forall (textures : list BNTXTexture) (files : list (string * list byte)),
    saveTextures can_create textures outputDir = Ok files ->
    map fst files
    = map (dds_name outputDir) (filter (exported can_create outputDir)
                                       textures).
Proof.
  induction textures as [| tex rest IH]; intros files H.
  - cbn in H. apply Ok_inj in H. subst files. reflexivity.
  - cbn [saveTextures] in H.
    apply bind_Ok in H. destruct H as (o & Ho & H).
    apply bind_Ok in H. destruct H as (fs & Hfs & H).
    apply Ok_inj in H. subst files.
    apply save_texture_outcome in Ho. specialize (IH fs Hfs).
    cbn [filter]. unfold exported at 1.
    destruct o as [| outName | outName bytes].
    + rewrite Ho. cbn [andb]. exact IH.
    + destruct Ho as (-> & _ & ->). cbn [andb]. exact IH.
    + destruct Ho as (-> & -> & ->). cbn [andb map fst].
      rewrite IH. reflexivity.
Qed.

(** X17: when [saveTextures] completes, the files it has written are, in
    the order of the texture list, one file [outputDir/name.dds] for each
    texture whose format key is in the format table and whose output file
    could be opened, and none for the others; two textures of the same
    name are written to the same file name, the later one last. *)
Theorem saveTextures_writes_supported_textures
        (can_create : string -> bool)
        (textures : list BNTXTexture) (outputDir : string)
        (files : list (string * list byte)) :
  saveTextures can_create textures outputDir = Ok files ->
  map fst files
  = map (dds_name outputDir)
        (filter (exported can_create outputDir) textures)
  /\ (List.length files <= List.length textures)%nat.
Proof.
  intros H. pose proof (saveTextures_names _ _ _ _ H) as Hn.
  split; [exact Hn |].
  rewrite <- (length_map fst files), Hn, length_map.
  apply filter_length_le.
Qed.

Lemma saveTextures_writes_supported_textures_witness :
  exists files,
    saveTextures (fun outName => negb (String.eqb outName "out/c.dds"))
                 [tex_unknown_format; tex_bc1_4x4; tex_bc3_8x8; tex_bc1_4x4]
                 "out"
    = Ok files
    /\ map fst files = ["out/b.dds"; "out/b.dds"]%string
    /\ (List.length files <= 4)%nat.
Proof.
  destruct (saveTextures (fun outName => negb (String.eqb outName "out/c.dds"))
              [tex_unknown_format; tex_bc1_4x4; tex_bc3_8x8; tex_bc1_4x4]
              "out")
    as [files | e] eqn:E; [| vm_compute in E; discriminate].
  exists files. split; [reflexivity |].
  exact (saveTextures_writes_supported_textures
           (fun outName => negb (String.eqb outName "out/c.dds"))
           [tex_unknown_format; tex_bc1_4x4; tex_bc3_8x8; tex_bc1_4x4]
           "out" files E).
Defined.

(** X18: a texture of unsupported format changes nothing for the others:
    with it anywhere in the list, [saveTextures] writes the same files, or
    stops at the same fault, as without it. *)
Theorem saveTextures_skips_unsupported
        (can_create : string -> bool)
        (before after : list BNTXTexture) (tex : BNTXTexture)
        (outputDir : string) :
  unsupported tex ->
  saveTextures can_create (before ++ tex :: after) outputDir
  = saveTextures can_create (before ++ after) outputDir.
Proof.
  intros Hu. induction before as [| t rest IH].
  - cbn [app saveTextures].
    rewrite (save_texture_unsupported _ _ _ Hu). cbn [bind].
    apply bind_ret.
  - cbn [app saveTextures]. rewrite IH. reflexivity.
Qed.

Lemma saveTextures_skips_unsupported_witness :
  saveTextures (fun _ => true)
               ([tex_bc1_4x4] ++ tex_unknown_format :: [tex_bc3_8x8]) "out"
  = saveTextures (fun _ => true) ([tex_bc1_4x4] ++ [tex_bc3_8x8]) "out".
Proof.
  apply (saveTextures_skips_unsupported (fun _ => true) [tex_bc1_4x4]
           [tex_bc3_8x8] tex_unknown_format "out").
  reflexivity.
Defined.

Lemma Contents_inj (a b : list byte) : Contents a = Contents b -> a = b.
Proof. intros H. injection H. auto. Qed.

(** *** [cleanPath] *)






(** *** [main] *)

Lemma is_empty_false (s : string) : is_empty s = false <-> s <> EmptyString.
Proof. destruct s; cbn; split; congruence. Qed.

Lemma saveTextures_unsupported (can_create : string -> bool)
      (outputDir : string) (textures : list BNTXTexture) :
  Forall unsupported textures ->
  saveTextures can_create textures outputDir = Ok [].
Proof.
  intros Hall. induction Hall as [| t ts Ht _ IH]; [reflexivity |].
  cbn [saveTextures]. rewrite (save_texture_unsupported _ _ _ Ht).
  cbn [bind]. rewrite IH. reflexivity.
Qed.

(** X20: [main] returns 1 without running any command when a cleaned path
    is empty.  Otherwise it runs the [mkdir] command for the output
    directory, and then: returns 1, having written no file, when the
    input cannot be opened or read or when the parser returns no texture;
    ends in [std::terminate] when the input opens but the vector for its
    contents cannot be constructed; and in the remaining case returns 0,
    the files written being those of the parsed textures of supported
    format whose output file could be opened, in order. *)
Theorem main_exit_code (win32 : bool) (system : string -> file_system)
        (inputLine outputLine : string) (r : main_result) :
  main win32 system inputLine outputLine = Ok r ->
  let inputPath := cleanPath inputLine in
  let outputDir := cleanPath outputLine in
  let cmd := mkdirCmd win32 outputDir in
  let fs := system cmd in
  ((inputPath = EmptyString \/ outputDir = EmptyString)
   /\ r = Returns 1 [] [])
  \/ (inputPath <> EmptyString /\ outputDir <> EmptyString
      /\ ((open_read fs inputPath = CannotOpen /\ r = Returns 1 [cmd] [])
          \/ (open_read fs inputPath = CannotAllocate /\ r = Terminates [cmd])
          \/ (open_read fs inputPath = CannotRead /\ r = Returns 1 [cmd] [])
          \/ exists fileData st,
               open_read fs inputPath = Contents fileData
               /\ parseBNTX fileData = Ok st
               /\ ((returned_textures st = [] /\ r = Returns 1 [cmd] [])
                   \/ (returned_textures st <> []
                       /\ exists files,
                            saveTextures (open_write fs)
                                         (returned_textures st) outputDir
                            = Ok files
                            /\ r = Returns 0 [cmd] files
                            /\ map fst files
                               = map (dds_name outputDir)
                                     (filter (exported (open_write fs)
                                                       outputDir)
                                             (returned_textures st)))))).
Proof.
  intros H inputPath outputDir cmd fs. unfold main in H.
  fold inputPath outputDir cmd fs in H. cbv zeta in H.
  fold inputPath outputDir cmd fs in H.
  destruct (is_empty inputPath) eqn:Ei.
  { left. cbn [orb] in H. apply Ok_inj in H.
    split; [left; destruct inputPath; [reflexivity | discriminate]
           | symmetry; exact H]. }
  destruct (is_empty outputDir) eqn:Eo.
  { left. cbn [orb] in H. apply Ok_inj in H.
    split; [right; destruct outputDir; [reflexivity | discriminate]
           | symmetry; exact H]. }
  cbn [orb] in H. apply is_empty_false in Ei, Eo.
  right. split; [exact Ei |]. split; [exact Eo |].
  destruct (open_read fs inputPath) as [| | | fileData] eqn:Ef.
  - left. apply Ok_inj in H. split; [reflexivity | symmetry; exact H].
  - right. left. apply Ok_inj in H.
    split; [reflexivity | symmetry; exact H].
  - right. right. left. apply Ok_inj in H.
    split; [reflexivity | symmetry; exact H].
  - right. right. right.
    apply bind_Ok in H. destruct H as (st & Hst & H).
    exists fileData, st.
    split; [reflexivity |]. split; [exact Hst |].
    destruct (returned_textures st) as [| t ts] eqn:Et.
    + left. cbn [is_nil] in H. apply Ok_inj in H.
      split; [reflexivity | symmetry; exact H].
    + right. cbn [is_nil] in H.
      apply bind_Ok in H. destruct H as (files & Hfiles & H).
      apply Ok_inj in H.
      split; [discriminate |].
      exists files. split; [exact Hfiles |].
      split; [symmetry; exact H |].
      apply saveTextures_names. exact Hfiles.
Qed.

Lemma main_exit_code_witness :
  exists files,
    main false
         (fun _ => mkFileSystem (fun _ => Contents (bntx_two_entries 1))
                                (fun _ => true))
         "'in.bntx'" "out"
    = Ok (Returns 0 [mkdirCmd false "out"] files)
    /\ map fst files = ["out/t.dds"]%string.
Proof.
  destruct (main false
              (fun _ => mkFileSystem (fun _ => Contents (bntx_two_entries 1))
                                     (fun _ => true))
              "'in.bntx'" "out")
    as [r | e] eqn:E; [| vm_compute in E; discriminate E].
  pose proof (main_exit_code false
                (fun _ => mkFileSystem
                            (fun _ => Contents (bntx_two_entries 1))
                            (fun _ => true))
                "'in.bntx'" "out" r E) as H.
  cbv zeta in H. clear E.
  assert (Hparse : forall fd st,
             Contents (bntx_two_entries 1) = Contents fd ->
             parseBNTX fd = Ok st ->
             st = ([InvalidBRTI],
                   [mkTexture "t" 1 2 0x0b01 0 0 64 64 linear_1x2])).
  { intros fd st Hfd Hp. apply Contents_inj in Hfd. subst fd.
    apply Ok_inj. rewrite <- Hp. vm_compute. reflexivity. }
  destruct H as [[Hp Hr]
                | (_ & _ & [[Hf _] | [[Hf _] | [[Hf _]
                   | (fd & st & Hf & Hp & [[Ht _]
                      | (_ & files & _ & Hr & Hn)])]]])].
  - exfalso. destruct Hp as [Hp | Hp]; vm_compute in Hp; discriminate Hp.
  - exfalso. cbn [open_read] in Hf. discriminate Hf.
  - exfalso. cbn [open_read] in Hf. discriminate Hf.
  - exfalso. cbn [open_read] in Hf. discriminate Hf.
  - exfalso. cbn [open_read] in Hf.
    rewrite (Hparse fd st Hf Hp) in Ht. discriminate Ht.
  - cbn [open_read open_write] in Hf, Hn.
    rewrite (Hparse fd st Hf Hp) in Hn. clear Hp.
    exists files. rewrite Hr. split; [reflexivity | exact Hn].
Defined.

(** X21: return code 0 does not mean that a file was written.  When the
    input parses to a non-empty list of textures that all have
    unsupported formats, [main] writes no file and still returns 0. *)
Theorem main_reports_success_without_files
        (win32 : bool) (system : string -> file_system)
        (inputLine outputLine : string)
        (fileData : list byte) (st : parse_state) :
  cleanPath inputLine <> EmptyString ->
  cleanPath outputLine <> EmptyString ->
  open_read (system (mkdirCmd win32 (cleanPath outputLine)))
            (cleanPath inputLine) = Contents fileData ->
  parseBNTX fileData = Ok st ->
  returned_textures st <> [] ->
  Forall unsupported (returned_textures st) ->
  main win32 system inputLine outputLine
  = Ok (Returns 0 [mkdirCmd win32 (cleanPath outputLine)] []).
Proof.
  intros Hi Ho Hfs Hp Hne Hall. unfold main.
  apply is_empty_false in Hi, Ho. rewrite Hi, Ho. cbn [orb].
  rewrite Hfs, Hp. cbn [bind].
  rewrite (saveTextures_unsupported _ _ _ Hall).
  destruct (returned_textures st) as [| t ts]; [congruence |].
  reflexivity.
Qed.

Lemma main_reports_success_without_files_witness :
  main false
       (fun _ => mkFileSystem (fun _ => Contents bntx_unknown_format)
                              (fun _ => true))
       "in.bntx" "out"
  = Ok (Returns 0 [mkdirCmd false "out"] []).
Proof.
  apply (main_reports_success_without_files false
           (fun _ => mkFileSystem (fun _ => Contents bntx_unknown_format)
                                  (fun _ => true))
           "in.bntx" "out" bntx_unknown_format
           ([InvalidBRTI],
            [mkTexture "t" 1 2 0x7701 0 0 64 64 linear_1x2])).
  - discriminate.
  - discriminate.
  - reflexivity.
  - vm_compute. reflexivity.
  - discriminate.
  - constructor; [reflexivity | constructor].
Defined.

(* ====================================================================== *)
(** * Further properties of the parser                                     *)
(* ====================================================================== *)

Lemma Read16LE_field (f : list byte) (off v : Z) :
  Read16LE f off = Ok v -> v = field_u16 f off.
Proof.
  intros H. pose proof (Read16LE_Ok f off v H) as (H0 & H1 & _).
  unfold Read16LE in H. rewrite !byte_at_in_bounds in H by lia.
  cbn [bind] in H. apply Ok_inj in H. subst v.
  pose proof (byte_val_range (nth (Z.to_nat off) f x00)) as B0.
  pose proof (byte_val_range (nth (Z.to_nat (off + 1)) f x00)) as B1.
  rewrite lor_shiftl_add by (change (2 ^ 8) with 256; lia).
  change (2 ^ 8) with 256.
  unfold field_u16. rewrite (slice_uncons f off 2) by lia.
  rewrite (slice_uncons f (off + 1) (2 - 1)) by lia.
  change (2 - 1 - 1) with 0. rewrite slice_zero. cbn [le_value]. ring.
Qed.

Lemma inr_inj {A B : Type} (x y : B) : @inr A B x = inr y -> x = y.
Proof. intros H. injection H. auto. Qed.

(** A completed parse of a container with a valid header is the texture
    loop over the count at 0x24 and the pointer array named at 0x28. *)
Lemma parseBNTX_loop (f : list byte) (st : parse_state) :
  parseBNTX f = Ok st -> ~ fatal_condition f ->
  parse_loop f (field_i64 f 0x28) (field_u32 f 0x24) = Ok st
  /\ is_u32 (field_u32 f 0x24).
Proof.
  intros H Hnf.
  assert (Hna : ~ aborted st).
  { destruct (parseBNTX_inv f st H) as [(Hc & _) | (_ & n & p & Hl)];
      [contradiction | exact (parse_loop_not_aborted f p n st Hl)]. }
  assert (Hfatal : forall d, is_fatal d = true -> st <> ([d], [])).
  { intros d Hd ->. apply Hna. exists d. split; [left; reflexivity | exact Hd]. }
  unfold parseBNTX in H.
  destruct (len f <? 0x100).
  { apply Ok_inj in H. symmetry in H.
    exfalso. exact (Hfatal FileTooSmall eq_refl H). }
  apply bind_Ok in H. destruct H as (bad & _ & H).
  destruct bad.
  { apply Ok_inj in H. symmetry in H.
    exfalso. exact (Hfatal NotBNTX eq_refl H). }
  apply bind_Ok in H. destruct H as (b0 & _ & H).
  apply bind_Ok in H. destruct H as (b1 & _ & H).
  cbv zeta in H.
  destruct (negb ((b0 =? 255) && (b1 =? 254))).
  { apply Ok_inj in H. symmetry in H.
    exfalso. exact (Hfatal BigEndian eq_refl H). }
  apply bind_Ok in H. destruct H as (fileNameAddr & _ & H).
  apply bind_Ok in H. destruct H as (fileSize & _ & H).
  apply bind_Ok in H. destruct H as (fileName & _ & H).
  apply bind_Ok in H. destruct H as (badNX & _ & H).
  destruct badNX.
  { apply Ok_inj in H. symmetry in H.
    exfalso. exact (Hfatal InvalidNX eq_refl H). }
  apply bind_Ok in H. destruct H as (texCount & Hc & H).
  apply bind_Ok in H. destruct H as (infoPtrAddr & Hp & H).
  apply bind_Ok in H. destruct H as (dataBlkAddr & _ & H).
  change (add32 (add32 0 32) 4) with 36 in Hc.
  change (add32 (add32 0 32) 8) with 40 in Hp.
  apply Read32LE_Ok in Hc. destruct Hc as (_ & _ & -> & Hr).
  apply Read64LE_Signed_Ok in Hp. destruct Hp as (_ & _ & ->).
  split; [exact H | exact Hr].
Qed.

(** X22: in a completed parse of a container with a valid header, every
    one of the textures counted at offset 0x24 is accounted for exactly
    once: it is either in the returned list or was skipped with one
    (non-fatal) diagnostic. *)
Theorem parse_accounts_for_every_entry (f : list byte) (st : parse_state) :
  parseBNTX f = Ok st -> ~ fatal_condition f ->
  len (returned_textures st) + len (fst st) = field_u32 f 0x24
  /\ forall d, In d (fst st) -> is_fatal d = false.
Proof.
  intros H Hnf.
  destruct (parseBNTX_loop f st H Hnf) as [Hloop [Hc0 _]].
  split.
  - unfold parse_loop in Hloop.
    pose proof (for_range_invariant
                  (fun i (s : parse_state) => len (snd s) + len (fst s) = i)
                  (parse_step f (field_i64 f 0x28))
                  (Z.to_nat (field_u32 f 0x24)) 0 ([], []) st) as Hinv.
    rewrite Z2Nat.id in Hinv by exact Hc0.
    unfold returned_textures. apply Hinv; [| reflexivity | exact Hloop].
    intros j t t' _ Hq Hstep. unfold parse_step in Hstep.
    apply bind_Ok in Hstep. destruct Hstep as (o & _ & Hstep).
    destruct o as [d | tex]; apply Ok_inj in Hstep; subst t'; cbn [fst snd];
      rewrite len_app; cbn; lia.
  - intros d Hin.
    pose proof (parse_loop_not_aborted _ _ _ _ Hloop) as Hna.
    destruct (is_fatal d) eqn:E; [| reflexivity].
    exfalso. apply Hna. exists d. split; assumption.
Qed.

Lemma parse_accounts_for_every_entry_witness :
  exists st,
    parseBNTX (bntx_two_entries 1) = Ok st
    /\ len (returned_textures st) + len (fst st)
       = field_u32 (bntx_two_entries 1) 0x24
    /\ field_u32 (bntx_two_entries 1) 0x24 = 2
    /\ forall d, In d (fst st) -> is_fatal d = false.
Proof.
  exists ([InvalidBRTI], [mkTexture "t" 1 2 0x0b01 0 0 64 64 linear_1x2]).
  assert (Hp : parseBNTX (bntx_two_entries 1)
               = Ok ([InvalidBRTI],
                     [mkTexture "t" 1 2 0x0b01 0 0 64 64 linear_1x2]))
    by (vm_compute; reflexivity).
  assert (Hnf : ~ fatal_condition (bntx_two_entries 1)).
  { unfold fatal_condition, magic_at.
    intros [C | [C | [C | C]]].
    - vm_compute in C. discriminate.
    - apply C. vm_compute. reflexivity.
    - apply C. vm_compute. split; reflexivity.
    - apply C. vm_compute. reflexivity. }
  destruct (parse_accounts_for_every_entry (bntx_two_entries 1) _ Hp Hnf)
    as [Hcount Hdiag].
  split; [exact Hp |]. split; [exact Hcount |].
  split; [vm_compute; reflexivity | exact Hdiag].
Defined.

(** X23: in a file of at most [2^32 - 0x78] bytes, the record appended
    for entry [i < 2^29] of the pointer array at [base] has the fields of the BRTI block the
    entry points to: tile mode at +0x10, format at +0x1C, width at +0x24,
    height at +0x28, block height exponent at +0x34, image size at +0x50,
    alignment at +0x54; its name is the string read after the 16-bit
    length found through the pointer at +0x60, and its payload is the
    [imageSize] bytes of the file at the address found through the
    pointer table named at +0x70, which lie inside the file. *)
Theorem parsed_texture_fields (f : list byte) (base i : Z)
        (tex : BNTXTexture) :
  len f + 0x78 <= u32_mod -> 0 <= i < 2 ^ 29 ->
  parse_texture f base i = Ok (inr tex) ->
  let a := field_i64 f (base + 8 * i) in
  let nameAddr := field_i64 f (a + 0x60) in
  let dataAddr := field_i64 f (field_i64 f (a + 0x70)) in
  0 <= a < len f
  /\ magic_at f a "BRTI"
  /\ tileMode tex = field_u8 f (a + 0x10)
  /\ format tex = field_u32 f (a + 0x1C)
  /\ width tex = field_u32 f (a + 0x24)
  /\ height tex = field_u32 f (a + 0x28)
  /\ sizeRange tex = field_u32 f (a + 0x34)
  /\ imageSize tex = field_u32 f (a + 0x50)
  /\ alignment tex = field_u32 f (a + 0x54)
  /\ ReadString f (nameAddr + 2) (Z.to_nat (field_u16 f nameAddr))
     = Ok (name tex)
  /\ in_bounds f dataAddr (imageSize tex)
  /\ data tex = slice f dataAddr (imageSize tex).
Proof.
  intros Hlen Hi H a nameAddr dataAddr.
  unfold parse_texture in H. cbv zeta in H.
  rewrite mul32_small in H by (unfold u32_mod; lia).
  replace (base + i * 8) with (base + 8 * i) in H by ring.
  apply bind_Ok in H. destruct H as (texInfoAddr & Hinfo & H).
  apply Read64LE_Signed_Ok in Hinfo. destruct Hinfo as (_ & _ & Ea).
  fold a in Ea. subst texInfoAddr.
  destruct (Z.ltb_spec a 0) as [Hneg | Hnn];
    [cbn [orb] in H; discriminate |].
  destruct (Z.geb_spec a (len f)) as [Hbig | Hsmall];
    [cbn [orb] in H; discriminate |].
  cbn [orb] in H.
  rewrite (wrap32_small a) in H by (unfold is_u32; lia).
  assert (Hadd : forall k, 0 <= k <= 0x78 -> add32 a k = a + k).
  { intros k Hk. unfold add32. apply wrap32_small. unfold is_u32. lia. }
  rewrite !Hadd in H by lia.
  apply bind_Ok in H. destruct H as (bad & Hmagic & H).
  apply magic_differs_Ok in Hmagic. destruct Hmagic as (_ & _ & Hmagic).
  destruct bad; [discriminate |].
  apply bind_Ok in H. destruct H as (vtileMode & Htile & H).
  apply bind_Ok in H. destruct H as (vflags & _ & H).
  apply bind_Ok in H. destruct H as (vswizzle & _ & H).
  apply bind_Ok in H. destruct H as (vnumMips & _ & H).
  apply bind_Ok in H. destruct H as (vformat & Hformat & H).
  apply bind_Ok in H. destruct H as (vwidth & Hwidth & H).
  apply bind_Ok in H. destruct H as (vheight & Hheight & H).
  apply bind_Ok in H. destruct H as (vsizeRange & HsizeRange & H).
  apply bind_Ok in H. destruct H as (imgSize & HimgSize & H).
  apply bind_Ok in H. destruct H as (valignment & Halignment & H).
  apply bind_Ok in H. destruct H as (vnameAddr & HnameAddr & H).
  apply bind_Ok in H. destruct H as (ptrsAddr & Hptrs & H).
  apply bind_Ok in H. destruct H as (nameLen & HnameLen & H).
  apply bind_Ok in H. destruct H as (vname & Hname & H).
  apply bind_Ok in H. destruct H as (vshown & _ & H).
  apply bind_Ok in H. destruct H as (vdataAddr & HdataAddr & H).
  apply byte_at_field in Htile.
  apply Read32LE_Ok in Hformat. destruct Hformat as (_ & _ & Hformat & _).
  apply Read32LE_Ok in Hwidth. destruct Hwidth as (_ & _ & Hwidth & _).
  apply Read32LE_Ok in Hheight. destruct Hheight as (_ & _ & Hheight & _).
  apply Read32LE_Ok in HsizeRange.
  destruct HsizeRange as (_ & _ & HsizeRange & _).
  apply Read32LE_Ok in HimgSize. destruct HimgSize as (_ & _ & HimgSize & _).
  apply Read32LE_Ok in Halignment.
  destruct Halignment as (_ & _ & Halignment & _).
  apply Read64LE_Signed_Ok in HnameAddr.
  destruct HnameAddr as (_ & _ & HnameAddr).
  apply Read64LE_Signed_Ok in Hptrs. destruct Hptrs as (_ & _ & Hptrs).
  apply Read16LE_field in HnameLen.
  apply Read64LE_Signed_Ok in HdataAddr.
  destruct HdataAddr as (_ & _ & HdataAddr).
  subst vtileMode vformat vwidth vheight vsizeRange imgSize valignment
        vnameAddr ptrsAddr nameLen vdataAddr.
  fold nameAddr in Hname, H. fold dataAddr in H.
  destruct (Z.ltb_spec dataAddr 0) as [Hdneg | Hdnn];
    [cbn [orb] in H; discriminate |].
  destruct (Z.gtb_spec (dataAddr + field_u32 f (a + 80)) (len f))
    as [Hover | Hfits]; [cbn [orb] in H; discriminate |].
  cbn [orb] in H. apply Ok_inj in H. apply inr_inj in H. subst tex.
  cbn [tileMode format width height sizeRange imageSize alignment name data].
  split; [lia |].
  split.
  { unfold magic_at.
    destruct (list_eq_dec Byte.byte_eq_dec (slice f a 4)
                (list_byte_of_string "BRTI")) as [E | N]; [exact E |].
    apply Hmagic in N. discriminate. }
  repeat (split; [reflexivity |]).
  split; [exact Hname |].
  split; [unfold in_bounds; lia | reflexivity].
Qed.

Lemma parsed_texture_fields_witness :
  let f := bntx_two_entries 1 in
  let tex := mkTexture "t" 1 2 0x0b01 0 0 64 64 linear_1x2 in
  let a := field_i64 f (0x80 + 8 * 1) in
  let nameAddr := field_i64 f (a + 0x60) in
  let dataAddr := field_i64 f (field_i64 f (a + 0x70)) in
  0 <= a < len f
  /\ magic_at f a "BRTI"
  /\ tileMode tex = field_u8 f (a + 0x10)
  /\ format tex = field_u32 f (a + 0x1C)
  /\ width tex = field_u32 f (a + 0x24)
  /\ height tex = field_u32 f (a + 0x28)
  /\ sizeRange tex = field_u32 f (a + 0x34)
  /\ imageSize tex = field_u32 f (a + 0x50)
  /\ alignment tex = field_u32 f (a + 0x54)
  /\ ReadString f (nameAddr + 2) (Z.to_nat (field_u16 f nameAddr))
     = Ok (name tex)
  /\ in_bounds f dataAddr (imageSize tex)
  /\ data tex = slice f dataAddr (imageSize tex).
Proof.
  apply (parsed_texture_fields (bntx_two_entries 1) 0x80 1
           (mkTexture "t" 1 2 0x0b01 0 0 64 64 linear_1x2)).
  - vm_compute. discriminate.
  - lia.
  - vm_compute. reflexivity.
Defined.
